(** * Buffer-slot manager of the decoder: [mpp/codec/mpp_buf_slot.cpp]

    A shallow embedding of the slot table, its display list and the staged
    resize of [MppBufSlotsImpl], followed by the properties of the
    specification that were checked against it.

    Conventions.
    - [RK_U32] and [RK_S32] values are integers of [Z]; the wrap-around of an
      unsigned field is written [u32], a conversion to [RK_S32] is [s32].
    - A pointer into the slot array is the position it points to, so
      [&impl->slots[index]] is [index] and [&slot[k]] is [slot + k].
    - The slot array is a list of cells; a cell that [mpp_realloc] handed out
      and nobody wrote yet is [None].  Reading outside the array or reading
      such a cell has no defined behaviour: the operation ends in [Fault].
    - [mpp_realloc] gives the array it is called on back to the allocator.
      A pointer to an array that was given back is kept as a pointer to an
      array without cells: it is not NULL, and every read or write through
      it ends in [Fault].
    - The intrusive list threaded through the [list] members of the entries
      and anchored at [impl->display] is kept as the sequence of the
      positions of the queued entries, head first.  Of the list member of
      an entry one bit is kept, whether it has been initialised.  The
      sequence stands for the list as long as no queued entry is
      re-initialised or cut off by a resize, which is what [setup] and
      [ready] are called for only once every slot is Free again.
    - A frame handle ([MppFrame]) is the address of an [MppFrameImpl] in a
      heap of frame objects; calls to the buffer allocator are recorded in a
      trace.
    - Every function below takes a non-NULL [slots] handle: the
      [NULL == slots] test which opens each C function returns
      [MPP_ERR_NULL_PTR] before any state is touched. *)

From Stdlib Require Import ZArith Lia Bool.
From stdpp Require Import base option list.

Local Open Scope Z_scope.

(** ** Machine integers *)

Definition u32 (z : Z) : Z := z mod 2 ^ 32.
Definition s32 (z : Z) : Z := (z + 2 ^ 31) mod 2 ^ 32 - 2 ^ 31.

(** ** Status flags *)

Definition MPP_SLOT_UNUSED : Z := 0.
Definition MPP_SLOT_USED : Z := 1.
Definition MPP_SLOT_USED_AS_REF : Z := 2.
Definition MPP_SLOT_USED_AS_DECODING : Z := 4.
Definition MPP_SLOT_USED_AS_DISPLAY : Z := 8.

(** [status |= flag] and [status &= ~flag] on an [RK_U32]. *)
Definition set_flag (status flag : Z) : Z := Z.lor status flag.
Definition clr_flag (status flag : Z) : Z := Z.land status (u32 (Z.lnot flag)).

(** ** Data *)

Inductive MPP_RET := MPP_OK | MPP_NOK | MPP_ERR_NULL_PTR.

(** A buffer handle: [None] is NULL. *)
Definition MppBuffer := option nat.

(** A frame handle: [None] is NULL, [Some a] the address of a frame object. *)
Definition MppFrame := option nat.

(** Modelled from the spec: [MppFrameImpl] ([mpp_frame_impl.h] is not among
    the sources).  The frame object carries a buffer binding plus metadata;
    the metadata is kept as one opaque value. *)
Record MppFrameImpl := mkFrame {
  buffer : MppBuffer;
  meta : Z
}.

(** The [list] member of an entry is kept as one bit: whether
    [INIT_LIST_HEAD] has been run on it.  A zero-filled member is not a list
    head, and [list_del_init] on it follows a NULL link. *)
Record MppBufSlotEntry := mkSlotEntry {
  list_init : bool;
  status : Z;
  index : Z;
  frame : MppFrame
}.

(** An entry whose list member is a list head. *)
Definition mkEntry (s i : Z) (f : MppFrame) : MppBufSlotEntry :=
  mkSlotEntry true s i f.

Record MppBufSlotsImpl := mkImpl {
  count : Z;
  size : Z;
  decode_count : Z;
  display_count : Z;
  info_changed : Z;
  new_count : Z;
  new_size : Z;
  output : Z;
  display : list Z;
  slots : option (list (option MppBufSlotEntry))
}.

(** Calls into the buffer allocator, in the order they were made. *)
Inductive ext_call :=
| Buffer_put (b : MppBuffer)
| Buffer_inc_ref (b : MppBuffer).

Record World := mkWorld {
  impl : MppBufSlotsImpl;
  heap : list MppFrameImpl;
  trace : list ext_call
}.

(** Field updates. *)
Definition with_status (e : MppBufSlotEntry) (s : Z) : MppBufSlotEntry :=
  mkSlotEntry (list_init e) s (index e) (frame e).
Definition with_frame (e : MppBufSlotEntry) (f : MppFrame) : MppBufSlotEntry :=
  mkSlotEntry (list_init e) (status e) (index e) f.
Definition with_buffer (f : MppFrameImpl) (b : MppBuffer) : MppFrameImpl :=
  mkFrame b (meta f).

Definition with_slots (p : MppBufSlotsImpl) (t : option (list (option MppBufSlotEntry)))
  : MppBufSlotsImpl :=
  mkImpl (count p) (size p) (decode_count p) (display_count p) (info_changed p)
         (new_count p) (new_size p) (output p) (display p) t.
Definition with_display (p : MppBufSlotsImpl) (d : list Z) : MppBufSlotsImpl :=
  mkImpl (count p) (size p) (decode_count p) (display_count p) (info_changed p)
         (new_count p) (new_size p) (output p) d (slots p).
Definition with_output (p : MppBufSlotsImpl) (o : Z) : MppBufSlotsImpl :=
  mkImpl (count p) (size p) (decode_count p) (display_count p) (info_changed p)
         (new_count p) (new_size p) o (display p) (slots p).
Definition with_count (p : MppBufSlotsImpl) (c : Z) : MppBufSlotsImpl :=
  mkImpl c (size p) (decode_count p) (display_count p) (info_changed p)
         (new_count p) (new_size p) (output p) (display p) (slots p).
Definition with_size (p : MppBufSlotsImpl) (s : Z) : MppBufSlotsImpl :=
  mkImpl (count p) s (decode_count p) (display_count p) (info_changed p)
         (new_count p) (new_size p) (output p) (display p) (slots p).
Definition with_decode_count (p : MppBufSlotsImpl) (c : Z) : MppBufSlotsImpl :=
  mkImpl (count p) (size p) c (display_count p) (info_changed p)
         (new_count p) (new_size p) (output p) (display p) (slots p).
Definition with_display_count (p : MppBufSlotsImpl) (c : Z) : MppBufSlotsImpl :=
  mkImpl (count p) (size p) (decode_count p) c (info_changed p)
         (new_count p) (new_size p) (output p) (display p) (slots p).
Definition with_info_changed (p : MppBufSlotsImpl) (c : Z) : MppBufSlotsImpl :=
  mkImpl (count p) (size p) (decode_count p) (display_count p) c
         (new_count p) (new_size p) (output p) (display p) (slots p).
Definition with_staged (p : MppBufSlotsImpl) (c s : Z) : MppBufSlotsImpl :=
  mkImpl (count p) (size p) (decode_count p) (display_count p) (info_changed p)
         c s (output p) (display p) (slots p).

Definition with_impl (w : World) (p : MppBufSlotsImpl) : World :=
  mkWorld p (heap w) (trace w).
Definition with_heap (w : World) (h : list MppFrameImpl) : World :=
  mkWorld (impl w) h (trace w).
Definition log_call (w : World) (c : ext_call) : World :=
  mkWorld (impl w) (heap w) (trace w ++ [c]).

(** ** Outcomes and the monad of the operations *)

(** The conditions the source hands to [mpp_assert]. *)
Inductive assertion :=
| Assert_size_unchanged      (* setup:  size == impl->size *)
| Assert_info_changed        (* ready:  impl->info_changed *)
| Assert_slots               (* ready:  impl->slots *)
| Assert_0                   (* get_unused: 0, after the scan found no unused slot *)
| Assert_index_lt_count      (* index < impl->count *)
| Assert_entry_frame         (* check_entry_unused: entry->frame *)
| Assert_slot_frame.         (* set_buffer: slot->frame *)

Inductive outcome (A : Type) :=
| Done (a : A) (w : World)
| Abort (c : assertion) (w : World)
| Fault.
Arguments Done {A} a w.
Arguments Abort {A} c w.
Arguments Fault {A}.

Definition M (A : Type) : Type := World -> outcome A.

Definition ret {A} (a : A) : M A := fun w => Done a w.
Definition bind {A B} (m : M A) (k : A -> M B) : M B :=
  fun w => match m w with
           | Done a w' => k a w'
           | Abort c w' => Abort c w'
           | Fault => Fault
           end.

Notation "'let*' x ':=' m 'in' k" := (bind m (fun x => k))
  (at level 10, x name, m at level 100, k at level 200).
Notation "'run' m 'then' k" := (bind m (fun _ => k))
  (at level 10, m at level 100, k at level 200).

Definition fault {A} : M A := fun _ => Fault.
Definition get_impl : M MppBufSlotsImpl := fun w => Done (impl w) w.
Definition put_impl (p : MppBufSlotsImpl) : M unit := fun w => Done tt (with_impl w p).

(** Modelled from the spec: [mpp_assert] ([mpp_log.h] is not among the
    sources).  A violated precondition is a programming error, fatal and
    aborting: the call ends at the failed assertion, in the state reached
    so far. *)
Definition mpp_assert (c : assertion) (b : bool) : M unit :=
  fun w => if b then Done tt w else Abort c w.

(** Reading and writing the entry at a position of the slot array. *)
Definition cell_at (p : MppBufSlotsImpl) (pos : Z) : option MppBufSlotEntry :=
  match slots p with
  | Some t => if 0 <=? pos then mjoin (t !! Z.to_nat pos) else None
  | None => None
  end.

Definition load (pos : Z) : M MppBufSlotEntry :=
  fun w => match cell_at (impl w) pos with
           | Some e => Done e w
           | None => Fault
           end.

Definition store (pos : Z) (e : MppBufSlotEntry) : M unit :=
  fun w => match slots (impl w) with
           | Some t =>
               if (0 <=? pos) && (pos <? Z.of_nat (length t))
               then Done tt (with_impl w (with_slots (impl w)
                                            (Some (<[Z.to_nat pos := Some e]> t))))
               else Fault
           | None => Fault
           end.

(** ** The frame and buffer interfaces *)

(** Modelled from the spec: [mpp_frame_init] ([mpp_frame.h] is not among the
    sources) allocates a frame object with no buffer bound and hands out its
    address. *)
Definition mpp_frame_init : M MppFrame :=
  fun w => Done (Some (length (heap w))) (with_heap w (heap w ++ [mkFrame None 0])).

(** Modelled from the spec: [mpp_frame_get_buffer] reads the buffer binding
    of a frame object. *)
Definition mpp_frame_get_buffer (f : MppFrame) : M MppBuffer :=
  fun w => match f with
           | Some a => match heap w !! a with
                       | Some o => Done (buffer o) w
                       | None => Fault
                       end
           | None => Fault
           end.

(** Modelled from the spec: [mpp_frame_set_buffer] writes the buffer binding
    of a frame object. *)
Definition mpp_frame_set_buffer (f : MppFrame) (b : MppBuffer) : M unit :=
  fun w => match f with
           | Some a => match heap w !! a with
                       | Some o => Done tt (with_heap w (<[a := with_buffer o b]> (heap w)))
                       | None => Fault
                       end
           | None => Fault
           end.

(** [memcpy(dst, src, sizeof(MppFrameImpl))]: the whole frame object is
    overwritten with the caller's. *)
Definition memcpy_frame (dst : MppFrame) (src : MppFrameImpl) : M unit :=
  fun w => match dst with
           | Some a => if decide (a < length (heap w))%nat
                       then Done tt (with_heap w (<[a := src]> (heap w)))
                       else Fault
           | None => Fault
           end.

(** Modelled from the spec: the buffer is an opaque reference-counted
    handle; [mpp_buffer_put] gives one reference back and
    [mpp_buffer_inc_ref] takes one. *)
Definition mpp_buffer_put (b : MppBuffer) : M unit :=
  fun w => Done tt (log_call w (Buffer_put b)).
Definition mpp_buffer_inc_ref (b : MppBuffer) : M unit :=
  fun w => Done tt (log_call w (Buffer_inc_ref b)).

(** ** The slot table *)

(** The entry [init_slot_entry] writes at position [pos]. *)
Definition fresh_entry (pos : Z) : MppBufSlotEntry := mkSlotEntry true 0 (s32 pos) None.

(** The loop of [init_slot_entry]: [n] iterations are left, [i] is the loop
    counter and [p] runs over the entries from [&slots[pos]]. *)
Fixpoint init_slot_loop (n : nat) (pos i : Z) : M unit :=
  match n with
  | O => ret tt
  | S n' => run store (pos + i) (fresh_entry (pos + i)) then
            init_slot_loop n' pos (i + 1)
  end.

(** [init_slot_entry(slots, pos, count)]: both arguments are [RK_S32]. *)
Definition init_slot_entry (pos count : Z) : M unit :=
  init_slot_loop (Z.to_nat (s32 count)) (s32 pos) 0.

(** Modelled from the spec: [mpp_calloc] ([mpp_mem.h] is not among the
    sources) yields a zero-filled array of [n] entries. *)
Definition mpp_calloc (n : Z) : list (option MppBufSlotEntry) :=
  replicate (Z.to_nat n) (Some (mkSlotEntry false 0 0 None)).

(** A byte copy of an entry in another array: the links of its list member
    still point into the array it was copied from, so the copy is no list
    head. *)
Definition moved_entry (e : MppBufSlotEntry) : MppBufSlotEntry :=
  mkSlotEntry false (status e) (index e) (frame e).

(** Modelled from the spec: [mpp_realloc] ([mpp_mem.h] is not among the
    sources) is the [realloc] of C, and a table reallocation destroys the
    entries of the old table.  Called on [impl->slots], it gives that array
    back to the allocator and answers a new array of [n] entries, which
    holds copies of the entries both sizes have; what it adds is not
    written.  The new array is the value of the call: [impl->slots] stays
    what it was, a pointer to the array given back, unless the caller
    stores the value there.  Like [mpp_calloc], the call is taken to
    succeed. *)
Definition mpp_realloc (n : Z) : M (list (option MppBufSlotEntry)) :=
  fun w => match slots (impl w) with
           | Some t =>
               Done (take (Z.to_nat n) (map (option_map moved_entry) t) ++
                     replicate (Z.to_nat n - length t)%nat None)
                    (with_impl w (with_slots (impl w) (Some [])))
           | None => Done (replicate (Z.to_nat n) None) w
           end.

(** [check_entry_unused(entry)], [entry] given by its position. *)
Definition check_entry_unused (entry : Z) : M MppFrame :=
  let* e := load entry in
  if status e =? MPP_SLOT_USED then
    run store entry (with_status e MPP_SLOT_UNUSED) then
    run mpp_assert Assert_entry_frame (bool_decide (frame e <> None)) then
    let* b := mpp_frame_get_buffer (frame e) in
    run mpp_buffer_put b then
    run store entry (with_frame (with_status e MPP_SLOT_UNUSED) None) then
    ret None
  else ret (frame e).

(** [mpp_buf_slot_init]: the pool is zero-filled by [mpp_calloc] and the
    display list is empty. *)
Definition zero_impl : MppBufSlotsImpl := mkImpl 0 0 0 0 0 0 0 0 [] None.

Definition mpp_buf_slot_init : M MPP_RET :=
  run put_impl zero_impl then ret MPP_OK.

Definition mpp_buf_slot_setup (count' size' changed : Z) : M MPP_RET :=
  let* p := get_impl in
  run match slots p with
      | None =>
          (* first slot setup *)
          run put_impl (with_slots (with_size (with_count p count') size')
                          (Some (mpp_calloc count'))) then
          init_slot_entry 0 count'
      | Some _ =>
          if changed =? 0 then
            run mpp_assert Assert_size_unchanged (size' =? size p) then
            if count p <? count' then
              (* the array [mpp_realloc] answers is dropped *)
              run mpp_realloc count' then
              init_slot_entry (count p) (u32 (count' - count p))
            else ret tt
          else
            put_impl (with_info_changed (with_staged p count' size') 1)
      end then
  ret MPP_OK.

Definition mpp_buf_slot_is_changed : M Z :=
  let* p := get_impl in ret (info_changed p).

Definition mpp_buf_slot_ready : M MPP_RET :=
  let* p := get_impl in
  run mpp_assert Assert_info_changed (negb (info_changed p =? 0)) then
  run mpp_assert Assert_slots (bool_decide (slots p <> None)) then
  let p1 := with_size (with_info_changed p 0) (new_size p) in
  run put_impl p1 then
  run (if negb (count p1 =? new_count p1) then
         (* the array [mpp_realloc] answers is dropped *)
         run mpp_realloc (new_count p1) then
         init_slot_entry 0 (new_count p1)
       else ret tt) then
  let* p2 := get_impl in
  run put_impl (with_count p2 (new_count p2)) then
  ret MPP_OK.

Definition mpp_buf_slot_get_size : M Z :=
  let* p := get_impl in ret (size p).

(** The scan of [mpp_buf_slot_get_unused]: [n] iterations are left and [i]
    is both the loop counter and the position of [slot]. *)
Fixpoint get_unused_loop (n : nat) (i : Z) : M (option Z) :=
  match n with
  | O => ret None
  | S n' =>
      let* e := load i in
      if MPP_SLOT_UNUSED =? status e then
        run store i (with_status e (set_flag (status e) MPP_SLOT_USED)) then
        ret (Some i)
      else get_unused_loop n' (i + 1)
  end.

(** The result is the return code and the value left in [*index]. *)
Definition mpp_buf_slot_get_unused : M (MPP_RET * Z) :=
  let* p := get_impl in
  let* r := get_unused_loop (Z.to_nat (count p)) 0 in
  match r with
  | Some i => ret (MPP_OK, i)
  | None =>
      run mpp_assert Assert_0 false then
      ret (MPP_NOK, u32 (-1))
  end.

Definition mpp_buf_slot_set_ref (index' : Z) : M MPP_RET :=
  let* p := get_impl in
  run mpp_assert Assert_index_lt_count (index' <? count p) then
  let slot := index' in
  let* e := load slot in
  run store slot (with_status e (set_flag (status e) MPP_SLOT_USED_AS_REF)) then
  ret MPP_OK.

Definition mpp_buf_slot_clr_ref (index' : Z) : M MPP_RET :=
  let* p := get_impl in
  run mpp_assert Assert_index_lt_count (index' <? count p) then
  let slot := index' in
  let* e := load slot in
  run store slot (with_status e (clr_flag (status e) MPP_SLOT_USED_AS_REF)) then
  run check_entry_unused (slot + index') then
  ret MPP_OK.

(** [frame'] is the object the caller's handle points to, [None] for a
    NULL handle. *)
Definition mpp_buf_slot_set_decoding (index' : Z) (frame' : option MppFrameImpl)
  : M MPP_RET :=
  match frame' with
  | None => ret MPP_ERR_NULL_PTR
  | Some src =>
      let* p := get_impl in
      run mpp_assert Assert_index_lt_count (index' <? count p) then
      let slot := index' in
      let* e := load slot in
      let e1 := with_status e (set_flag (status e) MPP_SLOT_USED_AS_DECODING) in
      run store slot e1 then
      let* f := (match frame e1 with
                 | None => let* a := mpp_frame_init in
                           run store slot (with_frame e1 a) then ret a
                 | Some a => ret (Some a)
                 end) in
      run memcpy_frame f src then
      let* p1 := get_impl in
      run put_impl (with_output p1 (s32 index')) then
      ret MPP_OK
  end.

Definition mpp_buf_slot_clr_decoding (index' : Z) : M MPP_RET :=
  let* p := get_impl in
  run mpp_assert Assert_index_lt_count (index' <? count p) then
  let slot := index' in
  let* e := load slot in
  run store slot (with_status e (clr_flag (status e) MPP_SLOT_USED_AS_DECODING)) then
  let* p1 := get_impl in
  run put_impl (with_decode_count p1 (u32 (decode_count p1 + 1))) then
  run check_entry_unused (slot + index') then
  ret MPP_OK.

Definition mpp_buf_slot_get_decoding : M (MPP_RET * Z) :=
  let* p := get_impl in ret (MPP_OK, u32 (output p)).

(** [list_del_init] takes the entry out of the list it is on, if any, and
    [list_add_tail] puts it last.  Both need the list member of the entry
    to be a list head. *)
Definition list_del_init (pos : Z) (d : list Z) : list Z :=
  filter (fun j => j <> pos) d.
Definition list_add_tail (pos : Z) (d : list Z) : list Z := d ++ [pos].
Definition list_head_valid (e : MppBufSlotEntry) : M unit :=
  fun w => if list_init e then Done tt w else Fault.

Definition mpp_buf_slot_set_display (index' : Z) : M MPP_RET :=
  let* p := get_impl in
  run mpp_assert Assert_index_lt_count (index' <? count p) then
  let slot := index' in
  let* e := load slot in
  run store slot (with_status e (set_flag (status e) MPP_SLOT_USED_AS_DISPLAY)) then
  run list_head_valid e then
  let* p1 := get_impl in
  run put_impl (with_display p1 (list_add_tail slot (list_del_init slot (display p1)))) then
  ret MPP_OK.

Definition mpp_buf_slot_set_buffer (index' : Z) (buffer' : MppBuffer) : M MPP_RET :=
  match buffer' with
  | None => ret MPP_ERR_NULL_PTR
  | Some _ =>
      let* p := get_impl in
      run mpp_assert Assert_index_lt_count (index' <? count p) then
      let slot := index' in
      let* e := load slot in
      run mpp_assert Assert_slot_frame (bool_decide (frame e <> None)) then
      run mpp_frame_set_buffer (frame e) buffer' then
      run mpp_buffer_inc_ref buffer' then
      ret MPP_OK
  end.

Definition mpp_buf_slot_get_buffer (index' : Z) : M MppBuffer :=
  let* p := get_impl in
  run mpp_assert Assert_index_lt_count (index' <? count p) then
  let slot := index' in
  let* e := load slot in
  mpp_frame_get_buffer (frame e).

(** The result is the return code and the handle written to [*frame]
    ([None] when nothing was written).  The entry taken is on the display
    list, so its list member is a list head. *)
Definition mpp_buf_slot_get_display : M (MPP_RET * option MppFrame) :=
  let* p := get_impl in
  match display p with
  | [] => ret (MPP_NOK, None)
  | slot :: _ =>
      let* e := load slot in
      let out := frame e in
      let index' := u32 (index e) in
      run mpp_assert Assert_index_lt_count (index' <? count p) then
      run store slot (with_status e (clr_flag (status e) MPP_SLOT_USED_AS_DISPLAY)) then
      let* p1 := get_impl in
      run put_impl (with_display p1 (list_del_init slot (display p1))) then
      run check_entry_unused slot then
      let* p2 := get_impl in
      run put_impl (with_display_count p2 (u32 (display_count p2 + 1))) then
      ret (MPP_OK, Some out)
  end.

(** ** The interface as a set of operations *)

Inductive op :=
| Setup (count' size' changed : Z)
| Ready
| GetUnused
| SetRef (i : Z)
| ClrRef (i : Z)
| SetDecoding (i : Z) (f : MppFrameImpl)
| ClrDecoding (i : Z)
| SetBuffer (i : Z) (b : nat)
| SetDisplay (i : Z)
| GetDisplay.

(** What a call hands back: the return code, and the index or the frame
    handle written through the out-parameter. *)
Inductive result :=
| Ret (r : MPP_RET)
| RetIndex (r : MPP_RET) (i : Z)
| RetFrame (r : MPP_RET) (f : option MppFrame).

Definition run_op (o : op) : M result :=
  match o with
  | Setup c s ch => let* r := mpp_buf_slot_setup c s ch in ret (Ret r)
  | Ready => let* r := mpp_buf_slot_ready in ret (Ret r)
  | GetUnused => let* r := mpp_buf_slot_get_unused in ret (RetIndex (fst r) (snd r))
  | SetRef i => let* r := mpp_buf_slot_set_ref i in ret (Ret r)
  | ClrRef i => let* r := mpp_buf_slot_clr_ref i in ret (Ret r)
  | SetDecoding i f => let* r := mpp_buf_slot_set_decoding i (Some f) in ret (Ret r)
  | ClrDecoding i => let* r := mpp_buf_slot_clr_decoding i in ret (Ret r)
  | SetBuffer i b => let* r := mpp_buf_slot_set_buffer i (Some b) in ret (Ret r)
  | SetDisplay i => let* r := mpp_buf_slot_set_display i in ret (Ret r)
  | GetDisplay => let* r := mpp_buf_slot_get_display in ret (RetFrame (fst r) (snd r))
  end.

(** A sequence of calls; the results are collected in call order. *)
Fixpoint run_ops (l : list op) : M (list result) :=
  match l with
  | [] => ret []
  | o :: l' => let* r := run_op o in
               let* rs := run_ops l' in
               ret (r :: rs)
  end.

(** The per-frame operations, as opposed to the negotiation of the pool
    geometry. *)
Definition per_frame (o : op) : bool :=
  match o with
  | Setup _ _ _ | Ready => false
  | _ => true
  end.

(** The states reached from a freshly set-up pool by per-frame calls that
    returned and satisfy [ok]. *)
Inductive reachable_by (ok : World -> op -> bool) : World -> Prop :=
| reach_setup w0 w1 c s ch w :
    mpp_buf_slot_init w0 = Done MPP_OK w1 ->
    mpp_buf_slot_setup c s ch w1 = Done MPP_OK w ->
    reachable_by ok w
| reach_step w o r w' :
    reachable_by ok w ->
    per_frame o = true ->
    ok w o = true ->
    run_op o w = Done r w' ->
    reachable_by ok w'.

Definition reachable : World -> Prop := reachable_by (fun _ _ => true).

(** A slot is acquired when its status has the [MPP_SLOT_USED] bit. *)
Definition acquired (w : World) (i : Z) : bool :=
  match cell_at (impl w) i with
  | Some e => Z.testbit (status e) 0
  | None => false
  end.

(** The caller's discipline: a claim is only placed on an acquired slot. *)
Definition claims_on_acquired (w : World) (o : op) : bool :=
  match o with
  | SetRef i | SetDecoding i _ | SetDisplay i => acquired w i
  | _ => true
  end.

Definition reachable_disciplined : World -> Prop := reachable_by claims_on_acquired.

(** The buffer bound to a slot entry: the binding of its attached frame. *)
Definition bound_buffer (w : World) (e : MppBufSlotEntry) : MppBuffer :=
  match frame e with
  | Some a => match heap w !! a with
              | Some o => buffer o
              | None => None
              end
  | None => None
  end.

(** The entry holds a buffer reference. *)
Definition holds_buffer (w : World) (e : MppBufSlotEntry) : Prop :=
  bound_buffer w e <> None.

(** The claim an operation clears ([0] when it clears none). *)
Definition cleared_claim (o : op) : Z :=
  match o with
  | ClrRef _ => MPP_SLOT_USED_AS_REF
  | ClrDecoding _ => MPP_SLOT_USED_AS_DECODING
  | GetDisplay => MPP_SLOT_USED_AS_DISPLAY
  | _ => 0
  end.

(** The slot array is in place and each of its [count] slots is a written
    entry. *)
Definition table_ok (p : MppBufSlotsImpl) : Prop :=
  forall i, 0 <= i < count p -> is_Some (cell_at p i).

(** Every slot of the pool is Free. *)
Definition all_free (p : MppBufSlotsImpl) : Prop :=
  forall i, 0 <= i < count p ->
            exists e, cell_at p i = Some e /\ status e = MPP_SLOT_UNUSED.

(** The effect of an operation on the display queue as the specification
    words it: marking moves the slot to the tail, popping drops the head. *)
Definition queue_after (o : op) (d : list Z) : list Z :=
  match o with
  | SetDisplay i => filter (fun j => j <> i) d ++ [i]
  | GetDisplay => tail d
  | _ => d
  end.

(** A freshly initialised pool, in a world with no frame object and no
    allocator call yet. *)
Definition blank : World := mkWorld zero_impl [] [].

(** The world a sequence of calls ends in, when all of them return. *)
Definition world_after (l : list op) (w : World) : option World :=
  match run_ops l w with
  | Done _ w' => Some w'
  | _ => None
  end.

(** The world after the entry at [pos] has been overwritten with [e]. *)
Definition set_cell (w : World) (pos : Z) (e : MppBufSlotEntry) : World :=
  match slots (impl w) with
  | Some t => with_impl w (with_slots (impl w) (Some (<[Z.to_nat pos := Some e]> t)))
  | None => w
  end.

(** What one per-frame operation [o], taking the world from [w] to [w'],
    can do to the entry at position [j]. *)
Inductive slot_step (o : op) (w w' : World) (j : Z) (e e' : MppBufSlotEntry) : Prop :=
| step_same :
    e' = e -> slot_step o w w' j e e'
| step_acquire :
    o = GetUnused -> status e = MPP_SLOT_UNUSED ->
    e' = with_status e MPP_SLOT_USED -> slot_step o w w' j e e'
| step_ref :
    o = SetRef j ->
    e' = with_status e (set_flag (status e) MPP_SLOT_USED_AS_REF) ->
    slot_step o w w' j e e'
| step_display :
    o = SetDisplay j ->
    e' = with_status e (set_flag (status e) MPP_SLOT_USED_AS_DISPLAY) ->
    slot_step o w w' j e e'
| step_decoding f a :
    o = SetDecoding j f ->
    frame e = None \/ frame e = Some a ->
    e' = with_frame (with_status e (set_flag (status e) MPP_SLOT_USED_AS_DECODING)) (Some a) ->
    slot_step o w w' j e e'
| step_clear :
    cleared_claim o <> 0 ->
    e' = with_status e (clr_flag (status e) (cleared_claim o)) ->
    slot_step o w w' j e e'
| step_release :
    cleared_claim o <> 0 ->
    clr_flag (status e) (cleared_claim o) = MPP_SLOT_USED ->
    frame e <> None ->
    e' = with_frame (with_status e MPP_SLOT_UNUSED) None ->
    trace w' = trace w ++ [Buffer_put (bound_buffer w e)] ->
    slot_step o w w' j e e'.

(** An entry is either Free with no frame attached or carries the
    [MPP_SLOT_USED] bit. *)
Definition entry_ok (e : MppBufSlotEntry) : Prop :=
  (status e = MPP_SLOT_UNUSED /\ frame e = None) \/ Z.testbit (status e) 0 = true.

Definition slots_ok (w : World) : Prop :=
  forall j e, cell_at (impl w) j = Some e -> entry_ok e.

(** The cells after a step, position by position. *)
Definition cells_step (o : op) (w w' : World) : Prop :=
  forall j, match cell_at (impl w) j with
            | Some e => exists e', cell_at (impl w') j = Some e' /\ slot_step o w w' j e e'
            | None => cell_at (impl w') j = None
            end.


(** Case analysis on the opening of a slot operation: in hypothesis [H],
    which says that the operation returned, the index is in range and the
    slot is an entry [e]. *)
Ltac open_slot H w i e He :=
  destruct (i <? count (impl w)); [| discriminate H];
  destruct (cell_at (impl w) i) as [e |] eqn:He; [| discriminate H].

(** The index member of every entry passes the range assertion. *)
Definition index_ok (w : World) : Prop :=
  forall j e, cell_at (impl w) j = Some e -> u32 (index e) < count (impl w).

(** Every queued position is an entry of the slot array. *)
Definition queue_ok (w : World) : Prop :=
  forall h, h ∈ display (impl w) -> is_Some (cell_at (impl w) h).

(** ** Further vocabulary for the properties of the interface *)

(** The slot index an operation is called with. *)
Definition op_index (o : op) : option Z :=
  match o with
  | SetRef i | ClrRef i | SetDecoding i _ | ClrDecoding i | SetBuffer i _ | SetDisplay i =>
      Some i
  | Setup _ _ _ | Ready | GetUnused | GetDisplay => None
  end.

(** The geometry of the pool, which [setup] and [ready] negotiate: the
    count and size in force, the staged change, and the length of the slot
    array. *)
Definition geometry (p : MppBufSlotsImpl) : Z * Z * Z * Z * Z * option nat :=
  (count p, size p, info_changed p, new_count p, new_size p, length <$> slots p).

(** The world [check_entry_unused], run on the entry at [pos], returns in:
    the one it started in, or the one in which that entry was released. *)
Inductive checked (w : World) (pos : Z) : World -> Prop :=
| checked_kept e :
    cell_at (impl w) pos = Some e -> status e <> MPP_SLOT_USED ->
    checked w pos w
| checked_released e a ob :
    cell_at (impl w) pos = Some e -> status e = MPP_SLOT_USED ->
    frame e = Some a -> heap w !! a = Some ob ->
    checked w pos
      (log_call (set_cell w pos (with_frame (with_status e MPP_SLOT_UNUSED) None))
                (Buffer_put (buffer ob))).

(** The per-frame calls that return, with what they hand back and the
    world they return in. *)
Inductive op_done (w : World) : op -> result -> World -> Prop :=
| done_get_unused k e :
    0 <= k < count (impl w) ->
    cell_at (impl w) k = Some e -> status e = MPP_SLOT_UNUSED ->
    (forall j, 0 <= j < k ->
               exists e', cell_at (impl w) j = Some e' /\ status e' <> MPP_SLOT_UNUSED) ->
    op_done w GetUnused (RetIndex MPP_OK k) (set_cell w k (with_status e MPP_SLOT_USED))
| done_set_ref i e :
    i < count (impl w) -> cell_at (impl w) i = Some e ->
    op_done w (SetRef i) (Ret MPP_OK)
      (set_cell w i (with_status e (set_flag (status e) MPP_SLOT_USED_AS_REF)))
| done_clr_ref i e w' :
    i < count (impl w) -> cell_at (impl w) i = Some e ->
    checked (set_cell w i (with_status e (clr_flag (status e) MPP_SLOT_USED_AS_REF)))
            (i + i) w' ->
    op_done w (ClrRef i) (Ret MPP_OK) w'
| done_set_decoding_new i e src :
    i < count (impl w) -> cell_at (impl w) i = Some e -> frame e = None ->
    let e1 := with_frame (with_status e (set_flag (status e) MPP_SLOT_USED_AS_DECODING))
                         (Some (length (heap w))) in
    op_done w (SetDecoding i src) (Ret MPP_OK)
      (mkWorld (with_output (impl (set_cell w i e1)) (s32 i)) (heap w ++ [src]) (trace w))
| done_set_decoding_old i e src a :
    i < count (impl w) -> cell_at (impl w) i = Some e ->
    frame e = Some a -> (a < length (heap w))%nat ->
    let e1 := with_frame (with_status e (set_flag (status e) MPP_SLOT_USED_AS_DECODING))
                         (Some a) in
    op_done w (SetDecoding i src) (Ret MPP_OK)
      (mkWorld (with_output (impl (set_cell w i e1)) (s32 i)) (<[a := src]> (heap w)) (trace w))
| done_clr_decoding i e w' :
    i < count (impl w) -> cell_at (impl w) i = Some e ->
    let w1 := set_cell w i (with_status e (clr_flag (status e) MPP_SLOT_USED_AS_DECODING)) in
    checked (with_impl w1 (with_decode_count (impl w1) (u32 (decode_count (impl w1) + 1))))
            (i + i) w' ->
    op_done w (ClrDecoding i) (Ret MPP_OK) w'
| done_set_buffer i e b a ob :
    i < count (impl w) -> cell_at (impl w) i = Some e ->
    frame e = Some a -> heap w !! a = Some ob ->
    op_done w (SetBuffer i b) (Ret MPP_OK)
      (log_call (with_heap w (<[a := with_buffer ob (Some b)]> (heap w)))
                (Buffer_inc_ref (Some b)))
| done_set_display i e :
    i < count (impl w) -> cell_at (impl w) i = Some e -> list_init e = true ->
    let w1 := set_cell w i (with_status e (set_flag (status e) MPP_SLOT_USED_AS_DISPLAY)) in
    op_done w (SetDisplay i) (Ret MPP_OK)
      (with_impl w1 (with_display (impl w1)
                       (list_add_tail i (list_del_init i (display (impl w1))))))
| done_get_display_empty :
    display (impl w) = [] ->
    op_done w GetDisplay (RetFrame MPP_NOK None) w
| done_get_display h t e w3 :
    display (impl w) = h :: t -> cell_at (impl w) h = Some e ->
    u32 (index e) < count (impl w) ->
    let w1 := set_cell w h (with_status e (clr_flag (status e) MPP_SLOT_USED_AS_DISPLAY)) in
    checked (with_impl w1 (with_display (impl w1) (list_del_init h (display (impl w1)))))
            h w3 ->
    op_done w GetDisplay (RetFrame MPP_OK (Some (frame e)))
      (with_impl w3 (with_display_count (impl w3) (u32 (display_count (impl w3) + 1)))).

(** What [decode_count] and [display_count] count: the calls of
    [mpp_buf_slot_clr_decoding], and the calls of [mpp_buf_slot_get_display]
    that handed out a frame. *)
Definition is_clr_decoding (o : op) : bool :=
  match o with ClrDecoding _ => true | _ => false end.
Definition is_shown (r : result) : bool :=
  match r with RetFrame MPP_OK _ => true | _ => false end.
Fixpoint count_if {A} (f : A -> bool) (l : list A) : Z :=
  match l with
  | [] => 0
  | x :: l' => (if f x then 1 else 0) + count_if f l'
  end.

(** The index of the last [mpp_buf_slot_set_decoding] call of a sequence,
    [d] if there is none. *)
Definition last_decoding (l : list op) (d : Z) : Z :=
  fold_left (fun d o => match o with SetDecoding i _ => i | _ => d end) l d.

(** The calls that take a buffer reference, the calls that may give one
    back, and the two kinds of allocator call. *)
Definition is_set_buffer (o : op) : bool :=
  match o with SetBuffer _ _ => true | _ => false end.
Definition clears_claim (o : op) : bool :=
  match o with ClrRef _ | ClrDecoding _ | GetDisplay => true | _ => false end.
Definition is_inc_ref (c : ext_call) : bool :=
  match c with Buffer_inc_ref _ => true | Buffer_put _ => false end.
Definition is_put (c : ext_call) : bool :=
  match c with Buffer_put _ => true | Buffer_inc_ref _ => false end.

(** A run of per-frame calls that all return and all pass [ok]. *)
Fixpoint passes (ok : World -> op -> bool) (l : list op) (w : World) : bool :=
  match l with
  | [] => true
  | o :: l' =>
      per_frame o && ok w o &&
      match run_op o w with
      | Done _ w1 => passes ok l' w1
      | _ => false
      end
  end.

(** The calls that place a claim on a slot. *)
Definition places_claim (o : op) : bool :=
  match o with SetRef _ | SetDecoding _ _ | SetDisplay _ => true | _ => false end.

(** The frame handles of the slot table are in order: each one is the
    address of a frame object, and no two slots hold the same one. *)
Definition frames_ok (w : World) : Prop :=
  (forall j e a, cell_at (impl w) j = Some e -> frame e = Some a ->
                 (a < length (heap w))%nat) /\
  (forall j1 j2 e1 e2 a,
      cell_at (impl w) j1 = Some e1 -> cell_at (impl w) j2 = Some e2 ->
      frame e1 = Some a -> frame e2 = Some a -> j1 = j2).

(** Every frame handle of the slot table of [w'] was at the same slot in
    [w]. *)
Definition frames_from (w w' : World) : Prop :=
  forall j e' a, cell_at (impl w') j = Some e' -> frame e' = Some a ->
                 exists e, cell_at (impl w) j = Some e /\ frame e = Some a.

(** The display queue and the Display flags agree on the entries of the
    slot array. *)
Definition display_marks (p : MppBufSlotsImpl) : Prop :=
  forall j e, cell_at p j = Some e ->
              (j ∈ display p <-> Z.testbit (status e) 3 = true).

(** From [w] to [w'] the display queue stays and no entry changes its
    Display flag. *)
Definition display_kept (w w' : World) : Prop :=
  display (impl w') = display (impl w) /\
  forall j e', cell_at (impl w') j = Some e' ->
               exists e, cell_at (impl w) j = Some e /\
                         Z.testbit (status e') 3 = Z.testbit (status e) 3.

(** From [w] to [w'] nothing changed in the slot table but the entry at
    [i], which is now [e']; the count is the same. *)
Definition only_slot (w w' : World) (i : Z) (e' : MppBufSlotEntry) : Prop :=
  cell_at (impl w') i = Some e' /\
  (forall j, j <> i -> cell_at (impl w') j = cell_at (impl w) j) /\
  count (impl w') = count (impl w).

(** * The parser front end: [mpp/codec/mpp_parser.cpp]

    [parser_init] picks the codec whose coding type the configuration asks
    for from the table [parsers] of registered codecs, allocates the handle
    and the codec context and runs the codec's [init]; the other functions
    hand a call on to the callback of the codec chosen.

    Conventions.
    - The codecs are not part of this file: the table [parsers] and the
      state the callbacks of a codec work on are left open, and a callback
      is any function of that state.
    - A pointer is the address of a block of the allocator, [None] is NULL.
      [mpp_calloc] may fail; whether the next allocations succeed is read
      from the world.  Reading through a pointer that is not the address of
      a handle, and freeing a block that is not allocated, have no defined
      behaviour. *)
Module Parser.

Declare Scope parser_scope.

(** Modelled from the spec: the return codes ([MPP_RET] is not among the
    sources).  The four this file names, and any other code a codec
    callback may return. *)
Inductive MPP_RET :=
| MPP_OK
| MPP_NOK
| MPP_ERR_NULL_PTR
| MPP_ERR_MALLOC
| MPP_ERR_CODEC (code : Z).

(** [MPP_OK != ret] *)
Definition not_ok (r : MPP_RET) : bool :=
  match r with MPP_OK => false | _ => true end.

(** Modelled from the spec: [ParserCfg] ([mpp_parser.h] is not among the
    sources).  Of the configuration this file reads the coding type; the
    rest is kept as one opaque value. *)
Record ParserCfg := mkCfg {
  cfg_coding : Z;
  cfg_rest : Z
}.

Section WithCodecs.

(** What the callbacks of the codecs read and write. *)
Context {Codec : Type}.

(** A callback takes the codec state to a return code and a new state. *)
Definition callback : Type := Codec -> MPP_RET * Codec.

(** Modelled from the spec: [ParserApi] ([mpp_parser.h] is not among the
    sources), with the members this file uses.  A callback member that is
    NULL is [None]; the first argument of each callback is the pointer to
    the codec context, the others are the packet, the task, the command
    and its parameter. *)
Record ParserApi := mkApi {
  coding : Z;
  ctx_size : Z;
  init : option (option nat -> ParserCfg -> callback);
  deinit : option (option nat -> callback);
  prepare : option (option nat -> nat -> option nat -> callback);
  parse : option (option nat -> nat -> callback);
  reset : option (option nat -> callback);
  flush : option (option nat -> callback);
  control : option (option nat -> Z -> option nat -> callback)
}.

Record ParserImpl := mkParserImpl {
  cfg : ParserCfg;
  api : ParserApi;
  ctx : option nat
}.

(** A parser handle ([Parser]): NULL or the address of a [ParserImpl]. *)
Definition Parser := option nat.

(** The codec state, the blocks that are allocated, the next fresh address,
    the outcome of the coming allocations ([false]: the allocation fails; an
    empty list: they all succeed), and the handles in memory. *)
Record World := mkWorld {
  codec : Codec;
  live : list nat;
  next : nat;
  oracle : list bool;
  objs : list (nat * ParserImpl)
}.

(** A call returns a value and a world, or has no defined behaviour. *)
Definition M (A : Type) : Type := World -> option (A * World).

Definition ret {A} (a : A) : M A := fun w => Some (a, w).
Definition bind {A B} (m : M A) (k : A -> M B) : M B :=
  fun w => match m w with
           | Some (a, w') => k a w'
           | None => None
           end.
Definition fault {A} : M A := fun _ => None.

Notation "'let*' x ':=' m 'in' k" := (bind m (fun x => k))
  (at level 10, x name, m at level 100, k at level 200) : parser_scope.
Notation "'run' m 'then' k" := (bind m (fun _ => k))
  (at level 10, m at level 100, k at level 200) : parser_scope.
Local Open Scope parser_scope.

(** Modelled from the spec: [mpp_calloc] and [mpp_calloc_size]
    ([mpp_mem.h] is not among the sources) hand out a fresh block or
    NULL. *)
Definition mpp_calloc : M (option nat) :=
  fun w => match oracle w with
           | false :: o => Some (None, mkWorld (codec w) (live w) (next w) o (objs w))
           | o => Some (Some (next w),
                        mkWorld (codec w) (live w ++ [next w]) (S (next w)) (tail o) (objs w))
           end.
Definition mpp_calloc_size (size : Z) : M (option nat) := mpp_calloc.

(** Modelled from the spec: [mpp_free] gives a block back; freeing NULL
    does nothing. *)
Definition mpp_free (a : option nat) : M unit :=
  fun w => match a with
           | None => Some (tt, w)
           | Some x =>
               if bool_decide (x ∈ live w)
               then Some (tt, mkWorld (codec w) (filter (fun y => y <> x) (live w)) (next w)
                                      (oracle w)
                                      (filter (fun o => o.1 <> x) (objs w)))
               else None
           end.

(** The handle at an address. *)
Definition obj_at (w : World) (a : nat) : option ParserImpl :=
  match list_find (fun o => o.1 = a) (objs w) with
  | Some (_, o) => Some o.2
  | None => None
  end.

Definition load (prs : Parser) : M ParserImpl :=
  fun w => match prs with
           | Some a => match obj_at w a with
                       | Some p => Some (p, w)
                       | None => None
                       end
           | None => None
           end.

(** Writing the members of the handle in the block at [a]. *)
Definition store (a : nat) (p : ParserImpl) : M unit :=
  fun w => if bool_decide (a ∈ live w)
           then Some (tt, mkWorld (codec w) (live w) (next w) (oracle w)
                                  ((a, p) :: filter (fun o => o.1 <> a) (objs w)))
           else None.

(** Calling a codec callback. *)
Definition call (f : callback) : M MPP_RET :=
  fun w => let (r, c) := f (codec w) in
           Some (r, mkWorld c (live w) (next w) (oracle w) (objs w)).

(** The loop of [parser_init] over the table of codecs; the result is the
    return code and the handle left in [*prs]. *)
Fixpoint parser_init_loop (parsers : list ParserApi) (cfg' : ParserCfg)
  : M (MPP_RET * Parser) :=
  match parsers with
  | [] => ret (MPP_NOK, None)
  | api' :: rest =>
      if cfg_coding cfg' =? coding api' then
        let* p := mpp_calloc in
        let* ctx' := mpp_calloc_size (ctx_size api') in
        match ctx', p with
        | Some _, Some a =>
            match init api' with
            | None => fault
            | Some f =>
                let* r := call (f ctx' cfg') in
                if not_ok r then
                  run mpp_free p then
                  run mpp_free ctx' then
                  ret (r, None)
                else
                  run store a (mkParserImpl cfg' api' ctx') then
                  ret (MPP_OK, Some a)
            end
        | _, _ =>
            run mpp_free p then
            run mpp_free ctx' then
            ret (MPP_ERR_MALLOC, None)
        end
      else parser_init_loop rest cfg'
  end.

(** [parser_init(prs, cfg)] with [prs] not NULL; [cfg'] is the
    configuration pointed to, [None] for NULL.  With a NULL [cfg] nothing is
    written to [*prs]: the handle of the result is what the caller had
    there, [prs0]. *)
Definition parser_init (parsers : list ParserApi) (prs0 : Parser) (cfg' : option ParserCfg)
  : M (MPP_RET * Parser) :=
  match cfg' with
  | None => ret (MPP_ERR_NULL_PTR, prs0)
  | Some c => parser_init_loop parsers c
  end.

Definition parser_deinit (prs : Parser) : M MPP_RET :=
  match prs with
  | None => ret MPP_ERR_NULL_PTR
  | Some a =>
      let* p := load prs in
      run match deinit (api p) with
          | Some f => run call (f (ctx p)) then ret tt
          | None => ret tt
          end then
      run mpp_free (ctx p) then
      run mpp_free (Some a) then
      ret MPP_OK
  end.

(** The dispatch of the remaining functions: return [MPP_OK] when the
    codec has no such callback, the result of the callback otherwise. *)
Definition dispatch (f : option (option nat -> callback)) (p : ParserImpl) : M MPP_RET :=
  match f with
  | None => ret MPP_OK
  | Some g => call (g (ctx p))
  end.

Definition parser_prepare (prs : Parser) (pkt : option nat) (task : option nat)
  : M MPP_RET :=
  match prs, pkt with
  | Some _, Some k =>
      let* p := load prs in
      dispatch ((fun g c => g c k task) <$> prepare (api p)) p
  | _, _ => ret MPP_ERR_NULL_PTR
  end.

Definition parser_parse (prs : Parser) (task : option nat) : M MPP_RET :=
  match prs, task with
  | Some _, Some t =>
      let* p := load prs in
      dispatch ((fun g c => g c t) <$> parse (api p)) p
  | _, _ => ret MPP_ERR_NULL_PTR
  end.

Definition parser_reset (prs : Parser) : M MPP_RET :=
  match prs with
  | Some _ => let* p := load prs in dispatch (reset (api p)) p
  | None => ret MPP_ERR_NULL_PTR
  end.

Definition parser_flush (prs : Parser) : M MPP_RET :=
  match prs with
  | Some _ => let* p := load prs in dispatch (flush (api p)) p
  | None => ret MPP_ERR_NULL_PTR
  end.

Definition parser_control (prs : Parser) (cmd : Z) (para : option nat) : M MPP_RET :=
  match prs with
  | Some _ =>
      let* p := load prs in
      dispatch ((fun g c => g c cmd para) <$> control (api p)) p
  | None => ret MPP_ERR_NULL_PTR
  end.

(** The allocator's blocks are below the next fresh address, and the
    handles sit in allocated blocks. *)
Definition wf (w : World) : Prop :=
  (forall x, x ∈ live w -> (x < next w)%nat) /\
  (forall o, o ∈ objs w -> o.1 ∈ live w).

End WithCodecs.

Arguments ParserApi Codec : clear implicits.
Arguments ParserImpl Codec : clear implicits.
Arguments World Codec : clear implicits.

End Parser.

(** A table of two codecs for the examples, over a codec state that counts
    the callbacks run: one of coding type 7, whose [init] succeeds and which
    has a [deinit] and a [reset]; one of coding type 9, whose [init]
    fails. *)
Definition example_parsers : list (Parser.ParserApi nat) :=
  [Parser.mkApi 7 16 (Some (fun _ _ n => (Parser.MPP_OK, S n)))
                (Some (fun _ n => (Parser.MPP_OK, S n))) None None
                (Some (fun _ n => (Parser.MPP_NOK, S n))) None None;
   Parser.mkApi 9 32 (Some (fun _ _ n => (Parser.MPP_ERR_CODEC (-5), S n)))
                None None None None None None].

(** The world of the examples: nothing allocated, no callback run, and
    allocations that succeed. *)
Definition example_world : Parser.World nat := Parser.mkWorld 0%nat [] 0%nat [] [].

(** * Properties *)

(** ** Status bits *)

Lemma flag_values :
  MPP_SLOT_USED = 2 ^ 0 /\ MPP_SLOT_USED_AS_REF = 2 ^ 1 /\
  MPP_SLOT_USED_AS_DECODING = 2 ^ 2 /\ MPP_SLOT_USED_AS_DISPLAY = 2 ^ 3.
Proof. repeat split. Qed.

Lemma testbit_set_flag s f k :
  Z.testbit (set_flag s f) k = Z.testbit s k || Z.testbit f k.
Proof. unfold set_flag. apply Z.lor_spec. Qed.

Lemma testbit_clr_flag s j k :
  0 <= j -> 0 <= k < 32 ->
  Z.testbit (clr_flag s (2 ^ j)) k = Z.testbit s k && negb (j =? k).
Proof.
  intros Hj Hk. unfold clr_flag, u32.
  rewrite Z.land_spec, Z.mod_pow2_bits_low by lia.
  rewrite Z.lnot_spec by lia.
  rewrite Z.pow2_bits_eqb by lia. reflexivity.
Qed.


Lemma clr_flag_absent s j :
  0 <= j < 32 -> 0 <= s < 2 ^ 32 -> Z.testbit s j = false ->
  clr_flag s (2 ^ j) = s.
Proof.
  intros Hj Hs Hb. apply Z.bits_inj'. intros k Hk.
  destruct (Z_lt_dec k 32) as [Hlt | Hge].
  - rewrite testbit_clr_flag by lia.
    destruct (Z.eqb_spec j k) as [-> | Hne]; simpl.
    + rewrite Hb. reflexivity.
    + apply andb_true_r.
  - unfold clr_flag. rewrite Z.land_spec.
    assert (Z.testbit s k = false) as ->; [| reflexivity].
    destruct (Z.eq_dec s 0) as [-> | Hs0]; [apply Z.testbit_0_l |].
    apply Z.bits_above_log2; [lia |].
    apply Z.log2_lt_pow2; [lia |].
    apply Z.lt_le_trans with (2 ^ 32); [lia |].
    apply Z.pow_le_mono_r; lia.
Qed.

(** ** Cells of the slot array *)

Lemma load_Done w pos e :
  cell_at (impl w) pos = Some e -> load pos w = Done e w.
Proof. unfold load. intros ->. reflexivity. Qed.

Lemma load_inv w pos e w' :
  load pos w = Done e w' -> w' = w /\ cell_at (impl w) pos = Some e.
Proof.
  unfold load. destruct (cell_at (impl w) pos); [| discriminate].
  intros [= -> ->]. split; reflexivity.
Qed.

Lemma cell_at_Some p pos e :
  cell_at p pos = Some e ->
  exists t, slots p = Some t /\ 0 <= pos /\ t !! Z.to_nat pos = Some (Some e).
Proof.
  unfold cell_at. destruct (slots p) as [t |]; [| discriminate].
  destruct (Z.leb_spec 0 pos) as [Hle | Hlt]; [| discriminate].
  intros H. exists t. split; [reflexivity | split; [assumption |]].
  destruct (t !! Z.to_nat pos) as [[e' |] |]; simpl in H; congruence.
Qed.

Lemma cell_at_lookup p t pos c :
  slots p = Some t -> 0 <= pos -> t !! Z.to_nat pos = Some c -> cell_at p pos = c.
Proof.
  intros Ht Hpos Hl. unfold cell_at. rewrite Ht.
  destruct (Z.leb_spec 0 pos); [| lia]. rewrite Hl. reflexivity.
Qed.

Lemma cell_at_bound p t pos e :
  slots p = Some t -> cell_at p pos = Some e -> 0 <= pos < Z.of_nat (length t).
Proof.
  intros Ht H. apply cell_at_Some in H as (t' & Ht' & Hpos & Hl).
  rewrite Ht in Ht'. injection Ht' as <-.
  apply lookup_lt_Some in Hl. lia.
Qed.

(** The world after writing entry [e] at position [pos]. *)
Lemma store_Done w t pos e :
  slots (impl w) = Some t -> 0 <= pos < Z.of_nat (length t) ->
  store pos e w =
  Done tt (with_impl w (with_slots (impl w) (Some (<[Z.to_nat pos := Some e]> t)))).
Proof.
  intros Ht Hpos. unfold store. rewrite Ht.
  destruct (Z.leb_spec 0 pos); [| lia].
  destruct (Z.ltb_spec pos (Z.of_nat (length t))); [| lia]. reflexivity.
Qed.

Lemma store_inv w pos e w' :
  store pos e w = Done tt w' ->
  exists t, slots (impl w) = Some t /\ 0 <= pos < Z.of_nat (length t) /\
            w' = with_impl w (with_slots (impl w) (Some (<[Z.to_nat pos := Some e]> t))).
Proof.
  unfold store. destruct (slots (impl w)) as [t |]; [| discriminate].
  destruct (Z.leb_spec 0 pos); simpl; [| discriminate].
  destruct (Z.ltb_spec pos (Z.of_nat (length t))); [| discriminate].
  intros [= <-]. exists t. repeat split; lia.
Qed.

Lemma cell_at_insert p t pos e j :
  0 <= pos < Z.of_nat (length t) ->
  cell_at (with_slots p (Some (<[Z.to_nat pos := Some e]> t))) j =
  if decide (j = pos) then Some e else cell_at (with_slots p (Some t)) j.
Proof.
  intros Hpos. unfold cell_at. simpl.
  destruct (Z.leb_spec 0 j) as [Hj | Hj].
  - destruct (decide (j = pos)) as [-> | Hne].
    + rewrite list_lookup_insert_eq by lia. reflexivity.
    + rewrite list_lookup_insert_ne by lia. reflexivity.
  - destruct (decide (j = pos)); [lia | reflexivity].
Qed.

Lemma cell_at_with_slots p t j :
  slots p = Some t -> cell_at (with_slots p (Some t)) j = cell_at p j.
Proof. intros H. unfold cell_at. simpl. rewrite H. reflexivity. Qed.

(** ** Table initialisation *)

Lemma s32_le z : 0 <= z -> s32 z <= z.
Proof.
  intros Hz. unfold s32.
  pose proof (Z.mod_le (z + 2 ^ 31) (2 ^ 32) ltac:(lia) ltac:(lia)). lia.
Qed.

Lemma s32_small z : 0 <= z < 2 ^ 31 -> s32 z = z.
Proof. intros Hz. unfold s32. rewrite Z.mod_small by lia. lia. Qed.

Lemma s32_large z : 2 ^ 31 <= z < 2 ^ 32 -> s32 z = z - 2 ^ 32.
Proof.
  intros Hz. unfold s32.
  replace (z + 2 ^ 31) with (z - 2 ^ 31 + 1 * 2 ^ 32) by lia.
  rewrite Z.mod_add by lia. rewrite Z.mod_small by lia. lia.
Qed.

Lemma u32_s32 z : 0 <= z < 2 ^ 32 -> u32 (s32 z) = z.
Proof.
  intros Hz. unfold u32. destruct (Z_lt_dec z (2 ^ 31)).
  - rewrite s32_small by lia. apply Z.mod_small. lia.
  - rewrite s32_large by lia.
    replace (z - 2 ^ 32) with (z + (-1) * 2 ^ 32) by lia.
    rewrite Z.mod_add by lia. apply Z.mod_small. lia.
Qed.

(** The loop writes a fresh entry to each position it visits and nothing
    else. *)
Lemma init_slot_loop_Done n : forall pos i w t,
  slots (impl w) = Some t ->
  0 <= pos + i -> pos + i + Z.of_nat n <= Z.of_nat (length t) ->
  exists t',
    init_slot_loop n pos i w = Done tt (with_impl w (with_slots (impl w) (Some t'))) /\
    length t' = length t /\
    forall j : nat,
      t' !! j = if decide (pos + i <= Z.of_nat j < pos + i + Z.of_nat n)
                then Some (Some (fresh_entry (Z.of_nat j))) else t !! j.
Proof.
  induction n as [| n IH]; intros pos i w t Ht Hlo Hhi.
  - exists t. simpl. unfold ret. split; [| split; [reflexivity |]].
    + destruct w as [p h tr]. destruct p. simpl in *. subst. reflexivity.
    + intros j. destruct (decide _); [lia | reflexivity].
  - cbn [init_slot_loop]. unfold bind at 1.
    rewrite (store_Done w t) by (try assumption; lia).
    set (t1 := <[Z.to_nat (pos + i) := Some (fresh_entry (pos + i))]> t).
    set (w1 := with_impl w (with_slots (impl w) (Some t1))).
    destruct (IH pos (i + 1) w1 t1) as (t' & Hrun & Hlen & Hget).
    + reflexivity.
    + lia.
    + unfold t1. rewrite length_insert. lia.
    + exists t'. split; [exact Hrun | split].
      * rewrite Hlen. unfold t1. apply length_insert.
      * intros j. rewrite Hget. unfold t1.
        destruct (decide (pos + (i + 1) <= Z.of_nat j < pos + (i + 1) + Z.of_nat n)).
        -- destruct (decide _); [reflexivity | lia].
        -- destruct (decide (Z.of_nat j = pos + i)) as [Heq | Hne].
           ++ destruct (decide _); [| lia].
              replace (Z.to_nat (pos + i)) with j by lia.
              rewrite list_lookup_insert_eq by lia. rewrite Heq. reflexivity.
           ++ destruct (decide _); [lia |].
              rewrite list_lookup_insert_ne by lia. reflexivity.
Qed.

Lemma length_mpp_calloc n : length (mpp_calloc n) = Z.to_nat n.
Proof. unfold mpp_calloc. apply length_replicate. Qed.

(** [mpp_realloc] leaves [impl->slots] a pointer to the array it gave
    back, whatever array it answers. *)
Lemma mpp_realloc_Done n w t :
  slots (impl w) = Some t ->
  exists t', mpp_realloc n w = Done t' (with_impl w (with_slots (impl w) (Some []))).
Proof. intros Ht. unfold mpp_realloc. rewrite Ht. eexists. reflexivity. Qed.

Lemma mpp_realloc_inv n w t' w' :
  mpp_realloc n w = Done t' w' ->
  exists t, w' = with_impl w (with_slots (impl w) t).
Proof.
  unfold mpp_realloc. intros Hrun. destruct (slots (impl w)) as [t |] eqn:Ht.
  - injection Hrun as _ <-. eexists. reflexivity.
  - injection Hrun as _ <-. exists None. rewrite <- Ht.
    destruct w as [[] ? ?]. reflexivity.
Qed.

(** No entry can be written through a pointer to an array given back. *)
Lemma init_slot_loop_stale n pos i w :
  slots (impl w) = Some [] -> init_slot_loop (S n) pos i w = Fault.
Proof.
  intros Ht. cbn [init_slot_loop]. unfold bind, store. rewrite Ht. cbn [length].
  destruct (Z.leb_spec 0 (pos + i)); [| reflexivity].
  destruct (Z.ltb_spec (pos + i) (Z.of_nat 0)); [lia | reflexivity].
Qed.

Lemma init_world_eq w0 :
  mpp_buf_slot_init w0 = Done MPP_OK (with_impl w0 zero_impl).
Proof. reflexivity. Qed.

(** The first [setup] on a pool without a table. *)
Lemma first_setup w c s ch :
  slots (impl w) = None -> 0 <= c ->
  exists t,
    mpp_buf_slot_setup c s ch w =
    Done MPP_OK (with_impl w (with_slots (with_size (with_count (impl w) c) s) (Some t))) /\
    Z.of_nat (length t) = c /\
    forall j : nat, (j < length t)%nat ->
      exists e, t !! j = Some (Some e) /\ status e = MPP_SLOT_UNUSED /\ frame e = None /\
                0 <= index e /\ (index e = 0 \/ index e = Z.of_nat j) /\
                (c < 2 ^ 31 -> list_init e = true).
Proof.
  intros Hnone Hc.
  set (p1 := with_slots (with_size (with_count (impl w) c) s) (Some (mpp_calloc c))).
  destruct (init_slot_loop_Done (Z.to_nat (s32 c)) (s32 0) 0 (with_impl w p1) (mpp_calloc c))
    as (t' & Hrun & Hlen & Hget).
  - reflexivity.
  - rewrite (s32_small 0); lia.
  - rewrite (s32_small 0), length_mpp_calloc by lia.
    pose proof (s32_le c Hc). lia.
  - exists t'. split; [| split].
    + unfold mpp_buf_slot_setup, bind, get_impl. rewrite Hnone.
      unfold put_impl. unfold init_slot_entry. fold p1. rewrite Hrun. reflexivity.
    + rewrite Hlen, length_mpp_calloc. lia.
    + intros j Hj. rewrite Hget. rewrite Hlen in Hj.
      destruct (decide _) as [Hin | Hout].
      * eexists. split; [reflexivity |]. simpl.
        rewrite (s32_small 0) in Hin by lia.
        assert (s32 (Z.of_nat j) = Z.of_nat j) as ->.
        { apply s32_small. split; [lia |].
          destruct (Z_lt_dec c (2 ^ 31)).
          - rewrite length_mpp_calloc in Hj. lia.
          - destruct (Z_lt_dec (s32 c) 0); [lia |].
            unfold s32 in *. pose proof (Z.mod_pos_bound (c + 2 ^ 31) (2 ^ 32)). lia. }
        repeat split; auto; lia.
      * unfold mpp_calloc. rewrite lookup_replicate_2 by (rewrite length_mpp_calloc in Hj; lia).
        eexists. split; [reflexivity |]. simpl. repeat split; auto; try lia.
        intros Hc31. exfalso. apply Hout.
        rewrite (s32_small 0), s32_small by lia.
        rewrite length_mpp_calloc in Hj. lia.
Qed.

(** ** The first setup *)

(** C10.  The first [setup] on a freshly initialised pool allocates the
    table at once, with the given count and size and every slot Free,
    whatever [changed] is: nothing is staged, [info_changed] stays [0], so
    [is_changed] reports no change and a following [ready] finds nothing
    staged and stops at its assertion. *)
Theorem C10_first_setup_stages_nothing w0 c s ch :
  0 <= c ->
  exists w1 w2 t,
    mpp_buf_slot_init w0 = Done MPP_OK w1 /\
    mpp_buf_slot_setup c s ch w1 = Done MPP_OK w2 /\
    count (impl w2) = c /\ size (impl w2) = s /\
    slots (impl w2) = Some t /\ Z.of_nat (length t) = c /\
    all_free (impl w2) /\
    info_changed (impl w2) = 0 /\
    new_count (impl w2) = 0 /\ new_size (impl w2) = 0 /\
    mpp_buf_slot_is_changed w2 = Done 0 w2 /\
    mpp_buf_slot_ready w2 = Abort Assert_info_changed w2.
Proof.
  intros Hc.
  destruct (first_setup (with_impl w0 zero_impl) c s ch) as (t & Hrun & Hlen & Hcells);
    [reflexivity | assumption |].
  eexists _, _, t. split; [apply init_world_eq |]. split; [exact Hrun |].
  simpl. repeat split; try reflexivity; try assumption.
  intros i Hi. simpl in Hi.
  destruct (Hcells (Z.to_nat i)) as (e & Hl & Hst & _); [lia |].
  exists e. split; [| assumption].
  eapply cell_at_lookup; [reflexivity | lia | exact Hl].
Qed.

Lemma C10_first_setup_witness :
  0 <= 4 /\
  exists w1 w2 t,
    mpp_buf_slot_init blank = Done MPP_OK w1 /\
    mpp_buf_slot_setup 4 1024 1 w1 = Done MPP_OK w2 /\
    count (impl w2) = 4 /\ size (impl w2) = 1024 /\
    slots (impl w2) = Some t /\ Z.of_nat (length t) = 4 /\
    all_free (impl w2) /\
    info_changed (impl w2) = 0 /\
    new_count (impl w2) = 0 /\ new_size (impl w2) = 0 /\
    mpp_buf_slot_is_changed w2 = Done 0 w2 /\
    mpp_buf_slot_ready w2 = Abort Assert_info_changed w2.
Proof.
  split; [lia | apply (C10_first_setup_stages_nothing blank 4 1024 1); lia].
Defined.

(** ** Acquiring a slot *)

(** The scan stops at the first position whose status is empty. *)
Lemma get_unused_loop_found n : forall i w t k e,
  slots (impl w) = Some t ->
  i <= k < i + Z.of_nat n ->
  cell_at (impl w) k = Some e -> status e = MPP_SLOT_UNUSED ->
  (forall j, i <= j < k ->
             exists e', cell_at (impl w) j = Some e' /\ status e' <> MPP_SLOT_UNUSED) ->
  get_unused_loop n i w =
  Done (Some k)
       (with_impl w (with_slots (impl w)
                       (Some (<[Z.to_nat k := Some (with_status e MPP_SLOT_USED)]> t)))).
Proof.
  induction n as [| n IH]; intros i w t k e Ht Hk He Hst Hbusy; [lia |].
  cbn [get_unused_loop]. unfold bind at 1.
  destruct (Z.eq_dec i k) as [-> | Hne].
  - rewrite (load_Done _ _ _ He). rewrite Hst. simpl.
    unfold bind. rewrite (store_Done w t); [reflexivity | assumption |].
    eapply cell_at_bound; eauto.
  - destruct (Hbusy i) as (e' & He' & Hst'); [lia |].
    rewrite (load_Done _ _ _ He').
    destruct (Z.eqb_spec MPP_SLOT_UNUSED (status e')); [congruence |].
    apply IH; try assumption; [lia |].
    intros j Hj. apply Hbusy. lia.
Qed.

Lemma get_unused_loop_none n : forall i w,
  (forall j, i <= j < i + Z.of_nat n ->
             exists e', cell_at (impl w) j = Some e' /\ status e' <> MPP_SLOT_UNUSED) ->
  get_unused_loop n i w = Done None w.
Proof.
  induction n as [| n IH]; intros i w Hbusy; [reflexivity |].
  cbn [get_unused_loop]. unfold bind at 1.
  destruct (Hbusy i) as (e' & He' & Hst'); [lia |].
  rewrite (load_Done _ _ _ He').
  destruct (Z.eqb_spec MPP_SLOT_UNUSED (status e')); [congruence |].
  apply IH. intros j Hj. apply Hbusy. lia.
Qed.

(** C7.  [get_unused] hands out the first slot with empty status of a scan
    from position 0 and makes its status exactly [MPP_SLOT_USED]; nothing
    else changes.  When no slot has empty status the call fails on its
    error path (the message, [mpp_assert(0)], [MPP_NOK]: PoolExhausted) and
    leaves the pool as it was.  On a pool of four slots, four calls hand
    out 0, 1, 2, 3 and the fifth fails. *)
Theorem C7_get_unused_first_free w :
  (forall i e,
      0 <= i < count (impl w) ->
      cell_at (impl w) i = Some e -> status e = MPP_SLOT_UNUSED ->
      (forall j, 0 <= j < i ->
                 exists e', cell_at (impl w) j = Some e' /\ status e' <> MPP_SLOT_UNUSED) ->
      exists t',
        let w' := with_impl w (with_slots (impl w) (Some t')) in
        mpp_buf_slot_get_unused w = Done (MPP_OK, i) w' /\
        cell_at (impl w') i = Some (with_status e MPP_SLOT_USED) /\
        forall j, j <> i -> cell_at (impl w') j = cell_at (impl w) j) /\
  ((forall i, 0 <= i < count (impl w) ->
              exists e, cell_at (impl w) i = Some e /\ status e <> MPP_SLOT_UNUSED) ->
   mpp_buf_slot_get_unused w = Abort Assert_0 w) /\
  (exists w4,
      run_ops [Setup 4 1024 0; GetUnused; GetUnused; GetUnused; GetUnused] blank =
      Done [Ret MPP_OK; RetIndex MPP_OK 0; RetIndex MPP_OK 1;
            RetIndex MPP_OK 2; RetIndex MPP_OK 3] w4 /\
      mpp_buf_slot_get_unused w4 = Abort Assert_0 w4).
Proof.
  split; [| split].
  - intros i e Hi He Hst Hbusy.
    destruct (cell_at_Some _ _ _ He) as (t & Ht & _ & Hl).
    apply lookup_lt_Some in Hl.
    exists (<[Z.to_nat i := Some (with_status e MPP_SLOT_USED)]> t).
    cbv zeta. split; [| split].
    + unfold mpp_buf_slot_get_unused, bind at 1, get_impl. unfold bind at 1.
      rewrite (get_unused_loop_found _ 0 w t i e); try assumption; try lia;
        try reflexivity.
    + simpl. rewrite cell_at_insert by lia.
      destruct (decide (i = i)); [reflexivity | contradiction].
    + intros j Hj. simpl. rewrite cell_at_insert by lia.
      destruct (decide (j = i)); [contradiction |].
      apply cell_at_with_slots. assumption.
  - intros Hbusy.
    unfold mpp_buf_slot_get_unused, bind at 1, get_impl. unfold bind at 1.
    rewrite get_unused_loop_none; [reflexivity |].
    intros j Hj. apply Hbusy. lia.
  - eexists. split; vm_compute; reflexivity.
Qed.

Lemma C7_get_unused_witness :
  exists w, world_after [Setup 4 1024 0; GetUnused] blank = Some w /\
            exists w', mpp_buf_slot_get_unused w = Done (MPP_OK, 1) w' /\
                       cell_at (impl w') 1 = Some (mkEntry MPP_SLOT_USED 1 None).
Proof.
  eexists. split; [vm_compute; reflexivity |].
  match goal with
  | |- exists w', mpp_buf_slot_get_unused ?w = _ /\ _ =>
      destruct (proj1 (C7_get_unused_first_free w) 1 (mkEntry 0 1 None))
        as (t' & Hrun & Hcell & _)
  end.
  - simpl. lia.
  - reflexivity.
  - reflexivity.
  - intros j Hj. assert (j = 0) as -> by lia.
    exists (mkEntry 1 0 None). split; [reflexivity | discriminate].
  - eexists. split; [exact Hrun | exact Hcell].
Defined.

(** ** Committing a staged change *)

Lemma ready_nothing_staged w :
  info_changed (impl w) = 0 -> mpp_buf_slot_ready w = Abort Assert_info_changed w.
Proof.
  intros H. unfold mpp_buf_slot_ready, bind, get_impl, mpp_assert. rewrite H. reflexivity.
Qed.

(** [ready] on a staged change.  With the staged count the current one the
    table is left alone.  Otherwise the array [mpp_realloc] answers is
    dropped and [init_slot_entry] runs on [impl->slots], the array given
    back: its first write has no defined behaviour, and when it has no
    entry to write the call returns with [impl->slots] still pointing
    there. *)
Lemma ready_staged w t :
  info_changed (impl w) <> 0 -> slots (impl w) = Some t ->
  let p := impl w in
  let committed t' :=
    with_impl w (with_count (with_slots (with_size (with_info_changed p 0) (new_size p))
                               (Some t')) (new_count p)) in
  (new_count p = count p -> mpp_buf_slot_ready w = Done MPP_OK (committed t)) /\
  (new_count p <> count p -> 0 < s32 (new_count p) -> mpp_buf_slot_ready w = Fault) /\
  (new_count p <> count p -> s32 (new_count p) <= 0 ->
   mpp_buf_slot_ready w = Done MPP_OK (committed [])).
Proof.
  intros Hch Ht p committed.
  assert (Htp : slots p = Some t) by exact Ht.
  set (p1 := with_size (with_info_changed p 0) (new_size p)).
  assert (Hopen : new_count p <> count p ->
                  mpp_buf_slot_ready w =
                  match init_slot_entry 0 (new_count p)
                          (with_impl (with_impl w p1) (with_slots p1 (Some []))) with
                  | Done _ w2 => Done MPP_OK (with_impl w2 (with_count (impl w2)
                                                             (new_count (impl w2))))
                  | Abort c w2 => Abort c w2
                  | Fault => Fault
                  end).
  { intros Hne. unfold mpp_buf_slot_ready, bind at 1, get_impl. unfold bind at 1, mpp_assert.
    destruct (Z.eqb_spec (info_changed (impl w)) 0); [contradiction |]. cbn [negb].
    unfold bind at 1. rewrite bool_decide_eq_true_2 by (rewrite Ht; discriminate).
    cbv zeta. unfold bind at 1, put_impl. fold p. fold p1. unfold bind at 1.
    cbn [count new_count with_size with_info_changed p1].
    destruct (Z.eqb_spec (count p) (new_count p)); [congruence |]. cbn [negb].
    unfold bind at 1.
    destruct (mpp_realloc_Done (new_count p) (with_impl w p1) t) as (t' & ->);
      [exact Htp |].
    cbn [impl with_impl].
    destruct (init_slot_entry 0 (new_count p) _); reflexivity. }
  split; [| split].
  - intros Heq. unfold mpp_buf_slot_ready, bind, get_impl, mpp_assert, put_impl.
    destruct (Z.eqb_spec (info_changed (impl w)) 0); [contradiction |]. simpl.
    rewrite bool_decide_eq_true_2 by (rewrite Ht; discriminate).
    fold p. rewrite Heq, Z.eqb_refl. simpl. unfold ret.
    unfold committed. fold p. rewrite Heq.
    destruct w as [q h tr]. destruct q. simpl in *. subst. reflexivity.
  - intros Hne Hn. rewrite (Hopen Hne). unfold init_slot_entry.
    destruct (Z.to_nat (s32 (new_count p))) as [| n] eqn:Hk; [lia |].
    rewrite init_slot_loop_stale by reflexivity. reflexivity.
  - intros Hne Hn. rewrite (Hopen Hne). unfold init_slot_entry.
    replace (Z.to_nat (s32 (new_count p))) with 0%nat by lia.
    reflexivity.
Qed.




(** ** Overwriting an entry *)

Lemma store_set_cell w pos e0 e :
  cell_at (impl w) pos = Some e0 -> store pos e w = Done tt (set_cell w pos e).
Proof.
  intros H. destruct (cell_at_Some _ _ _ H) as (t & Ht & Hpos & Hl).
  unfold set_cell. rewrite Ht. apply store_Done; [assumption |].
  apply lookup_lt_Some in Hl. lia.
Qed.

Lemma cell_at_set_cell w pos e0 e j :
  cell_at (impl w) pos = Some e0 ->
  cell_at (impl (set_cell w pos e)) j =
  if decide (j = pos) then Some e else cell_at (impl w) j.
Proof.
  intros H. destruct (cell_at_Some _ _ _ H) as (t & Ht & Hpos & Hl).
  unfold set_cell. rewrite Ht. simpl.
  rewrite cell_at_insert by (apply lookup_lt_Some in Hl; lia).
  rewrite cell_at_with_slots by assumption. reflexivity.
Qed.

Lemma set_cell_fields w pos e :
  let w' := set_cell w pos e in
  heap w' = heap w /\ trace w' = trace w /\
  count (impl w') = count (impl w) /\ size (impl w') = size (impl w) /\
  decode_count (impl w') = decode_count (impl w) /\
  display_count (impl w') = display_count (impl w) /\
  info_changed (impl w') = info_changed (impl w) /\
  new_count (impl w') = new_count (impl w) /\
  new_size (impl w') = new_size (impl w) /\
  output (impl w') = output (impl w) /\
  display (impl w') = display (impl w).
Proof. unfold set_cell. destruct (slots (impl w)); simpl; repeat split. Qed.

Lemma set_cell_heap w pos e : heap (set_cell w pos e) = heap w.
Proof. apply set_cell_fields. Qed.
Lemma set_cell_trace w pos e : trace (set_cell w pos e) = trace w.
Proof. apply set_cell_fields. Qed.
Lemma set_cell_count w pos e : count (impl (set_cell w pos e)) = count (impl w).
Proof. apply set_cell_fields. Qed.
Lemma set_cell_display w pos e : display (impl (set_cell w pos e)) = display (impl w).
Proof. apply set_cell_fields. Qed.
Lemma set_cell_output w pos e : output (impl (set_cell w pos e)) = output (impl w).
Proof. apply set_cell_fields. Qed.
Lemma set_cell_decode_count w pos e :
  decode_count (impl (set_cell w pos e)) = decode_count (impl w).
Proof. apply set_cell_fields. Qed.
Lemma set_cell_display_count w pos e :
  display_count (impl (set_cell w pos e)) = display_count (impl w).
Proof. apply set_cell_fields. Qed.

Lemma set_cell_twice w pos e1 e2 :
  set_cell (set_cell w pos e1) pos e2 = set_cell w pos e2.
Proof.
  unfold set_cell. destruct (slots (impl w)) as [t |] eqn:Ht; simpl.
  - rewrite list_insert_insert_eq. reflexivity.
  - rewrite Ht. reflexivity.
Qed.

Lemma set_cell_log_call w pos e c :
  set_cell (log_call w c) pos e = log_call (set_cell w pos e) c.
Proof. unfold set_cell. simpl. destruct (slots (impl w)); reflexivity. Qed.


(** Cells only depend on the slot array. *)
Lemma cell_at_same_slots p q j : slots p = slots q -> cell_at p j = cell_at q j.
Proof. unfold cell_at. intros ->. reflexivity. Qed.

(** ** The release check *)

(** [check_entry_unused] by cases on the entry it is pointed at. *)
Lemma check_entry_unused_cases pos w :
  check_entry_unused pos w =
  match cell_at (impl w) pos with
  | None => Fault
  | Some e =>
      if status e =? MPP_SLOT_USED then
        match frame e with
        | None => Abort Assert_entry_frame (set_cell w pos (with_status e MPP_SLOT_UNUSED))
        | Some a =>
            match heap w !! a with
            | None => Fault
            | Some o =>
                Done None (log_call (set_cell w pos
                                       (with_frame (with_status e MPP_SLOT_UNUSED) None))
                                    (Buffer_put (buffer o)))
            end
        end
      else Done (frame e) w
  end.
Proof.
  unfold check_entry_unused, bind at 1. unfold load.
  destruct (cell_at (impl w) pos) as [e |] eqn:He; [| reflexivity].
  destruct (status e =? MPP_SLOT_USED); [| reflexivity].
  unfold bind at 1. rewrite (store_set_cell w pos e) by assumption.
  unfold bind at 1, mpp_assert.
  destruct (frame e) as [a |] eqn:Hf.
  - rewrite bool_decide_eq_true_2 by discriminate.
    unfold bind at 1, mpp_frame_get_buffer. rewrite set_cell_heap.
    destruct (heap w !! a) as [o |]; [| reflexivity].
    unfold bind at 1, mpp_buffer_put. unfold bind.
    assert (Hc : cell_at (impl (log_call (set_cell w pos (with_status e MPP_SLOT_UNUSED))
                                         (Buffer_put (buffer o)))) pos
                 = Some (with_status e MPP_SLOT_UNUSED)).
    { simpl. rewrite (cell_at_set_cell w pos e) by assumption.
      destruct (decide (pos = pos)); [reflexivity | contradiction]. }
    rewrite (store_set_cell _ pos _ _ Hc).
    rewrite set_cell_log_call, set_cell_twice. unfold ret.
    unfold with_frame, with_status. simpl. reflexivity.
  - rewrite bool_decide_eq_false_2 by (intros H; apply H; reflexivity). reflexivity.
Qed.

(** ** The operations on one slot, by cases *)

(** The common opening: fetch the pool, check the index, fetch the slot. *)
Lemma slot_prologue {A} i (k : MppBufSlotsImpl -> MppBufSlotEntry -> M A) w :
  (let* p := get_impl in
   run mpp_assert Assert_index_lt_count (i <? count p) then
   let* e := load i in k p e) w =
  if i <? count (impl w)
  then match cell_at (impl w) i with
       | Some e => k (impl w) e w
       | None => Fault
       end
  else Abort Assert_index_lt_count w.
Proof.
  unfold bind, get_impl, mpp_assert, load.
  destruct (i <? count (impl w)); [| reflexivity].
  destruct (cell_at (impl w) i); reflexivity.
Qed.

Lemma set_ref_cases i w :
  mpp_buf_slot_set_ref i w =
  if i <? count (impl w)
  then match cell_at (impl w) i with
       | Some e =>
           Done MPP_OK (set_cell w i (with_status e (set_flag (status e) MPP_SLOT_USED_AS_REF)))
       | None => Fault
       end
  else Abort Assert_index_lt_count w.
Proof.
  unfold mpp_buf_slot_set_ref. cbv zeta. rewrite slot_prologue.
  destruct (i <? count (impl w)); [| reflexivity].
  destruct (cell_at (impl w) i) as [e |] eqn:He; [| reflexivity].
  unfold bind. rewrite (store_set_cell w i e) by assumption. reflexivity.
Qed.

Lemma clr_ref_cases i w :
  mpp_buf_slot_clr_ref i w =
  if i <? count (impl w)
  then match cell_at (impl w) i with
       | Some e =>
           (run check_entry_unused (i + i) then ret MPP_OK)
             (set_cell w i (with_status e (clr_flag (status e) MPP_SLOT_USED_AS_REF)))
       | None => Fault
       end
  else Abort Assert_index_lt_count w.
Proof.
  unfold mpp_buf_slot_clr_ref. cbv zeta. rewrite slot_prologue.
  destruct (i <? count (impl w)); [| reflexivity].
  destruct (cell_at (impl w) i) as [e |] eqn:He; [| reflexivity].
  unfold bind at 1. rewrite (store_set_cell w i e) by assumption. reflexivity.
Qed.

Lemma clr_decoding_cases i w :
  mpp_buf_slot_clr_decoding i w =
  if i <? count (impl w)
  then match cell_at (impl w) i with
       | Some e =>
           let w1 := set_cell w i (with_status e (clr_flag (status e) MPP_SLOT_USED_AS_DECODING)) in
           (run check_entry_unused (i + i) then ret MPP_OK)
             (with_impl w1 (with_decode_count (impl w1) (u32 (decode_count (impl w1) + 1))))
       | None => Fault
       end
  else Abort Assert_index_lt_count w.
Proof.
  unfold mpp_buf_slot_clr_decoding. cbv zeta. rewrite slot_prologue.
  destruct (i <? count (impl w)); [| reflexivity].
  destruct (cell_at (impl w) i) as [e |] eqn:He; [| reflexivity].
  unfold bind at 1. rewrite (store_set_cell w i e) by assumption. reflexivity.
Qed.

Lemma set_display_cases i w :
  mpp_buf_slot_set_display i w =
  if i <? count (impl w)
  then match cell_at (impl w) i with
       | Some e =>
           if list_init e then
             let w1 := set_cell w i
                         (with_status e (set_flag (status e) MPP_SLOT_USED_AS_DISPLAY)) in
             Done MPP_OK (with_impl w1 (with_display (impl w1)
                                          (list_add_tail i (list_del_init i (display (impl w1))))))
           else Fault
       | None => Fault
       end
  else Abort Assert_index_lt_count w.
Proof.
  unfold mpp_buf_slot_set_display. cbv zeta. rewrite slot_prologue.
  destruct (i <? count (impl w)); [| reflexivity].
  destruct (cell_at (impl w) i) as [e |] eqn:He; [| reflexivity].
  unfold bind at 1. rewrite (store_set_cell w i e) by assumption.
  unfold bind at 1, list_head_valid. destruct (list_init e); reflexivity.
Qed.

Lemma set_buffer_cases i b w :
  mpp_buf_slot_set_buffer i (Some b) w =
  if i <? count (impl w)
  then match cell_at (impl w) i with
       | Some e =>
           match frame e with
           | None => Abort Assert_slot_frame w
           | Some a =>
               match heap w !! a with
               | Some o =>
                   Done MPP_OK (log_call (with_heap w (<[a := with_buffer o (Some b)]> (heap w)))
                                         (Buffer_inc_ref (Some b)))
               | None => Fault
               end
           end
       | None => Fault
       end
  else Abort Assert_index_lt_count w.
Proof.
  unfold mpp_buf_slot_set_buffer. cbv zeta. rewrite slot_prologue.
  destruct (i <? count (impl w)); [| reflexivity].
  destruct (cell_at (impl w) i) as [e |] eqn:He; [| reflexivity].
  unfold bind at 1, mpp_assert.
  destruct (frame e) as [a |].
  - rewrite bool_decide_eq_true_2 by discriminate.
    unfold bind at 1, mpp_frame_set_buffer.
    destruct (heap w !! a); reflexivity.
  - rewrite bool_decide_eq_false_2 by (intros H; apply H; reflexivity). reflexivity.
Qed.

Lemma set_decoding_cases i src w :
  mpp_buf_slot_set_decoding i (Some src) w =
  if i <? count (impl w)
  then match cell_at (impl w) i with
       | Some e =>
           let st := set_flag (status e) MPP_SLOT_USED_AS_DECODING in
           match frame e with
           | Some a =>
               if decide (a < length (heap w))%nat then
                 let w1 := set_cell w i (with_frame (with_status e st) (Some a)) in
                 Done MPP_OK (mkWorld (with_output (impl w1) (s32 i))
                                      (<[a := src]> (heap w)) (trace w))
               else Fault
           | None =>
               let w1 := set_cell w i (with_frame (with_status e st) (Some (length (heap w)))) in
               Done MPP_OK (mkWorld (with_output (impl w1) (s32 i))
                                    (heap w ++ [src]) (trace w))
           end
       | None => Fault
       end
  else Abort Assert_index_lt_count w.
Proof.
  unfold mpp_buf_slot_set_decoding. cbv zeta. rewrite slot_prologue.
  destruct (i <? count (impl w)); [| reflexivity].
  destruct (cell_at (impl w) i) as [e |] eqn:He; [| reflexivity].
  unfold bind at 1. rewrite (store_set_cell w i e) by assumption.
  destruct e as [li st ix [a |]]; simpl.
  - unfold bind, ret, memcpy_frame, get_impl, put_impl. rewrite set_cell_heap.
    destruct (decide (a < length (heap w))%nat); [| reflexivity].
    unfold with_impl, with_heap, with_status. cbn [impl heap trace status index frame].
    rewrite set_cell_trace. reflexivity.
  - unfold bind at 1. unfold bind at 1. unfold mpp_frame_init.
    rewrite set_cell_heap.
    assert (Hc : cell_at (impl (with_heap
                     (set_cell w i (with_status (mkSlotEntry li st ix None)
                                      (set_flag st MPP_SLOT_USED_AS_DECODING)))
                     (heap w ++ [mkFrame None 0]))) i
                 = Some (with_status (mkSlotEntry li st ix None)
                           (set_flag st MPP_SLOT_USED_AS_DECODING))).
    { simpl. rewrite (cell_at_set_cell w i _ _ _ He).
      destruct (decide (i = i)); [reflexivity | contradiction]. }
    unfold bind at 1. rewrite (store_set_cell _ i _ _ Hc).
    unfold ret at 1. unfold bind, memcpy_frame, get_impl, put_impl, ret.
    cbn [heap with_heap].
    assert (Hs : set_cell (with_heap (set_cell w i (with_status (mkSlotEntry li st ix None)
                                                      (set_flag st MPP_SLOT_USED_AS_DECODING)))
                                     (heap w ++ [mkFrame None 0])) i
                          (with_frame (with_status (mkSlotEntry li st ix None)
                                         (set_flag st MPP_SLOT_USED_AS_DECODING))
                                      (Some (length (heap w))))
                 = with_heap (set_cell w i (mkSlotEntry li
                                              (set_flag st MPP_SLOT_USED_AS_DECODING) ix
                                              (Some (length (heap w)))))
                             (heap w ++ [mkFrame None 0])).
    { unfold set_cell at 1. cbn [impl with_heap].
      unfold set_cell. destruct (slots (impl w)) as [t |] eqn:Ht; simpl.
      - rewrite list_insert_insert_eq. reflexivity.
      - rewrite Ht. reflexivity. }
    rewrite Hs. cbn [heap with_heap].
    destruct (decide (length (heap w) < length (heap w ++ [mkFrame None 0]))%nat) as [_ | Hn];
      [| rewrite length_app in Hn; simpl in Hn; lia].
    unfold with_impl, with_heap. cbn [impl heap trace].
    rewrite set_cell_trace.
    replace (<[length (heap w) := src]> (heap w ++ [mkFrame None 0])) with (heap w ++ [src]);
      [reflexivity |].
    rewrite insert_app_r_alt by lia. rewrite Nat.sub_diag. reflexivity.
Qed.

Lemma get_display_cases w :
  mpp_buf_slot_get_display w =
  match display (impl w) with
  | [] => Done (MPP_NOK, None) w
  | h :: _ =>
      match cell_at (impl w) h with
      | None => Fault
      | Some e =>
          if u32 (index e) <? count (impl w) then
            let w1 := set_cell w h (with_status e (clr_flag (status e) MPP_SLOT_USED_AS_DISPLAY)) in
            let w2 := with_impl w1 (with_display (impl w1) (list_del_init h (display (impl w1)))) in
            match check_entry_unused h w2 with
            | Done _ w3 =>
                Done (MPP_OK, Some (frame e))
                     (with_impl w3 (with_display_count (impl w3)
                                      (u32 (display_count (impl w3) + 1))))
            | Abort c w3 => Abort c w3
            | Fault => Fault
            end
          else Abort Assert_index_lt_count w
      end
  end.
Proof.
  unfold mpp_buf_slot_get_display, bind at 1, get_impl.
  destruct (display (impl w)) as [| h d]; [reflexivity |].
  unfold bind at 1, load.
  destruct (cell_at (impl w) h) as [e |] eqn:He; [| reflexivity].
  unfold bind at 1, mpp_assert.
  destruct (u32 (index e) <? count (impl w)); [| reflexivity].
  unfold bind at 1. rewrite (store_set_cell w h e) by assumption.
  unfold bind at 1, get_impl. unfold bind at 1, put_impl.
  cbv zeta. unfold bind at 1.
  destruct (check_entry_unused h _) as [f w3 | c w3 |]; reflexivity.
Qed.

(** ** What one operation does to the slots *)

Lemma clr_flag_used c :
  c = MPP_SLOT_USED_AS_REF \/ c = MPP_SLOT_USED_AS_DECODING \/ c = MPP_SLOT_USED_AS_DISPLAY ->
  clr_flag MPP_SLOT_USED c = MPP_SLOT_USED.
Proof. intros [-> | [-> | ->]]; reflexivity. Qed.

Lemma cleared_claim_flag o :
  cleared_claim o <> 0 ->
  cleared_claim o = MPP_SLOT_USED_AS_REF \/ cleared_claim o = MPP_SLOT_USED_AS_DECODING \/
  cleared_claim o = MPP_SLOT_USED_AS_DISPLAY.
Proof. destruct o; simpl; intros H; auto; contradiction. Qed.

Lemma cells_step_same o w w' :
  slots (impl w') = slots (impl w) -> cells_step o w w'.
Proof.
  intros Hs j. rewrite (cell_at_same_slots (impl w') (impl w)) by assumption.
  destruct (cell_at (impl w) j) as [e |]; [| reflexivity].
  exists e. split; [reflexivity | apply step_same; reflexivity].
Qed.

(** One entry is overwritten, the others stay. *)
Lemma cells_step_set_cell o w w' i e e1 :
  cell_at (impl w) i = Some e ->
  slots (impl w') = slots (impl (set_cell w i e1)) ->
  slot_step o w w' i e e1 ->
  cells_step o w w'.
Proof.
  intros He Hs Hstep j.
  rewrite (cell_at_same_slots (impl w') _ j Hs), (cell_at_set_cell w i e) by assumption.
  destruct (decide (j = i)) as [-> | Hne].
  - rewrite He. exists e1. split; [reflexivity | assumption].
  - destruct (cell_at (impl w) j) as [e0 |]; [| reflexivity].
    exists e0. split; [reflexivity | apply step_same; reflexivity].
Qed.

(** A claim is cleared on slot [i], then the release check runs on the
    entry at [pos]. *)
Lemma clear_check_effect o w i e w1 pos f w' :
  cleared_claim o <> 0 ->
  cell_at (impl w) i = Some e ->
  slots (impl w1) =
    slots (impl (set_cell w i (with_status e (clr_flag (status e) (cleared_claim o))))) ->
  heap w1 = heap w -> trace w1 = trace w ->
  check_entry_unused pos w1 = Done f w' ->
  cells_step o w w' /\ heap w' = heap w /\
  count (impl w') = count (impl w1) /\ display (impl w') = display (impl w1) /\
  output (impl w') = output (impl w1).
Proof.
  intros Hc He Hs Hheap Htrace Hrun.
  set (ec := with_status e (clr_flag (status e) (cleared_claim o))) in *.
  assert (Hcell1 : forall j, cell_at (impl w1) j =
                             if decide (j = i) then Some ec else cell_at (impl w) j).
  { intros j. rewrite (cell_at_same_slots _ _ j Hs). apply (cell_at_set_cell w i e). assumption. }
  rewrite check_entry_unused_cases in Hrun.
  destruct (cell_at (impl w1) pos) as [e1 |] eqn:He1; [| discriminate].
  destruct (Z.eqb_spec (status e1) MPP_SLOT_USED) as [Hused | Hnot].
  - destruct (frame e1) as [a |] eqn:Hf1; [| discriminate].
    destruct (heap w1 !! a) as [ob |] eqn:Hob; [| discriminate].
    injection Hrun as <- <-. simpl.
    rewrite set_cell_heap, set_cell_count, set_cell_display, set_cell_output.
    split; [| repeat split; assumption].
    intros j. simpl. rewrite (cell_at_set_cell w1 pos e1) by assumption.
    rewrite Hcell1.
    destruct (decide (j = pos)) as [-> | Hjp].
    + rewrite Hcell1 in He1.
      destruct (decide (pos = i)) as [-> | Hpi].
      * injection He1 as <-. rewrite He.
        eexists. split; [reflexivity |].
        apply step_release; try assumption.
        -- simpl in Hf1. congruence.
        -- reflexivity.
        -- cbn [trace log_call]. rewrite set_cell_trace, Htrace. do 2 f_equal.
           unfold bound_buffer. simpl in Hf1. rewrite Hf1, <- Hheap, Hob. reflexivity.
      * rewrite He1. eexists. split; [reflexivity |].
        apply step_release; try assumption.
        -- rewrite Hused. apply clr_flag_used, cleared_claim_flag. assumption.
        -- congruence.
        -- reflexivity.
        -- cbn [trace log_call]. rewrite set_cell_trace, Htrace. do 2 f_equal.
           unfold bound_buffer. rewrite Hf1, <- Hheap, Hob. reflexivity.
    + destruct (decide (j = i)) as [-> | Hji].
      * rewrite He. exists ec. split; [reflexivity |]. apply step_clear; auto.
      * destruct (cell_at (impl w) j) as [e0 |]; [| reflexivity].
        exists e0. split; [reflexivity | apply step_same; reflexivity].
  - injection Hrun as <- <-.
    split; [| repeat split; assumption].
    intros j. rewrite Hcell1.
    destruct (decide (j = i)) as [-> | Hji].
    + rewrite He. exists ec. split; [reflexivity |]. apply step_clear; auto.
    + destruct (cell_at (impl w) j) as [e0 |]; [| reflexivity].
      exists e0. split; [reflexivity | apply step_same; reflexivity].
Qed.

Lemma get_unused_loop_inv n : forall i w r w',
  get_unused_loop n i w = Done r w' ->
  (r = None /\ w' = w) \/
  exists k e, r = Some k /\ cell_at (impl w) k = Some e /\ status e = MPP_SLOT_UNUSED /\
              w' = set_cell w k (with_status e MPP_SLOT_USED).
Proof.
  induction n as [| n IH]; intros i w r w' Hrun.
  - injection Hrun as <- <-. left. split; reflexivity.
  - cbn [get_unused_loop] in Hrun. unfold bind at 1, load in Hrun.
    destruct (cell_at (impl w) i) as [e |] eqn:He; [| discriminate].
    destruct (Z.eqb_spec MPP_SLOT_UNUSED (status e)) as [Hfree | Hbusy].
    + unfold bind in Hrun. rewrite (store_set_cell w i e) in Hrun by assumption.
      injection Hrun as <- <-. right. exists i, e.
      rewrite <- Hfree. repeat split; auto.
    + apply IH in Hrun. exact Hrun.
Qed.

Lemma bind_ret_inv {A B} (m : M A) (g : A -> B) w x w' :
  (let* r := m in ret (g r)) w = Done x w' ->
  exists r0, m w = Done r0 w' /\ x = g r0.
Proof.
  unfold bind, ret. destruct (m w) as [a w1 | |]; [| discriminate | discriminate].
  intros [= <- <-]. exists a. split; reflexivity.
Qed.

Lemma bind_Done_inv {A B} (m : M A) (k : A -> M B) w x w' :
  bind m k w = Done x w' ->
  exists a w1, m w = Done a w1 /\ k a w1 = Done x w'.
Proof.
  unfold bind. destruct (m w) as [a w1 | |]; [| discriminate | discriminate].
  intros H. exists a, w1. split; [reflexivity | assumption].
Qed.

(** The effect of a per-frame operation that returns: on each slot, on the
    count, on the display queue and on the last decoding index. *)
Lemma per_frame_effect o w r w' :
  per_frame o = true -> run_op o w = Done r w' ->
  cells_step o w w' /\
  count (impl w') = count (impl w) /\
  display (impl w') =
    match o with
    | SetDisplay i => list_add_tail i (list_del_init i (display (impl w)))
    | GetDisplay => match display (impl w) with
                    | [] => []
                    | h :: _ => list_del_init h (display (impl w))
                    end
    | _ => display (impl w)
    end /\
  output (impl w') = match o with
                     | SetDecoding i _ => s32 i
                     | _ => output (impl w)
                     end.
Proof.
  intros Hpf Hrun. destruct o as [c s ch | | | i | i | i src | i | i b | i |];
    try discriminate Hpf; cbn [run_op] in Hrun;
    apply bind_ret_inv in Hrun as (r0 & Hrun & ->).
  - (* get_unused *)
    unfold mpp_buf_slot_get_unused in Hrun.
    apply bind_Done_inv in Hrun as (p & w1 & Hp & Hrun). injection Hp as <- <-.
    apply bind_Done_inv in Hrun as (res & w1 & Hloop & Hrun).
    apply get_unused_loop_inv in Hloop as [[-> ->] | (k & e & -> & He & Hst & ->)].
    + discriminate Hrun.
    + injection Hrun as <- <-.
      rewrite set_cell_count, set_cell_display, set_cell_output.
      split; [| repeat split].
      eapply cells_step_set_cell; [exact He | reflexivity |].
      apply step_acquire; auto.
  - (* set_ref *)
    rewrite set_ref_cases in Hrun.
    open_slot Hrun w i e He.
    injection Hrun as <- <-.
    rewrite set_cell_count, set_cell_display, set_cell_output.
    split; [| repeat split].
    eapply cells_step_set_cell; [exact He | reflexivity |].
    apply step_ref; auto.
  - (* clr_ref *)
    rewrite clr_ref_cases in Hrun.
    open_slot Hrun w i e He.
    apply bind_ret_inv in Hrun as (f & Hrun & ->).
    eapply (clear_check_effect (ClrRef i)) in Hrun as (Hcells & _ & Hc & Hd & Ho);
      [| discriminate | exact He | reflexivity | apply set_cell_heap | apply set_cell_trace].
    rewrite Hc, Hd, Ho, set_cell_count, set_cell_display, set_cell_output.
    repeat split; assumption.
  - (* set_decoding *)
    rewrite set_decoding_cases in Hrun.
    open_slot Hrun w i e He.
    cbv zeta in Hrun.
    destruct (frame e) as [a |] eqn:Hf.
    + destruct (decide (a < length (heap w))%nat); [| discriminate].
      injection Hrun as <- <-. cbn [impl count display output with_output].
      rewrite set_cell_count, set_cell_display.
      split; [| repeat split].
      eapply cells_step_set_cell; [exact He | reflexivity |].
      eapply step_decoding; [reflexivity | right; exact Hf | reflexivity].
    + injection Hrun as <- <-. cbn [impl count display output with_output].
      rewrite set_cell_count, set_cell_display.
      split; [| repeat split].
      eapply cells_step_set_cell; [exact He | reflexivity |].
      eapply step_decoding; [reflexivity | left; exact Hf | reflexivity].
  - (* clr_decoding *)
    rewrite clr_decoding_cases in Hrun.
    open_slot Hrun w i e He.
    cbv zeta in Hrun.
    apply bind_ret_inv in Hrun as (f & Hrun & ->).
    eapply (clear_check_effect (ClrDecoding i)) in Hrun as (Hcells & _ & Hc & Hd & Ho);
      [| discriminate | exact He | reflexivity | apply set_cell_heap | apply set_cell_trace].
    rewrite Hc, Hd, Ho. cbn [impl count display output with_impl with_decode_count].
    rewrite set_cell_count, set_cell_display, set_cell_output.
    repeat split; assumption.
  - (* set_buffer *)
    rewrite set_buffer_cases in Hrun.
    open_slot Hrun w i e He.
    destruct (frame e) as [a |]; [| discriminate].
    destruct (heap w !! a) as [ob |]; [| discriminate].
    injection Hrun as <- <-.
    split; [| repeat split].
    apply cells_step_same. reflexivity.
  - (* set_display *)
    rewrite set_display_cases in Hrun.
    open_slot Hrun w i e He.
    destruct (list_init e); [| discriminate].
    injection Hrun as <- <-. cbn [impl count display output with_impl with_display].
    rewrite set_cell_count, set_cell_display, set_cell_output.
    split; [| repeat split].
    eapply cells_step_set_cell; [exact He | reflexivity |].
    apply step_display; auto.
  - (* get_display *)
    rewrite get_display_cases in Hrun.
    destruct (display (impl w)) as [| h d] eqn:Hd.
    + injection Hrun as <- <-. rewrite Hd.
      split; [| repeat split].
      apply cells_step_same. reflexivity.
    + destruct (cell_at (impl w) h) as [e |] eqn:He; [| discriminate].
      destruct (u32 (index e) <? count (impl w)); [| discriminate].
      cbv zeta in Hrun.
      destruct (check_entry_unused h _) as [f w3 | |] eqn:Hchk; [| discriminate | discriminate].
      injection Hrun as <- <-.
      eapply (clear_check_effect GetDisplay) in Hchk as (Hcells & _ & Hc & Hq & Ho);
        [| discriminate | exact He | reflexivity | apply set_cell_heap | apply set_cell_trace].
      cbn [impl count display output with_impl with_display_count].
      rewrite Hc, Hq, Ho. cbn [impl count display output with_impl with_display].
      rewrite set_cell_count, set_cell_display, set_cell_output, Hd.
      split; [| repeat split].
      intros j. specialize (Hcells j).
      destruct (cell_at (impl w) j) as [e0 |]; [| exact Hcells].
      destruct Hcells as (e' & He' & Hstep). exists e'. split; [exact He' |].
      destruct Hstep as [H1 | H1 H2 H3 | H1 H2 | H1 H2 | f0 a0 H1 H2 H3 | H1 H2 | H1 H2 H3 H4 H5];
        try discriminate H1.
      * apply step_same; assumption.
      * apply step_clear; assumption.
      * apply step_release; assumption.
Qed.

(** ** Invariants of the reachable states *)

Lemma init_slot_loop_inv n : forall pos i w w',
  init_slot_loop n pos i w = Done tt w' ->
  display (impl w') = display (impl w) /\
  forall j e', cell_at (impl w') j = Some e' ->
               cell_at (impl w) j = Some e' \/
               (status e' = MPP_SLOT_UNUSED /\ frame e' = None).
Proof.
  induction n as [| n IH]; intros pos i w w' Hrun.
  - injection Hrun as <-. split; [reflexivity | auto].
  - cbn [init_slot_loop] in Hrun.
    apply bind_Done_inv in Hrun as ([] & w1 & Hst & Hrun).
    apply store_inv in Hst as (t & Ht & Hpos & ->).
    apply IH in Hrun as (Hd & Hcells). split; [exact Hd |].
    intros j e' He'. apply Hcells in He' as [He' | He']; [| right; exact He'].
    simpl in He'. rewrite cell_at_insert in He' by assumption.
    destruct (decide (j = pos + i)).
    + injection He' as <-. right. split; reflexivity.
    + left. rewrite cell_at_with_slots in He' by assumption. exact He'.
Qed.

(** A freshly set-up pool: nothing is queued and every entry is Free with
    no frame attached. *)
Lemma fresh_pool w0 w1 c s ch w :
  mpp_buf_slot_init w0 = Done MPP_OK w1 ->
  mpp_buf_slot_setup c s ch w1 = Done MPP_OK w ->
  display (impl w) = [] /\
  forall j e, cell_at (impl w) j = Some e -> status e = MPP_SLOT_UNUSED /\ frame e = None.
Proof.
  intros Hinit Hset. rewrite init_world_eq in Hinit. injection Hinit as <-.
  unfold mpp_buf_slot_setup in Hset.
  apply bind_Done_inv in Hset as (p & w2 & Hp & Hset). injection Hp as <- <-.
  apply bind_ret_inv in Hset as ([] & Hset & _).
  cbn [impl with_impl slots zero_impl] in Hset.
  apply bind_Done_inv in Hset as ([] & w2 & Hput & Hset). injection Hput as <-.
  apply init_slot_loop_inv in Hset as (Hd & Hcells).
  split; [rewrite Hd; reflexivity |].
  intros j e He. apply Hcells in He as [He | He]; [| exact He].
  unfold cell_at in He. cbn [impl with_impl slots with_slots] in He.
  destruct (0 <=? j); [| discriminate].
  unfold mpp_calloc in He.
  destruct (replicate (Z.to_nat c) (Some (mkSlotEntry false 0 0 None)) !! Z.to_nat j)
    as [x |] eqn:Hx;
    [| discriminate].
  apply lookup_replicate in Hx as [-> _]. injection He as <-. split; reflexivity.
Qed.

Lemma NoDup_list_del_init i (d : list Z) : NoDup d -> NoDup (list_del_init i d).
Proof. intros H. unfold list_del_init. apply NoDup_filter. assumption. Qed.

Lemma NoDup_mark i (d : list Z) :
  NoDup d -> NoDup (list_add_tail i (list_del_init i d)).
Proof.
  intros H. unfold list_add_tail. apply NoDup_app. split; [| split].
  - apply NoDup_list_del_init. assumption.
  - intros x Hx Hx'. apply list_elem_of_singleton in Hx'. subst x.
    unfold list_del_init in Hx. apply list_elem_of_filter in Hx as [Hne _]. contradiction.
  - apply NoDup_singleton.
Qed.

Lemma list_del_init_head h (t : list Z) :
  NoDup (h :: t) -> list_del_init h (h :: t) = t.
Proof.
  intros H. apply NoDup_cons in H as [Hnin _].
  unfold list_del_init. rewrite filter_cons.
  destruct (decide (h <> h)) as [Hne | _]; [contradiction |].
  induction t as [| x t IH]; [reflexivity |].
  rewrite filter_cons. destruct (decide (x <> h)) as [_ | Heq].
  - f_equal. apply IH. intros Hin. apply Hnin. right. assumption.
  - exfalso. apply Hnin. assert (x = h) as -> by (destruct (decide (x = h)); tauto). left.
Qed.

Section AnyDiscipline.

(** Whatever the calls are restricted to. *)
Variable ok : World -> op -> bool.

(** The display queue never holds a position twice. *)
Lemma reachable_NoDup w : reachable_by ok w -> NoDup (display (impl w)).
Proof.
  induction 1 as [w0 w1 c s ch w Hinit Hset | w o r w' Hreach IH Hpf Hok Hrun].
  - destruct (fresh_pool _ _ _ _ _ _ Hinit Hset) as [-> _]. apply NoDup_nil_2.
  - destruct (per_frame_effect _ _ _ _ Hpf Hrun) as (_ & _ & Hd & _). rewrite Hd.
    destruct o; try assumption.
    + apply NoDup_mark. assumption.
    + destruct (display (impl w)) as [| h t]; [apply NoDup_nil_2 |].
      apply NoDup_list_del_init. assumption.
Qed.

End AnyDiscipline.


Lemma entry_ok_step o w w' j e e' :
  slot_step o w w' j e e' -> claims_on_acquired w o = true ->
  cell_at (impl w) j = Some e -> entry_ok e -> entry_ok e'.
Proof.
  intros Hstep Hdisc He Hok.
  destruct Hstep as [-> | _ _ -> | -> -> | -> -> | f a -> _ -> | Hc -> | _ _ _ -> _].
  - assumption.
  - right. reflexivity.
  - right. cbn [claims_on_acquired] in Hdisc. unfold acquired in Hdisc. rewrite He in Hdisc.
    cbn [status with_status with_frame]. rewrite testbit_set_flag, Hdisc. reflexivity.
  - right. cbn [claims_on_acquired] in Hdisc. unfold acquired in Hdisc. rewrite He in Hdisc.
    cbn [status with_status with_frame]. rewrite testbit_set_flag, Hdisc. reflexivity.
  - right. cbn [claims_on_acquired] in Hdisc. unfold acquired in Hdisc. rewrite He in Hdisc.
    cbn [status with_status with_frame]. rewrite testbit_set_flag, Hdisc. reflexivity.
  - destruct Hok as [[Hst Hf] | Hbit].
    + left. cbn [status frame with_status with_frame]. rewrite Hst.
      split; [reflexivity | assumption].
    + right. cbn [status with_status with_frame].
      destruct (cleared_claim_flag o Hc) as [-> | [-> | ->]].
      * rewrite (testbit_clr_flag _ 1) by lia. rewrite Hbit. reflexivity.
      * rewrite (testbit_clr_flag _ 2) by lia. rewrite Hbit. reflexivity.
      * rewrite (testbit_clr_flag _ 3) by lia. rewrite Hbit. reflexivity.
  - left. split; reflexivity.
Qed.

Lemma reachable_slots_ok w : reachable_disciplined w -> slots_ok w.
Proof.
  induction 1 as [w0 w1 c s ch w Hinit Hset | w o r w' Hreach IH Hpf Hok Hrun].
  - destruct (fresh_pool _ _ _ _ _ _ Hinit Hset) as [_ Hcells].
    intros j e He. left. apply Hcells in He. exact He.
  - destruct (per_frame_effect _ _ _ _ Hpf Hrun) as (Hcells & _).
    intros j e' He'. specialize (Hcells j).
    destruct (cell_at (impl w) j) as [e |] eqn:He; [| congruence].
    destruct Hcells as (e'' & He'' & Hstep). rewrite He' in He''. injection He'' as <-.
    eapply entry_ok_step; eauto.
Qed.

(** ** Queued slots are slots of the pool *)

Lemma init_slot_loop_cells n : forall pos i w w',
  init_slot_loop n pos i w = Done tt w' ->
  count (impl w') = count (impl w) /\
  forall j e', cell_at (impl w') j = Some e' ->
               (exists t, slots (impl w) = Some t /\ 0 <= j < Z.of_nat (length t)) /\
               (cell_at (impl w) j = Some e' \/
                (e' = fresh_entry j /\ pos + i <= j < pos + i + Z.of_nat n)).
Proof.
  induction n as [| n IH]; intros pos i w w' Hrun.
  - injection Hrun as <-. split; [reflexivity |]. intros j e' He'. split; [| left; exact He'].
    destruct (cell_at_Some _ _ _ He') as (t & Ht & Hj & Hl).
    exists t. split; [exact Ht |]. apply lookup_lt_Some in Hl. lia.
  - cbn [init_slot_loop] in Hrun.
    apply bind_Done_inv in Hrun as ([] & w1 & Hst & Hrun).
    apply store_inv in Hst as (t & Ht & Hpos & ->).
    apply IH in Hrun as (Hc & Hcells). split; [rewrite Hc; reflexivity |].
    intros j e' He'. apply Hcells in He' as ((t1 & Ht1 & Hj) & Hor).
    cbn [impl with_impl slots with_slots] in Ht1. injection Ht1 as <-.
    rewrite length_insert in Hj. split; [exists t; split; [exact Ht | exact Hj] |].
    destruct Hor as [He' | [-> Hr]]; [| right; split; [reflexivity | lia]].
    cbn [impl with_impl] in He'. rewrite cell_at_insert in He' by assumption.
    destruct (decide (j = pos + i)) as [-> | Hne].
    + injection He' as <-. right. split; [reflexivity | lia].
    + left. rewrite cell_at_with_slots in He' by assumption. exact He'.
Qed.

Lemma fresh_pool_index_ok w0 w1 c s ch w :
  mpp_buf_slot_init w0 = Done MPP_OK w1 ->
  mpp_buf_slot_setup c s ch w1 = Done MPP_OK w ->
  index_ok w.
Proof.
  intros Hinit Hset. rewrite init_world_eq in Hinit. injection Hinit as <-.
  unfold mpp_buf_slot_setup in Hset.
  apply bind_Done_inv in Hset as (p & w2 & Hp & Hset). injection Hp as <- <-.
  apply bind_ret_inv in Hset as ([] & Hset & _).
  cbn [impl with_impl slots zero_impl] in Hset.
  apply bind_Done_inv in Hset as ([] & w2 & Hput & Hset). injection Hput as <-.
  apply init_slot_loop_cells in Hset as (Hc & Hcells).
  intros j e He. rewrite Hc. cbn [impl with_impl count with_slots with_size with_count].
  apply Hcells in He as ((t & Ht & Hj) & Hor).
  cbn [impl with_impl slots with_slots] in Ht. injection Ht as <-.
  rewrite length_mpp_calloc in Hj.
  destruct Hor as [He | [-> Hr]].
  - unfold cell_at in He. cbn [impl with_impl slots with_slots] in He.
    destruct (0 <=? j); [| discriminate].
    unfold mpp_calloc in He.
    destruct (replicate (Z.to_nat c) (Some (mkSlotEntry false 0 0 None)) !! Z.to_nat j)
    as [x |] eqn:Hx;
      [| discriminate].
    apply lookup_replicate in Hx as [-> _]. injection He as <-.
    cbn [index]. change (u32 0) with 0. lia.
  - cbn [fresh_entry index]. rewrite (s32_small 0) in Hr by lia.
    assert (s32 c < 2 ^ 31).
    { unfold s32. pose proof (Z.mod_pos_bound (c + 2 ^ 31) (2 ^ 32)). lia. }
    rewrite u32_s32 by lia. lia.
Qed.

Lemma slot_step_index o w w' j e e' : slot_step o w w' j e e' -> index e' = index e.
Proof.
  intros [-> | _ _ -> | _ -> | _ -> | f a _ _ -> | _ -> | _ _ _ -> _]; reflexivity.
Qed.

Lemma reachable_index_queue_ok ok w :
  reachable_by ok w -> index_ok w /\ queue_ok w.
Proof.
  induction 1 as [w0 w1 c s ch w Hinit Hset | w o r w' Hreach [IHi IHq] Hpf Hok Hrun].
  - split; [eapply fresh_pool_index_ok; eauto |].
    destruct (fresh_pool _ _ _ _ _ _ Hinit Hset) as [Hd _].
    intros h Hh. rewrite Hd in Hh. inversion Hh.
  - destruct (per_frame_effect _ _ _ _ Hpf Hrun) as (Hcells & Hc & Hd & _).
    assert (Hsome : forall j, is_Some (cell_at (impl w) j) -> is_Some (cell_at (impl w') j)).
    { intros j [e He]. specialize (Hcells j). rewrite He in Hcells.
      destruct Hcells as (e' & -> & _). eexists. reflexivity. }
    split.
    + intros j e' He'. specialize (Hcells j).
      destruct (cell_at (impl w) j) as [e |] eqn:He; [| congruence].
      destruct Hcells as (e'' & He'' & Hstep). rewrite He' in He''. injection He'' as <-.
      rewrite (slot_step_index _ _ _ _ _ _ Hstep), Hc. eapply IHi. exact He.
    + intros h Hh. rewrite Hd in Hh.
      assert (Hin : forall x, x ∈ list_del_init x (display (impl w)) -> False).
      { intros x Hx. unfold list_del_init in Hx. apply list_elem_of_filter in Hx as [Hne _].
        contradiction. }
      assert (Hsub : forall x y, y ∈ list_del_init x (display (impl w)) ->
                                 y ∈ display (impl w)).
      { intros x y Hy. unfold list_del_init in Hy. apply list_elem_of_filter in Hy as [_ Hy].
        exact Hy. }
      destruct o; try (apply Hsome, IHq; exact Hh).
      * unfold list_add_tail in Hh. apply elem_of_app in Hh as [Hh | Hh].
        -- apply Hsome, IHq. eapply Hsub. exact Hh.
        -- apply list_elem_of_singleton in Hh. subst h.
           cbn [run_op] in Hrun. apply bind_ret_inv in Hrun as (r0 & Hrun & _).
           rewrite set_display_cases in Hrun.
           open_slot Hrun w i e He. apply Hsome. rewrite He. eexists. reflexivity.
      * destruct (display (impl w)) as [| h0 t] eqn:Hq; [inversion Hh |].
        apply Hsome, IHq. rewrite Hq. eapply Hsub. exact Hh.
Qed.

Lemma slot_step_list_init o w w' j e e' :
  slot_step o w w' j e e' -> list_init e' = list_init e.
Proof.
  intros [-> | _ _ -> | _ -> | _ -> | f a _ _ -> | _ -> | _ _ _ -> _]; reflexivity.
Qed.

(** In a pool whose count fits [RK_S32], [init_slot_entry] reached every
    entry: the list member of every entry is a list head. *)
Lemma reachable_list_init ok w :
  reachable_by ok w -> count (impl w) < 2 ^ 31 ->
  forall j e, cell_at (impl w) j = Some e -> list_init e = true.
Proof.
  induction 1 as [w0 w1 c s ch w Hinit Hset | w o r w' Hreach IH Hpf Hok Hrun].
  - rewrite init_world_eq in Hinit. injection Hinit as <-.
    intros Hc j e He.
    destruct (Z_lt_dec c 0) as [Hneg | Hpos].
    + exfalso.
      unfold mpp_buf_slot_setup in Hset.
      apply bind_Done_inv in Hset as (p & w2 & Hp & Hset). injection Hp as <- <-.
      apply bind_ret_inv in Hset as ([] & Hset & _).
      cbn [impl with_impl slots zero_impl] in Hset.
      apply bind_Done_inv in Hset as ([] & w2 & Hput & Hset). injection Hput as <-.
      apply init_slot_loop_cells in Hset as (_ & Hcells).
      apply Hcells in He as ((t & Ht & Hj) & _).
      cbn [impl with_impl slots with_slots] in Ht. injection Ht as <-.
      rewrite length_mpp_calloc in Hj. lia.
    + destruct (first_setup (with_impl w0 zero_impl) c s ch) as (t & Hrun & Hlen & Hcells);
        [reflexivity | lia |].
      rewrite Hrun in Hset. injection Hset as <-.
      cbn [impl with_impl count with_slots with_size with_count] in Hc.
      destruct (cell_at_Some _ _ _ He) as (t' & Ht' & Hj & Hl).
      cbn [impl with_impl slots with_slots] in Ht'. injection Ht' as <-.
      destruct (Hcells (Z.to_nat j)) as (e0 & Hl0 & _ & _ & _ & _ & Hli).
      { apply lookup_lt_Some in Hl. exact Hl. }
      rewrite Hl in Hl0. injection Hl0 as <-. apply Hli. exact Hc.
  - destruct (per_frame_effect _ _ _ _ Hpf Hrun) as (Hcells & Hc & _).
    intros Hc31 j e' He'. rewrite Hc in Hc31. specialize (Hcells j).
    destruct (cell_at (impl w) j) as [e |] eqn:He; [| congruence].
    destruct Hcells as (e'' & He'' & Hstep). rewrite He' in He''. injection He'' as <-.
    rewrite (slot_step_list_init _ _ _ _ _ _ Hstep). eapply IH; eauto.
Qed.

(** In every reachable state each of the [count] slots is a written entry. *)
Lemma reachable_table_ok ok w : reachable_by ok w -> table_ok (impl w).
Proof.
  induction 1 as [w0 w1 c s ch w Hinit Hset | w o r w' Hreach IH Hpf Hok Hrun].
  - rewrite init_world_eq in Hinit. injection Hinit as <-.
    intros i Hi.
    destruct (Z_lt_dec c 0) as [Hneg | Hpos].
    + exfalso.
      unfold mpp_buf_slot_setup in Hset.
      apply bind_Done_inv in Hset as (p & w2 & Hp & Hset). injection Hp as <- <-.
      apply bind_ret_inv in Hset as ([] & Hset & _).
      cbn [impl with_impl slots zero_impl] in Hset.
      apply bind_Done_inv in Hset as ([] & w2 & Hput & Hset). injection Hput as <-.
      apply init_slot_loop_cells in Hset as (Hc & _).
      rewrite Hc in Hi. cbn [impl with_impl count with_slots with_size with_count] in Hi. lia.
    + destruct (first_setup (with_impl w0 zero_impl) c s ch) as (t & Hrun & Hlen & Hcells);
        [reflexivity | lia |].
      rewrite Hrun in Hset. injection Hset as <-.
      cbn [impl with_impl count with_slots with_size with_count] in Hi.
      destruct (Hcells (Z.to_nat i)) as (e & Hl & _); [lia |].
      exists e. eapply cell_at_lookup; [reflexivity | lia | exact Hl].
  - destruct (per_frame_effect _ _ _ _ Hpf Hrun) as (Hcells & Hc & _).
    intros i Hi. rewrite Hc in Hi. destruct (IH i Hi) as [e He].
    specialize (Hcells i). rewrite He in Hcells.
    destruct Hcells as (e' & -> & _). eexists. reflexivity.
Qed.

(** ** The display queue *)

(** One per-frame call moves the queue as the specification words it. *)
Lemma queue_step w o r w' :
  reachable w -> per_frame o = true -> run_op o w = Done r w' ->
  reachable w' /\ display (impl w') = queue_after o (display (impl w)).
Proof.
  intros Hreach Hpf Hrun. split.
  - eapply reach_step; eauto.
  - pose proof (reachable_NoDup _ _ Hreach) as Hnd.
    destruct (per_frame_effect _ _ _ _ Hpf Hrun) as (_ & _ & Hd & _).
    rewrite Hd. destruct o; try reflexivity.
    cbn [queue_after]. destruct (display (impl w)) as [| h t]; [reflexivity |].
    apply list_del_init_head. assumption.
Qed.

Lemma queue_steps l : forall w rs w',
  reachable w -> forallb per_frame l = true -> run_ops l w = Done rs w' ->
  reachable w' /\
  display (impl w') = fold_left (fun d o => queue_after o d) l (display (impl w)).
Proof.
  induction l as [| o l IH]; intros w rs w' Hreach Hpf Hrun.
  - injection Hrun as <- <-. split; [assumption | reflexivity].
  - cbn [forallb] in Hpf. apply andb_true_iff in Hpf as [Hpo Hpl].
    cbn [run_ops] in Hrun.
    apply bind_Done_inv in Hrun as (r & w1 & Hop & Hrun).
    apply bind_ret_inv in Hrun as (rs' & Hrun & ->).
    destruct (queue_step _ _ _ _ Hreach Hpo Hop) as [Hreach1 Hq].
    destruct (IH _ _ _ Hreach1 Hpl Hrun) as [Hreach' Hq'].
    split; [assumption |]. cbn [fold_left]. rewrite Hq', Hq. reflexivity.
Qed.

(** C6.  In every state reached from a freshly set-up pool the display
    queue holds no position twice.  [set_display] adds the Display claim,
    takes the slot out of the queue if it is there and appends it at the
    tail; [get_display] takes the head and hands back the frame of that
    slot; every other per-frame operation, on whichever slot, leaves the
    queue as it is.  So, over any sequence of per-frame calls, slots are
    popped in the order of their latest marking (scenario D: 2 is marked
    before 0 and popped before 0).  [set_display] returns for every
    in-range index of a pool whose count fits [RK_S32]. *)
Theorem C6_display_queue_fifo w :
  reachable w ->
  NoDup (display (impl w)) /\
  (forall o r w',
      per_frame o = true -> run_op o w = Done r w' ->
      NoDup (display (impl w')) /\
      display (impl w') = queue_after o (display (impl w)) /\
      (forall i, o = SetDisplay i ->
         exists e, cell_at (impl w) i = Some e /\
                   cell_at (impl w') i =
                     Some (with_status e (set_flag (status e) MPP_SLOT_USED_AS_DISPLAY)) /\
                   Z.testbit (set_flag (status e) MPP_SLOT_USED_AS_DISPLAY) 3 = true /\
                   r = Ret MPP_OK) /\
      (o = GetDisplay ->
         match display (impl w) with
         | [] => r = RetFrame MPP_NOK None /\ w' = w
         | h :: _ => exists e, cell_at (impl w) h = Some e /\
                               r = RetFrame MPP_OK (Some (frame e))
         end)) /\
  (forall l rs w',
      forallb per_frame l = true -> run_ops l w = Done rs w' ->
      NoDup (display (impl w')) /\
      display (impl w') = fold_left (fun d o => queue_after o d) l (display (impl w))) /\
  (count (impl w) < 2 ^ 31 ->
   forall i, 0 <= i < count (impl w) ->
             exists w2, mpp_buf_slot_set_display i w = Done MPP_OK w2) /\
  (exists w2,
      run_ops [Setup 4 1024 0; GetUnused; GetUnused; GetUnused;
               SetDecoding 0 (mkFrame None 10); SetDecoding 2 (mkFrame None 12);
               SetDisplay 2; SetDisplay 0; GetDisplay; GetDisplay] blank =
      Done [Ret MPP_OK; RetIndex MPP_OK 0; RetIndex MPP_OK 1; RetIndex MPP_OK 2;
            Ret MPP_OK; Ret MPP_OK; Ret MPP_OK; Ret MPP_OK;
            RetFrame MPP_OK (Some (Some 1%nat)); RetFrame MPP_OK (Some (Some 0%nat))] w2).
Proof.
  intros Hreach.
  pose proof (reachable_NoDup _ _ Hreach) as Hnd.
  split; [exact Hnd |]. split; [| split; [| split]].
  - intros o r w' Hpf Hrun.
    destruct (queue_step _ _ _ _ Hreach Hpf Hrun) as [Hreach' Hq].
    split; [apply (reachable_NoDup _ _ Hreach') |]. split; [exact Hq |]. split.
    + intros i ->. cbn [run_op] in Hrun.
      apply bind_ret_inv in Hrun as (r0 & Hrun & ->).
      rewrite set_display_cases in Hrun.
      open_slot Hrun w i e He.
      destruct (list_init e); [| discriminate].
      injection Hrun as <- <-. exists e. split; [reflexivity |]. split; [| split].
      * cbn [impl with_impl]. unfold cell_at at 1. cbn [slots with_display].
        fold (cell_at (impl (set_cell w i (with_status e
                (set_flag (status e) MPP_SLOT_USED_AS_DISPLAY)))) i).
        rewrite (cell_at_set_cell w i e) by assumption.
        destruct (decide (i = i)); [reflexivity | contradiction].
      * rewrite testbit_set_flag. apply orb_true_r.
      * reflexivity.
    + intros ->. cbn [run_op] in Hrun.
      apply bind_ret_inv in Hrun as (r0 & Hrun & ->).
      rewrite get_display_cases in Hrun.
      destruct (display (impl w)) as [| h t].
      * injection Hrun as <- <-. split; reflexivity.
      * destruct (cell_at (impl w) h) as [e |] eqn:He; [| discriminate].
        destruct (u32 (index e) <? count (impl w)); [| discriminate].
        cbv zeta in Hrun.
        destruct (check_entry_unused h _) as [f w3 | |]; [| discriminate | discriminate].
        injection Hrun as <- <-. exists e. split; reflexivity.
  - intros l rs w' Hpf Hrun.
    destruct (queue_steps _ _ _ _ Hreach Hpf Hrun) as [Hreach' Hq].
    split; [apply (reachable_NoDup _ _ Hreach') | exact Hq].
  - intros Hc31 i Hi.
    destruct (reachable_table_ok _ _ Hreach i Hi) as [e He].
    pose proof (reachable_list_init _ _ Hreach Hc31 _ _ He) as Hli.
    rewrite set_display_cases.
    destruct (Z.ltb_spec i (count (impl w))); [| lia]. rewrite He, Hli. eexists. reflexivity.
  - eexists. vm_compute. reflexivity.
Qed.

Lemma C6_display_queue_witness :
  exists w w',
    world_after [Setup 4 1024 0; SetDisplay 2; SetDisplay 0] blank = Some w /\
    run_op (SetDisplay 2) w = Done (Ret MPP_OK) w' /\
    display (impl w) = [2; 0] /\ display (impl w') = [0; 2] /\
    NoDup (display (impl w')).
Proof.
  eexists. eexists. split; [vm_compute; reflexivity |].
  split; [vm_compute; reflexivity |].
  match goal with
  | |- display (impl ?w) = _ /\ display (impl ?w') = _ /\ _ =>
      destruct (C6_display_queue_fifo w) as (_ & Hstep & _);
      [| destruct (Hstep (SetDisplay 2) (Ret MPP_OK) w') as (Hnd & Hq & _)]
  end.
  - eapply reach_step with (o := SetDisplay 0);
      [eapply reach_step with (o := SetDisplay 2);
       [eapply (reach_setup _ blank blank 4 1024 0); reflexivity
       | reflexivity | reflexivity | vm_compute; reflexivity]
      | reflexivity | reflexivity | vm_compute; reflexivity].
  - reflexivity.
  - vm_compute. reflexivity.
  - split; [reflexivity |]. split; [exact Hq | exact Hnd].
Defined.

(** ** Buffer references and the way back to Free *)

Lemma set_flag_nonzero s f : s <> 0 -> set_flag s f <> 0.
Proof. unfold set_flag. intros Hs H. apply Z.lor_eq_0_iff in H. tauto. Qed.

(** C2 (amended).  In every state reached from a freshly set-up pool by
    per-frame operations that place claims on acquired slots only, a slot
    that holds a buffer reference has a non-empty status, and a slot's
    status becomes empty only in the release check of a claim-clearing
    operation, from a status that is exactly [MPP_SLOT_USED] once the
    cleared claim is taken away; that step detaches the frame and gives the
    bound buffer back with one [mpp_buffer_put]. *)
Theorem C2_held_buffer_and_way_to_free w :
  reachable_disciplined w ->
  (forall j e, cell_at (impl w) j = Some e -> holds_buffer w e ->
               status e <> MPP_SLOT_UNUSED) /\
  (forall o r w' j e e',
      per_frame o = true -> claims_on_acquired w o = true ->
      run_op o w = Done r w' ->
      cell_at (impl w) j = Some e -> cell_at (impl w') j = Some e' ->
      status e <> MPP_SLOT_UNUSED -> status e' = MPP_SLOT_UNUSED ->
      cleared_claim o <> 0 /\
      clr_flag (status e) (cleared_claim o) = MPP_SLOT_USED /\
      frame e' = None /\
      trace w' = trace w ++ [Buffer_put (bound_buffer w e)]).
Proof.
  intros Hreach. pose proof (reachable_slots_ok _ Hreach) as Hok. split.
  - intros j e He Hheld Hst.
    destruct (Hok _ _ He) as [[_ Hf] | Hbit].
    + apply Hheld. unfold bound_buffer. rewrite Hf. reflexivity.
    + rewrite Hst in Hbit. discriminate.
  - intros o r w' j e e' Hpf Hdisc Hrun He He' Hne Hz.
    destruct (per_frame_effect _ _ _ _ Hpf Hrun) as (Hcells & _).
    specialize (Hcells j). rewrite He in Hcells.
    destruct Hcells as (e'' & He'' & Hstep). rewrite He' in He''. injection He'' as <-.
    destruct Hstep as [-> | _ Hfree _ | _ -> | _ -> | f a _ _ -> | Hc -> | Hc Hused Hf -> Htr].
    + contradiction.
    + contradiction.
    + exfalso. revert Hz. apply set_flag_nonzero. assumption.
    + exfalso. revert Hz. apply set_flag_nonzero. assumption.
    + exfalso. revert Hz. apply set_flag_nonzero. assumption.
    + exfalso. destruct (Hok _ _ He) as [[Hst _] | Hbit]; [contradiction |].
      cbn [status with_status with_frame] in Hz.
      assert (Hb : Z.testbit (clr_flag (status e) (cleared_claim o)) 0 = true).
      { destruct (cleared_claim_flag o Hc) as [-> | [-> | ->]].
        - rewrite (testbit_clr_flag _ 1) by lia. rewrite Hbit. reflexivity.
        - rewrite (testbit_clr_flag _ 2) by lia. rewrite Hbit. reflexivity.
        - rewrite (testbit_clr_flag _ 3) by lia. rewrite Hbit. reflexivity. }
      rewrite Hz in Hb. discriminate.
    + repeat split; assumption.
Qed.

Lemma C2_held_buffer_witness :
  exists w w',
    world_after [Setup 4 1024 0; GetUnused; SetDecoding 0 (mkFrame None 7); SetBuffer 0 5;
                 SetRef 0; ClrDecoding 0] blank = Some w /\
    run_op (ClrRef 0) w = Done (Ret MPP_OK) w' /\
    cell_at (impl w) 0 = Some (mkEntry 3 0 (Some 0%nat)) /\
    cell_at (impl w') 0 = Some (mkEntry 0 0 None) /\
    trace w' = trace w ++ [Buffer_put (Some 5%nat)].
Proof.
  eexists. eexists. split; [vm_compute; reflexivity |].
  split; [vm_compute; reflexivity |].
  split; [reflexivity |]. split; [reflexivity |].
  match goal with
  | |- trace ?w' = trace ?w ++ _ =>
      destruct (C2_held_buffer_and_way_to_free w) as [_ Hstep];
      [| destruct (Hstep (ClrRef 0) (Ret MPP_OK) w' 0
                         (mkEntry 3 0 (Some 0%nat)) (mkEntry 0 0 None))
           as (_ & _ & _ & Htr)]
  end.
  - eapply reach_step with (o := ClrDecoding 0);
      [eapply reach_step with (o := SetRef 0);
       [eapply reach_step with (o := SetBuffer 0 5);
        [eapply reach_step with (o := SetDecoding 0 (mkFrame None 7));
         [eapply reach_step with (o := GetUnused);
          [eapply (reach_setup _ blank blank 4 1024 0); reflexivity
          | reflexivity | reflexivity | vm_compute; reflexivity]
         | reflexivity | reflexivity | vm_compute; reflexivity]
        | reflexivity | reflexivity | vm_compute; reflexivity]
       | reflexivity | reflexivity | vm_compute; reflexivity]
      | reflexivity | reflexivity | vm_compute; reflexivity].
  - reflexivity.
  - reflexivity.
  - vm_compute. reflexivity.
  - reflexivity.
  - reflexivity.
  - discriminate.
  - reflexivity.
  - exact Htr.
Defined.

(** C2 as stated fails: an acquired slot has a non-empty status and holds
    no buffer, and a slot on which only the Reference claim was placed
    returns to an empty status straight from [{Reference}]. *)
Lemma C2_counterexample_status_without_buffer :
  ~ (forall w, reachable w ->
       forall j e, cell_at (impl w) j = Some e ->
                   (holds_buffer w e <-> status e <> MPP_SLOT_UNUSED)) /\
  (exists w w',
      reachable w /\
      cell_at (impl w) 0 = Some (mkEntry MPP_SLOT_USED_AS_REF 0 None) /\
      mpp_buf_slot_clr_ref 0 w = Done MPP_OK w' /\
      cell_at (impl w') 0 = Some (mkEntry MPP_SLOT_UNUSED 0 None)).
Proof.
  split.
  - intros H.
    assert (Hreach : exists w, reachable w /\
                               cell_at (impl w) 0 = Some (mkEntry MPP_SLOT_USED 0 None) /\
                               heap w = []).
    { eexists. split; [| split].
      - eapply reach_step with (o := GetUnused);
          [eapply (reach_setup _ blank blank 4 1024 0); reflexivity
          | reflexivity | reflexivity | vm_compute; reflexivity].
      - reflexivity.
      - reflexivity. }
    destruct Hreach as (w & Hreach & Hcell & Hheap).
    destruct (H w Hreach 0 _ Hcell) as [_ Hheld].
    apply Hheld; [discriminate | reflexivity].
  - eexists. eexists. split; [| split; [| split]].
    + eapply reach_step with (o := SetRef 0);
        [eapply (reach_setup _ blank blank 4 1024 0); reflexivity
        | reflexivity | reflexivity | vm_compute; reflexivity].
    + reflexivity.
    + vm_compute. reflexivity.
    + reflexivity.
Qed.

(** ** Which entry the release check is run on *)

(** C1 fails on the code: [clr_ref] and [clr_decoding] hand
    [&slot[index]] to the release check, with [slot] already
    [&impl->slots[index]], so the entry checked is the one at [2 * index].
    (1) On a pool of four, clearing the Decoding claim of slot 1 leaves it
    with status exactly [MPP_SLOT_USED], its frame attached and its buffer
    never given back.  (2) Clearing the Decoding claim of slot 2 reads
    [slots[4]], outside the array.  (3) On a pool of eight, clearing the
    Reference claim of slot 1 releases slot 2 and gives back its buffer,
    while slot 1 stays acquired. *)
Theorem C1_release_check_runs_on_slot_2i :
  (exists w,
      world_after [Setup 4 1024 0; GetUnused; GetUnused; SetDecoding 1 (mkFrame None 7);
                   SetBuffer 1 5; ClrDecoding 1] blank = Some w /\
      cell_at (impl w) 1 = Some (mkEntry MPP_SLOT_USED 1 (Some 0%nat)) /\
      heap w = [mkFrame (Some 5%nat) 7] /\
      trace w = [Buffer_inc_ref (Some 5%nat)]) /\
  (exists w,
      world_after [Setup 4 1024 0; GetUnused; GetUnused; GetUnused;
                   SetDecoding 2 (mkFrame None 7)] blank = Some w /\
      mpp_buf_slot_clr_decoding 2 w = Fault) /\
  (exists w w',
      world_after [Setup 8 1024 0; GetUnused; GetUnused; GetUnused;
                   SetDecoding 2 (mkFrame None 7); SetBuffer 2 5; ClrDecoding 2;
                   SetRef 1] blank = Some w /\
      cell_at (impl w) 1 = Some (mkEntry 3 1 None) /\
      cell_at (impl w) 2 = Some (mkEntry MPP_SLOT_USED 2 (Some 0%nat)) /\
      mpp_buf_slot_clr_ref 1 w = Done MPP_OK w' /\
      cell_at (impl w') 1 = Some (mkEntry MPP_SLOT_USED 1 None) /\
      cell_at (impl w') 2 = Some (mkEntry MPP_SLOT_UNUSED 2 None) /\
      trace w' = trace w ++ [Buffer_put (Some 5%nat)]).
Proof.
  split; [| split].
  - eexists. split; [vm_compute; reflexivity |]. repeat split.
  - eexists. split; [vm_compute; reflexivity |]. vm_compute. reflexivity.
  - eexists. eexists. split; [vm_compute; reflexivity |].
    split; [reflexivity |]. split; [reflexivity |].
    split; [vm_compute; reflexivity |]. repeat split.
Qed.

(** Scenario A of the specification, on slot 0: clearing the Decoding claim
    while the Reference claim is set releases nothing; clearing the
    Reference claim then frees the slot and gives the buffer back. *)
Example scenario_A :
  exists w1 w2,
    world_after [Setup 4 1024 0; GetUnused; SetDecoding 0 (mkFrame None 7); SetBuffer 0 5;
                 SetRef 0; ClrDecoding 0] blank = Some w1 /\
    cell_at (impl w1) 0 = Some (mkEntry 3 0 (Some 0%nat)) /\
    trace w1 = [Buffer_inc_ref (Some 5%nat)] /\
    mpp_buf_slot_clr_ref 0 w1 = Done MPP_OK w2 /\
    cell_at (impl w2) 0 = Some (mkEntry MPP_SLOT_UNUSED 0 None) /\
    trace w2 = [Buffer_inc_ref (Some 5%nat); Buffer_put (Some 5%nat)].
Proof.
  eexists. eexists. split; [vm_compute; reflexivity |].
  split; [reflexivity |]. split; [reflexivity |].
  split; [vm_compute; reflexivity |]. split; reflexivity.
Qed.

(** ** Clearing a claim that is not set *)

Lemma set_cell_id w pos e : cell_at (impl w) pos = Some e -> set_cell w pos e = w.
Proof.
  intros H. destruct (cell_at_Some _ _ _ H) as (t & Ht & Hpos & Hl).
  unfold set_cell. rewrite Ht, list_insert_id by assumption.
  destruct w as [p h tr]. destruct p. simpl in *. subst. reflexivity.
Qed.

Lemma with_status_id e : with_status e (status e) = e.
Proof. destruct e. reflexivity. Qed.

(** The release check leaves an entry alone unless it is pointed at it and
    finds its status exactly [MPP_SLOT_USED]. *)
Lemma check_entry_unused_other pos w f w' i e :
  check_entry_unused pos w = Done f w' ->
  cell_at (impl w) i = Some e -> status e <> MPP_SLOT_USED ->
  cell_at (impl w') i = Some e /\ heap w' = heap w.
Proof.
  intros Hrun He Hst. rewrite check_entry_unused_cases in Hrun.
  destruct (cell_at (impl w) pos) as [e1 |] eqn:He1; [| discriminate].
  destruct (Z.eqb_spec (status e1) MPP_SLOT_USED) as [Hused | Hnot].
  - destruct (frame e1) as [a |]; [| discriminate].
    destruct (heap w !! a) as [ob |]; [| discriminate].
    injection Hrun as <- <-. cbn [impl heap log_call].
    rewrite set_cell_heap. split; [| reflexivity].
    rewrite (cell_at_set_cell w pos e1) by assumption.
    destruct (decide (i = pos)) as [-> | _]; [congruence | assumption].
  - injection Hrun as <- <-. split; [assumption | reflexivity].
Qed.

Lemma check_entry_unused_idle pos w e :
  cell_at (impl w) pos = Some e -> status e <> MPP_SLOT_USED ->
  check_entry_unused pos w = Done (frame e) w.
Proof.
  intros He Hst. rewrite check_entry_unused_cases, He.
  destruct (Z.eqb_spec (status e) MPP_SLOT_USED); [contradiction | reflexivity].
Qed.

(** C3 (amended).  Clearing a claim that is not set takes nothing from the
    status of the slot, but the release check still runs.  When the status
    of the slot is not exactly [MPP_SLOT_USED], the slot keeps its status
    and its frame and no frame object is touched; at index 0 the whole call
    changes nothing (but the decode counter, for [clr_decoding]) and
    releases nothing. *)
Theorem C3_redundant_clear_keeps_claimed_slot w i e :
  0 <= i < count (impl w) ->
  cell_at (impl w) i = Some e ->
  0 <= status e < 2 ^ 32 ->
  status e <> MPP_SLOT_USED ->
  (Z.testbit (status e) 1 = false ->
   (forall r w', mpp_buf_slot_clr_ref i w = Done r w' ->
                 cell_at (impl w') i = Some e /\ heap w' = heap w) /\
   (i = 0 -> mpp_buf_slot_clr_ref i w = Done MPP_OK w)) /\
  (Z.testbit (status e) 2 = false ->
   (forall r w', mpp_buf_slot_clr_decoding i w = Done r w' ->
                 cell_at (impl w') i = Some e /\ heap w' = heap w) /\
   (i = 0 -> mpp_buf_slot_clr_decoding i w =
             Done MPP_OK (with_impl w (with_decode_count (impl w)
                                         (u32 (decode_count (impl w) + 1)))))).
Proof.
  intros Hi He Hrange Hst.
  destruct (Z.ltb_spec i (count (impl w))) as [_ | Hge]; [| lia].
  split; intros Hbit.
  - assert (Hclr : clr_flag (status e) MPP_SLOT_USED_AS_REF = status e)
      by (apply (clr_flag_absent _ 1); [lia | assumption | assumption]).
    assert (Heq : mpp_buf_slot_clr_ref i w =
                  (run check_entry_unused (i + i) then ret MPP_OK) w).
    { rewrite clr_ref_cases.
      destruct (Z.ltb_spec i (count (impl w))); [| lia].
      rewrite He, Hclr, with_status_id, set_cell_id by assumption. reflexivity. }
    split.
    + intros r w' Hrun. rewrite Heq in Hrun.
      apply bind_ret_inv in Hrun as (f & Hrun & _).
      eapply check_entry_unused_other; eauto.
    + intros ->. rewrite Heq. unfold bind.
      rewrite (check_entry_unused_idle _ _ e) by assumption. reflexivity.
  - assert (Hclr : clr_flag (status e) MPP_SLOT_USED_AS_DECODING = status e)
      by (apply (clr_flag_absent _ 2); [lia | assumption | assumption]).
    set (w1 := with_impl w (with_decode_count (impl w) (u32 (decode_count (impl w) + 1)))).
    assert (Heq : mpp_buf_slot_clr_decoding i w =
                  (run check_entry_unused (i + i) then ret MPP_OK) w1).
    { rewrite clr_decoding_cases.
      destruct (Z.ltb_spec i (count (impl w))); [| lia].
      rewrite He, Hclr, with_status_id, set_cell_id by assumption. reflexivity. }
    split.
    + intros r w' Hrun. rewrite Heq in Hrun.
      apply bind_ret_inv in Hrun as (f & Hrun & _).
      eapply (check_entry_unused_other _ w1); eauto.
    + intros ->. rewrite Heq. unfold bind.
      rewrite (check_entry_unused_idle _ w1 e) by assumption. reflexivity.
Qed.

Lemma C3_redundant_clear_witness :
  exists w,
    world_after [Setup 4 1024 0; GetUnused; SetDecoding 0 (mkFrame None 7)] blank = Some w /\
    cell_at (impl w) 0 = Some (mkEntry 5 0 (Some 0%nat)) /\
    mpp_buf_slot_clr_ref 0 w = Done MPP_OK w.
Proof.
  eexists. split; [vm_compute; reflexivity |]. split; [reflexivity |].
  match goal with
  | |- mpp_buf_slot_clr_ref 0 ?w = _ =>
      destruct (C3_redundant_clear_keeps_claimed_slot w 0 (mkEntry 5 0 (Some 0%nat)))
        as [Href _]
  end.
  - simpl. lia.
  - reflexivity.
  - simpl. lia.
  - discriminate.
  - destruct Href as [_ Hnoop]; [reflexivity |]. apply Hnoop. reflexivity.
Defined.

(** C3 as stated fails: the release check runs after every clear.  On an
    acquired slot that carries no claim, a redundant [clr_ref] stops at the
    assertion of the release check with the status already emptied; on a
    slot with status exactly [MPP_SLOT_USED] and a bound buffer, a redundant
    [clr_ref] or [clr_decoding] frees the slot and gives the buffer back. *)
Lemma C3_counterexample_redundant_clear_releases :
  (exists w w',
      world_after [Setup 4 1024 0; GetUnused] blank = Some w /\
      cell_at (impl w) 0 = Some (mkEntry MPP_SLOT_USED 0 None) /\
      Z.testbit MPP_SLOT_USED 1 = false /\
      mpp_buf_slot_clr_ref 0 w = Abort Assert_entry_frame w' /\
      cell_at (impl w') 0 = Some (mkEntry MPP_SLOT_UNUSED 0 None)) /\
  (let w := mkWorld (mkImpl 1 1024 0 0 0 0 0 0 []
                       (Some [Some (mkEntry MPP_SLOT_USED 0 (Some 0%nat))]))
                    [mkFrame (Some 5%nat) 7] [] in
   Z.testbit MPP_SLOT_USED 1 = false /\ Z.testbit MPP_SLOT_USED 2 = false /\
   (exists w', mpp_buf_slot_clr_ref 0 w = Done MPP_OK w' /\
               cell_at (impl w') 0 = Some (mkEntry MPP_SLOT_UNUSED 0 None) /\
               trace w' = [Buffer_put (Some 5%nat)]) /\
   (exists w', mpp_buf_slot_clr_decoding 0 w = Done MPP_OK w' /\
               cell_at (impl w') 0 = Some (mkEntry MPP_SLOT_UNUSED 0 None) /\
               trace w' = [Buffer_put (Some 5%nat)])).
Proof.
  split.
  - eexists. eexists. split; [vm_compute; reflexivity |].
    split; [reflexivity |]. split; [reflexivity |].
    split; [vm_compute; reflexivity |]. reflexivity.
  - cbv zeta. split; [reflexivity |]. split; [reflexivity |]. split.
    + eexists. split; [vm_compute; reflexivity |]. split; reflexivity.
    + eexists. split; [vm_compute; reflexivity |]. split; reflexivity.
Qed.

(** ** The release check and the frame handle *)

(** The release check on an entry with status exactly [MPP_SLOT_USED] and a
    frame attached. *)
Lemma check_entry_unused_release w pos e a ob :
  cell_at (impl w) pos = Some e ->
  status e = MPP_SLOT_USED ->
  frame e = Some a ->
  heap w !! a = Some ob ->
  check_entry_unused pos w =
    Done None (log_call (set_cell w pos (with_frame (with_status e MPP_SLOT_UNUSED) None))
                        (Buffer_put (buffer ob))).
Proof.
  intros He Hst Hf Hob.
  rewrite check_entry_unused_cases, He, Hst, Hf, Hob. reflexivity.
Qed.

(** C4 (amended).  When the release check finds status exactly
    [MPP_SLOT_USED] it empties the status, gives the buffer bound to the
    attached frame back with [mpp_buffer_put] and detaches the frame from
    the slot ([entry->frame = NULL]); the frame object itself is left as it
    is (not destroyed, its buffer field not cleared).  No other slot
    changes.  A following [set_decoding] on that slot therefore finds no
    frame and allocates a new frame object. *)
Theorem C4_release_detaches_frame w pos e a ob :
  cell_at (impl w) pos = Some e ->
  status e = MPP_SLOT_USED ->
  frame e = Some a ->
  heap w !! a = Some ob ->
  let w' := log_call (set_cell w pos (with_frame (with_status e MPP_SLOT_UNUSED) None))
                     (Buffer_put (buffer ob)) in
  check_entry_unused pos w = Done None w' /\
  cell_at (impl w') pos = Some (with_frame (with_status e MPP_SLOT_UNUSED) None) /\
  (forall j, j <> pos -> cell_at (impl w') j = cell_at (impl w) j) /\
  heap w' = heap w /\
  trace w' = trace w ++ [Buffer_put (buffer ob)] /\
  (forall src, pos < count (impl w) ->
     exists w'',
       mpp_buf_slot_set_decoding pos (Some src) w' = Done MPP_OK w'' /\
       cell_at (impl w'') pos =
         Some (with_frame (with_status e MPP_SLOT_USED_AS_DECODING) (Some (length (heap w)))) /\
       heap w'' = heap w ++ [src] /\
       length (heap w) <> a).
Proof.
  intros He Hst Hf Hob w'.
  assert (Hcell : forall j, cell_at (impl w') j =
                            if decide (j = pos)
                            then Some (with_frame (with_status e MPP_SLOT_UNUSED) None)
                            else cell_at (impl w) j).
  { intros j. unfold w'. cbn [impl log_call]. apply (cell_at_set_cell w pos e). assumption. }
  split; [| split; [| split; [| split; [| split]]]].
  - apply (check_entry_unused_release w pos e a ob); assumption.
  - rewrite Hcell. destruct (decide (pos = pos)); [reflexivity | contradiction].
  - intros j Hj. rewrite Hcell. destruct (decide (j = pos)); [contradiction | reflexivity].
  - unfold w'. cbn [heap log_call]. apply set_cell_heap.
  - unfold w'. cbn [trace log_call]. rewrite set_cell_trace. reflexivity.
  - intros src Hpos.
    assert (Hheap : heap w' = heap w) by (unfold w'; cbn [heap log_call]; apply set_cell_heap).
    assert (Hcount : count (impl w') = count (impl w))
      by (unfold w'; cbn [impl log_call]; apply set_cell_count).
    rewrite set_decoding_cases, Hcount, Hcell.
    destruct (Z.ltb_spec pos (count (impl w))); [| lia].
    destruct (decide (pos = pos)); [| contradiction].
    cbn [frame status index]. cbv zeta. eexists. split; [reflexivity |].
    cbn [impl heap]. rewrite Hheap. split; [| split; [reflexivity |]].
    + unfold cell_at at 1. cbn [slots with_output].
      match goal with
      | |- context [slots (impl ?x)] => fold (cell_at (impl x) pos)
      end.
      rewrite (cell_at_set_cell w' pos (with_frame (with_status e MPP_SLOT_UNUSED) None)).
      * destruct (decide (pos = pos)); [reflexivity | contradiction].
      * rewrite Hcell. destruct (decide (pos = pos)); [reflexivity | contradiction].
    + apply lookup_lt_Some in Hob. lia.
Qed.

Lemma C4_release_witness :
  exists w w',
    world_after [Setup 4 1024 0; GetUnused; SetDecoding 0 (mkFrame None 7); SetBuffer 0 5;
                 SetDisplay 0; ClrDecoding 0] blank = Some w /\
    cell_at (impl w) 0 = Some (mkEntry 9 0 (Some 0%nat)) /\
    mpp_buf_slot_get_display w = Done (MPP_OK, Some (Some 0%nat)) w' /\
    cell_at (impl w') 0 = Some (mkEntry MPP_SLOT_UNUSED 0 None) /\
    heap w' = [mkFrame (Some 5%nat) 7] /\
    exists w1 w2,
      w1 = set_cell w 0 (mkEntry MPP_SLOT_USED 0 (Some 0%nat)) /\
      check_entry_unused 0 w1 = Done None w2 /\
      trace w2 = trace w1 ++ [Buffer_put (Some 5%nat)].
Proof.
  eexists. eexists. split; [vm_compute; reflexivity |].
  split; [reflexivity |]. split; [vm_compute; reflexivity |].
  split; [reflexivity |]. split; [reflexivity |].
  eexists. eexists. split; [reflexivity |].
  match goal with
  | |- check_entry_unused 0 ?w1 = _ /\ _ =>
      destruct (C4_release_detaches_frame w1 0 (mkEntry MPP_SLOT_USED 0 (Some 0%nat)) 0%nat
                  (mkFrame (Some 5%nat) 7)) as (Hrun & _ & _ & _ & Htr & _)
  end.
  - reflexivity.
  - reflexivity.
  - reflexivity.
  - reflexivity.
  - split; [exact Hrun | exact Htr].
Defined.

(** C4 as stated fails: after the release the slot has no frame handle
    left, and the next [set_decoding] on it allocates a second frame object
    instead of reusing the first. *)
Lemma C4_counterexample_frame_not_retained :
  exists w1 w2 w3,
    world_after [Setup 4 1024 0; GetUnused; SetDecoding 0 (mkFrame None 7);
                 SetBuffer 0 5] blank = Some w1 /\
    cell_at (impl w1) 0 = Some (mkEntry 5 0 (Some 0%nat)) /\
    mpp_buf_slot_clr_decoding 0 w1 = Done MPP_OK w2 /\
    cell_at (impl w2) 0 = Some (mkEntry MPP_SLOT_UNUSED 0 None) /\
    length (heap w2) = 1%nat /\
    world_after [GetUnused; SetDecoding 0 (mkFrame None 8)] w2 = Some w3 /\
    cell_at (impl w3) 0 = Some (mkEntry 5 0 (Some 1%nat)) /\
    length (heap w3) = 2%nat.
Proof.
  eexists. eexists. eexists. split; [vm_compute; reflexivity |].
  split; [reflexivity |]. split; [vm_compute; reflexivity |].
  split; [reflexivity |]. split; [reflexivity |].
  split; [vm_compute; reflexivity |]. split; reflexivity.
Qed.

(** ** Taking a frame off the display queue *)





(** ** The decoding claim and the last decoding index *)

Lemma init_slot_loop_output n : forall pos i w w',
  init_slot_loop n pos i w = Done tt w' -> output (impl w') = output (impl w).
Proof.
  induction n as [| n IH]; intros pos i w w' Hrun.
  - injection Hrun as <-. reflexivity.
  - cbn [init_slot_loop] in Hrun.
    apply bind_Done_inv in Hrun as ([] & w1 & Hst & Hrun).
    apply store_inv in Hst as (t & Ht & Hpos & ->).
    apply IH in Hrun. rewrite Hrun. reflexivity.
Qed.

(** Only [set_decoding] writes [impl->output]. *)
Lemma output_kept o w r w' :
  (forall j f, o <> SetDecoding j f) ->
  run_op o w = Done r w' -> output (impl w') = output (impl w).
Proof.
  intros Hne Hrun.
  destruct (per_frame o) eqn:Hpf.
  - destruct (per_frame_effect _ _ _ _ Hpf Hrun) as (_ & _ & _ & Ho). rewrite Ho.
    destruct o; try reflexivity. exfalso. eapply Hne. reflexivity.
  - destruct o as [c s ch | | | | | | | | |]; try discriminate Hpf; cbn [run_op] in Hrun;
      apply bind_ret_inv in Hrun as (r0 & Hrun & ->).
    + unfold mpp_buf_slot_setup in Hrun.
      apply bind_Done_inv in Hrun as (p & w1 & Hp & Hrun). injection Hp as <- <-.
      apply bind_ret_inv in Hrun as ([] & Hrun & _).
      destruct (slots (impl w)) as [t |].
      * destruct (ch =? 0).
        -- apply bind_Done_inv in Hrun as ([] & w1 & Has & Hrun).
           unfold mpp_assert in Has. destruct (s =? size (impl w)); [| discriminate].
           injection Has as <-.
           destruct (count (impl w) <? c).
           ++ apply bind_Done_inv in Hrun as (t' & w1 & Hre & Hrun).
              apply mpp_realloc_inv in Hre as (t0 & ->).
              apply init_slot_loop_output in Hrun. rewrite Hrun. reflexivity.
           ++ injection Hrun as <-. reflexivity.
        -- injection Hrun as <-. reflexivity.
      * apply bind_Done_inv in Hrun as ([] & w1 & Hput & Hrun). injection Hput as <-.
        apply init_slot_loop_output in Hrun. rewrite Hrun. reflexivity.
    + unfold mpp_buf_slot_ready in Hrun.
      apply bind_Done_inv in Hrun as (p & w1 & Hp & Hrun). injection Hp as <- <-.
      apply bind_Done_inv in Hrun as ([] & w1 & Has & Hrun).
      unfold mpp_assert in Has. destruct (negb _); [| discriminate]. injection Has as <-.
      apply bind_Done_inv in Hrun as ([] & w1 & Has & Hrun).
      unfold mpp_assert in Has. destruct (bool_decide _); [| discriminate]. injection Has as <-.
      cbv zeta in Hrun.
      apply bind_Done_inv in Hrun as ([] & w1 & Hput & Hrun). injection Hput as <-.
      apply bind_Done_inv in Hrun as ([] & w2 & Hre & Hrun).
      apply bind_Done_inv in Hrun as (p2 & w3 & Hp & Hrun). injection Hp as <- <-.
      apply bind_Done_inv in Hrun as ([] & w3 & Hput & Hrun). injection Hput as <-.
      injection Hrun as <- <-. cbn [impl with_impl output with_count].
      destruct (negb _).
      * apply bind_Done_inv in Hre as (t' & w1 & Hal & Hre).
        apply mpp_realloc_inv in Hal as (t0 & ->).
        apply init_slot_loop_output in Hre. rewrite Hre. reflexivity.
      * injection Hre as <-. reflexivity.
Qed.

(** C9 (amended).  [set_decoding] adds the Decoding claim to the slot,
    allocates a frame object only if the slot has none, and overwrites the
    whole frame object, its buffer field included, with the caller's, so the
    buffer bound to the slot afterwards is the one of the caller's frame.
    It records the index, which [get_decoding] hands back right away and
    after any later operation other than another [set_decoding]. *)
Theorem C9_set_decoding_copies_frame w i e src :
  0 <= i < count (impl w) -> i < 2 ^ 32 ->
  cell_at (impl w) i = Some e ->
  (forall a, frame e = Some a -> (a < length (heap w))%nat) ->
  exists w' a,
    mpp_buf_slot_set_decoding i (Some src) w = Done MPP_OK w' /\
    (frame e = None -> a = length (heap w) /\ heap w' = heap w ++ [src]) /\
    (forall a0, frame e = Some a0 -> a = a0 /\ heap w' = <[a0 := src]> (heap w)) /\
    cell_at (impl w') i =
      Some (with_frame (with_status e (set_flag (status e) MPP_SLOT_USED_AS_DECODING)) (Some a)) /\
    Z.testbit (set_flag (status e) MPP_SLOT_USED_AS_DECODING) 2 = true /\
    heap w' !! a = Some src /\
    (forall e', cell_at (impl w') i = Some e' -> bound_buffer w' e' = buffer src) /\
    (forall j, j <> i -> cell_at (impl w') j = cell_at (impl w) j) /\
    trace w' = trace w /\
    mpp_buf_slot_get_decoding w' = Done (MPP_OK, i) w' /\
    (forall o r w'', (forall j f, o <> SetDecoding j f) ->
                     run_op o w' = Done r w'' ->
                     mpp_buf_slot_get_decoding w'' = Done (MPP_OK, i) w'').
Proof.
  intros Hi Hi32 He Hvalid.
  assert (Hcases := set_decoding_cases i src w).
  destruct (Z.ltb_spec i (count (impl w))) as [_ | Hge]; [| lia].
  rewrite He in Hcases. cbv zeta in Hcases.
  assert (Hgen : forall a h',
             mpp_buf_slot_set_decoding i (Some src) w =
             Done MPP_OK
               (mkWorld (with_output
                           (impl (set_cell w i
                                    (with_frame
                                       (with_status e
                                          (set_flag (status e) MPP_SLOT_USED_AS_DECODING))
                                       (Some a))))
                           (s32 i)) h' (trace w)) ->
             h' !! a = Some src ->
             (frame e = None -> a = length (heap w) /\ h' = heap w ++ [src]) ->
             (forall a0, frame e = Some a0 -> a = a0 /\ h' = <[a0 := src]> (heap w)) ->
             exists w' a,
               mpp_buf_slot_set_decoding i (Some src) w = Done MPP_OK w' /\
               (frame e = None -> a = length (heap w) /\ heap w' = heap w ++ [src]) /\
               (forall a0, frame e = Some a0 -> a = a0 /\ heap w' = <[a0 := src]> (heap w)) /\
               cell_at (impl w') i =
                 Some (with_frame (with_status e (set_flag (status e) MPP_SLOT_USED_AS_DECODING))
                         (Some a)) /\
               Z.testbit (set_flag (status e) MPP_SLOT_USED_AS_DECODING) 2 = true /\
               heap w' !! a = Some src /\
               (forall e', cell_at (impl w') i = Some e' -> bound_buffer w' e' = buffer src) /\
               (forall j, j <> i -> cell_at (impl w') j = cell_at (impl w) j) /\
               trace w' = trace w /\
               mpp_buf_slot_get_decoding w' = Done (MPP_OK, i) w' /\
               (forall o r w'', (forall j f, o <> SetDecoding j f) ->
                                run_op o w' = Done r w'' ->
                                mpp_buf_slot_get_decoding w'' = Done (MPP_OK, i) w'')).
  { intros a h' Hrun Hha Hnone Hsome.
    set (e1 := with_frame (with_status e (set_flag (status e) MPP_SLOT_USED_AS_DECODING))
                 (Some a)) in *.
    set (w' := mkWorld (with_output (impl (set_cell w i e1)) (s32 i)) h' (trace w)) in *.
    assert (Hcell : forall j, cell_at (impl w') j =
                              if decide (j = i) then Some e1 else cell_at (impl w) j).
    { intros j. unfold w'. unfold cell_at at 1. cbn [impl slots with_output].
      fold (cell_at (impl (set_cell w i e1)) j). apply (cell_at_set_cell w i e). assumption. }
    assert (Hi' : cell_at (impl w') i = Some e1).
    { rewrite Hcell. destruct (decide (i = i)); [reflexivity | contradiction]. }
    assert (Hget : mpp_buf_slot_get_decoding w' = Done (MPP_OK, i) w').
    { unfold mpp_buf_slot_get_decoding, bind, get_impl, ret.
      unfold w' at 1. cbn [impl output with_output]. rewrite u32_s32 by lia. reflexivity. }
    exists w', a. split; [exact Hrun |]. split; [exact Hnone |]. split; [exact Hsome |].
    split; [exact Hi' |].
    split; [rewrite testbit_set_flag; apply orb_true_r |].
    split; [exact Hha |]. split; [| split; [| split; [| split]]].
    - intros e' He'. rewrite Hi' in He'. injection He' as <-.
      unfold bound_buffer. unfold e1, w'. cbn [frame with_frame heap]. rewrite Hha. reflexivity.
    - intros j Hj. rewrite Hcell. destruct (decide (j = i)); [contradiction | reflexivity].
    - reflexivity.
    - exact Hget.
    - intros o r w'' Hno Hrun'.
      apply (output_kept _ _ _ _ Hno) in Hrun'.
      unfold mpp_buf_slot_get_decoding, bind, get_impl, ret.
      rewrite Hrun'. unfold w'. cbn [impl output with_output].
      rewrite u32_s32 by lia. reflexivity. }
  destruct (frame e) as [a |] eqn:Hf.
  - pose proof (Hvalid a eq_refl) as Ha.
    destruct (decide (a < length (heap w))%nat); [| contradiction].
    apply (Hgen a (<[a := src]> (heap w)) Hcases).
    + apply list_lookup_insert_eq. assumption.
    + discriminate.
    + intros a0 [= <-]. split; reflexivity.
  - apply (Hgen (length (heap w)) (heap w ++ [src]) Hcases).
    + rewrite lookup_app_r by lia. rewrite Nat.sub_diag. reflexivity.
    + intros _. split; reflexivity.
    + discriminate.
Qed.

Lemma C9_set_decoding_witness :
  exists w w',
    world_after [Setup 4 1024 0; GetUnused; GetUnused] blank = Some w /\
    mpp_buf_slot_set_decoding 1 (Some (mkFrame (Some 3%nat) 7)) w = Done MPP_OK w' /\
    cell_at (impl w') 1 = Some (mkEntry 5 1 (Some 0%nat)) /\
    heap w' = [mkFrame (Some 3%nat) 7] /\
    mpp_buf_slot_get_decoding w' = Done (MPP_OK, 1) w'.
Proof.
  eexists.
  match goal with
  | |- exists w', world_after ?l ?b = Some ?w /\ _ =>
      let r := eval vm_compute in (world_after l b) in
      match r with Some ?x => unify w x end
  end.
  match goal with
  | |- exists w', _ = Some ?w /\ _ =>
      destruct (C9_set_decoding_copies_frame w 1 (mkEntry 1 1 None) (mkFrame (Some 3%nat) 7))
        as (w' & a & Hrun & Hnone & _ & Hcell & _ & _ & _ & _ & _ & Hget & _)
  end.
  - simpl. lia.
  - lia.
  - reflexivity.
  - discriminate.
  - destruct (Hnone eq_refl) as [-> Hheap].
    exists w'. split; [vm_compute; reflexivity |]. split; [exact Hrun |].
    split; [exact Hcell |]. split; [exact Hheap | exact Hget].
Defined.

(** C9 as stated fails: the copy takes the buffer field along.  A second
    [set_decoding] on a slot whose frame has a buffer bound replaces the
    binding with the one of the caller's frame (here none). *)
Lemma C9_counterexample_binding_overwritten :
  exists w1 w2 e1 e2,
    world_after [Setup 4 1024 0; GetUnused; SetDecoding 0 (mkFrame None 7);
                 SetBuffer 0 5] blank = Some w1 /\
    cell_at (impl w1) 0 = Some e1 /\ bound_buffer w1 e1 = Some 5%nat /\
    mpp_buf_slot_set_decoding 0 (Some (mkFrame None 8)) w1 = Done MPP_OK w2 /\
    cell_at (impl w2) 0 = Some e2 /\ frame e2 = frame e1 /\
    bound_buffer w2 e2 = None /\
    trace w2 = [Buffer_inc_ref (Some 5%nat)].
Proof.
  eexists. eexists. eexists. eexists. split; [vm_compute; reflexivity |].
  split; [reflexivity |]. split; [reflexivity |].
  split; [vm_compute; reflexivity |].
  split; [reflexivity |]. split; [reflexivity |]. split; reflexivity.
Qed.

(** * Further properties of the interface *)

(** ** Indices outside the pool *)

Lemma run_op_out_of_range w o i :
  op_index o = Some i -> count (impl w) <= i ->
  run_op o w = Abort Assert_index_lt_count w.
Proof.
  intros Ho Hi. apply Z.ltb_ge in Hi.
  destruct o; try discriminate Ho; injection Ho as ->; cbn [run_op]; unfold bind at 1.
  - rewrite set_ref_cases, Hi. reflexivity.
  - rewrite clr_ref_cases, Hi. reflexivity.
  - rewrite set_decoding_cases, Hi. reflexivity.
  - rewrite clr_decoding_cases, Hi. reflexivity.
  - rewrite set_buffer_cases, Hi. reflexivity.
  - rewrite set_display_cases, Hi. reflexivity.
Qed.

(** X1. An operation called with a slot index that is not below
    [impl->count] stops at its [index < impl->count] assertion and leaves
    the pool, the frame objects and the allocator untouched; the same holds
    for [mpp_buf_slot_get_buffer]. *)
Theorem X1_index_out_of_range w o i :
  op_index o = Some i -> count (impl w) <= i ->
  run_op o w = Abort Assert_index_lt_count w /\
  mpp_buf_slot_get_buffer i w = Abort Assert_index_lt_count w.
Proof.
  intros Ho Hi. split; [apply (run_op_out_of_range w o i); assumption |].
  apply Z.ltb_ge in Hi.
  unfold mpp_buf_slot_get_buffer. rewrite slot_prologue, Hi. reflexivity.
Qed.

Lemma X1_witness :
  exists w,
    world_after [Setup 4 1024 0; GetUnused] blank = Some w /\
    run_op (SetRef 4) w = Abort Assert_index_lt_count w /\
    mpp_buf_slot_get_buffer 4 w = Abort Assert_index_lt_count w.
Proof.
  eexists. split; [vm_compute; reflexivity |].
  apply (X1_index_out_of_range _ (SetRef 4) 4); [reflexivity | vm_compute; discriminate].
Defined.

(** ** The calls that return *)

Lemma checked_iff pos w w' :
  (exists f, check_entry_unused pos w = Done f w') <-> checked w pos w'.
Proof.
  rewrite check_entry_unused_cases. split.
  - intros (f & H).
    destruct (cell_at (impl w) pos) as [e |] eqn:He; [| discriminate].
    destruct (Z.eqb_spec (status e) MPP_SLOT_USED) as [Hu | Hn].
    + destruct (frame e) as [a |] eqn:Hf; [| discriminate].
      destruct (heap w !! a) as [ob |] eqn:Hob; [| discriminate].
      injection H as _ <-. eapply checked_released; eassumption.
    + injection H as _ <-. eapply checked_kept; eassumption.
  - intros [e He Hn | e a ob He Hu Hf Hob]; rewrite He.
    + destruct (Z.eqb_spec (status e) MPP_SLOT_USED); [contradiction |]. eauto.
    + rewrite Hu, Hf, Hob. cbn. eauto.
Qed.

Lemma get_unused_loop_first n : forall i w r w',
  get_unused_loop n i w = Done r w' ->
  (r = None /\ w' = w /\
   forall j, i <= j < i + Z.of_nat n ->
             exists e', cell_at (impl w) j = Some e' /\ status e' <> MPP_SLOT_UNUSED) \/
  exists k e, r = Some k /\ i <= k < i + Z.of_nat n /\
              cell_at (impl w) k = Some e /\ status e = MPP_SLOT_UNUSED /\
              (forall j, i <= j < k ->
                         exists e', cell_at (impl w) j = Some e' /\
                                    status e' <> MPP_SLOT_UNUSED) /\
              w' = set_cell w k (with_status e MPP_SLOT_USED).
Proof.
  induction n as [| n IH]; intros i w r w' Hrun.
  - injection Hrun as <- <-. left. repeat split. intros j Hj. lia.
  - cbn [get_unused_loop] in Hrun. unfold bind at 1, load in Hrun.
    destruct (cell_at (impl w) i) as [e |] eqn:He; [| discriminate].
    destruct (Z.eqb_spec MPP_SLOT_UNUSED (status e)) as [Hfree | Hbusy].
    + unfold bind in Hrun. rewrite (store_set_cell w i e) in Hrun by assumption.
      injection Hrun as <- <-. right. exists i, e.
      rewrite <- Hfree. repeat split; auto; try lia.
    + apply IH in Hrun as [(-> & -> & Hall) | (k & e0 & -> & Hk & He0 & Hst & Hlow & ->)].
      * left. repeat split. intros j Hj.
        destruct (decide (j = i)) as [-> | Hne]; [eauto |]. apply Hall. lia.
      * right. exists k, e0. repeat split; auto; try lia. intros j Hj.
        destruct (decide (j = i)) as [-> | Hne]; [eauto |]. apply Hlow. lia.
Qed.

(** A per-frame call returns exactly as [op_done] lists. *)
Lemma run_op_done o w r w' :
  per_frame o = true -> run_op o w = Done r w' -> op_done w o r w'.
Proof.
  intros Hpf Hrun. destruct o as [c s ch | | | i | i | i src | i | i b | i |];
    try discriminate Hpf; cbn [run_op] in Hrun;
    apply bind_ret_inv in Hrun as (r0 & Hrun & ->).
  - (* get_unused *)
    unfold mpp_buf_slot_get_unused in Hrun.
    apply bind_Done_inv in Hrun as (p & w1 & Hp & Hrun). injection Hp as <- <-.
    apply bind_Done_inv in Hrun as (res & w1 & Hloop & Hrun).
    apply get_unused_loop_first in Hloop
      as [(-> & -> & _) | (k & e & -> & Hk & He & Hst & Hlow & ->)].
    + discriminate Hrun.
    + injection Hrun as <- <-. cbn [fst snd].
      apply done_get_unused; auto. lia.
  - (* set_ref *)
    rewrite set_ref_cases in Hrun.
    destruct (Z.ltb_spec i (count (impl w))); [| discriminate].
    destruct (cell_at (impl w) i) as [e |] eqn:He; [| discriminate].
    injection Hrun as <- <-. apply done_set_ref; assumption.
  - (* clr_ref *)
    rewrite clr_ref_cases in Hrun.
    destruct (Z.ltb_spec i (count (impl w))); [| discriminate].
    destruct (cell_at (impl w) i) as [e |] eqn:He; [| discriminate].
    apply bind_ret_inv in Hrun as (f & Hrun & ->).
    eapply done_clr_ref; [assumption | eassumption |].
    apply checked_iff. eauto.
  - (* set_decoding *)
    rewrite set_decoding_cases in Hrun.
    destruct (Z.ltb_spec i (count (impl w))); [| discriminate].
    destruct (cell_at (impl w) i) as [e |] eqn:He; [| discriminate].
    cbv zeta in Hrun.
    destruct (frame e) as [a |] eqn:Hf.
    + destruct (decide (a < length (heap w))%nat); [| discriminate].
      injection Hrun as <- <-. eapply done_set_decoding_old; eassumption.
    + injection Hrun as <- <-. apply done_set_decoding_new; assumption.
  - (* clr_decoding *)
    rewrite clr_decoding_cases in Hrun.
    destruct (Z.ltb_spec i (count (impl w))); [| discriminate].
    destruct (cell_at (impl w) i) as [e |] eqn:He; [| discriminate].
    cbv zeta in Hrun.
    apply bind_ret_inv in Hrun as (f & Hrun & ->).
    eapply done_clr_decoding; [assumption | eassumption |].
    apply checked_iff. eauto.
  - (* set_buffer *)
    rewrite set_buffer_cases in Hrun.
    destruct (Z.ltb_spec i (count (impl w))); [| discriminate].
    destruct (cell_at (impl w) i) as [e |] eqn:He; [| discriminate].
    destruct (frame e) as [a |] eqn:Hf; [| discriminate].
    destruct (heap w !! a) as [ob |] eqn:Hob; [| discriminate].
    injection Hrun as <- <-. eapply done_set_buffer; eassumption.
  - (* set_display *)
    rewrite set_display_cases in Hrun.
    destruct (Z.ltb_spec i (count (impl w))); [| discriminate].
    destruct (cell_at (impl w) i) as [e |] eqn:He; [| discriminate].
    destruct (list_init e) eqn:Hli; [| discriminate].
    injection Hrun as <- <-. apply done_set_display; assumption.
  - (* get_display *)
    rewrite get_display_cases in Hrun.
    destruct (display (impl w)) as [| h d] eqn:Hd.
    + injection Hrun as <- <-. apply done_get_display_empty. assumption.
    + destruct (cell_at (impl w) h) as [e |] eqn:He; [| discriminate].
      destruct (Z.ltb_spec (u32 (index e)) (count (impl w))); [| discriminate].
      cbv zeta in Hrun.
      destruct (check_entry_unused h _) as [f w3 | |] eqn:Hchk; [| discriminate | discriminate].
      injection Hrun as <- <-. cbn [fst snd].
      eapply done_get_display; [eassumption | eassumption | assumption |].
      apply checked_iff. eauto.
Qed.

Lemma op_done_run o w r w' : op_done w o r w' -> run_op o w = Done r w'.
Proof.
  intros [k e Hk He Hst Hlow | i e Hi He | i e w1 Hi He Hc | i e src Hi He Hf e1
         | i e src a Hi He Hf Ha e1 | i e w1 Hi He w0 Hc | i e b a ob Hi He Hf Hob
         | i e Hi He Hli w1 | Hd | h t e w3 Hd He Hi w1 Hc]; cbn [run_op]; unfold bind at 1.
  - unfold mpp_buf_slot_get_unused, bind, get_impl.
    destruct (slots (impl w)) as [tb |] eqn:Ht;
      [| unfold cell_at in He; rewrite Ht in He; discriminate].
    rewrite (get_unused_loop_found _ 0 w tb k e) by (auto; lia).
    unfold set_cell. rewrite Ht. reflexivity.
  - rewrite set_ref_cases. apply Z.ltb_lt in Hi. rewrite Hi, He. reflexivity.
  - rewrite clr_ref_cases. apply Z.ltb_lt in Hi. rewrite Hi, He.
    apply checked_iff in Hc as (f & Hc). unfold bind. rewrite Hc. reflexivity.
  - rewrite set_decoding_cases. apply Z.ltb_lt in Hi. rewrite Hi, He. cbv zeta.
    rewrite Hf. reflexivity.
  - rewrite set_decoding_cases. apply Z.ltb_lt in Hi. rewrite Hi, He. cbv zeta.
    rewrite Hf. destruct (decide (a < length (heap w))%nat); [reflexivity | contradiction].
  - rewrite clr_decoding_cases. apply Z.ltb_lt in Hi. rewrite Hi, He. cbv zeta.
    apply checked_iff in Hc as (f & Hc). unfold bind. fold w0. rewrite Hc. reflexivity.
  - rewrite set_buffer_cases. apply Z.ltb_lt in Hi. rewrite Hi, He, Hf, Hob. reflexivity.
  - rewrite set_display_cases. apply Z.ltb_lt in Hi. rewrite Hi, He, Hli. reflexivity.
  - rewrite get_display_cases, Hd. reflexivity.
  - rewrite get_display_cases, Hd, He. apply Z.ltb_lt in Hi. rewrite Hi. cbv zeta.
    apply checked_iff in Hc as (f & Hc). fold w1. rewrite Hc. reflexivity.
Qed.

(** ** The geometry is negotiated by [setup] and [ready] alone *)

Lemma geometry_set_cell w pos e : geometry (impl (set_cell w pos e)) = geometry (impl w).
Proof.
  unfold set_cell. destruct (slots (impl w)) as [t |] eqn:Ht; [| reflexivity].
  unfold geometry. cbn. rewrite Ht. cbn. rewrite length_insert. reflexivity.
Qed.

Lemma checked_geometry w pos w' : checked w pos w' -> geometry (impl w') = geometry (impl w).
Proof.
  intros [e He Hn | e a ob He Hu Hf Hob]; [reflexivity |].
  cbn [impl log_call]. apply geometry_set_cell.
Qed.

Lemma op_done_geometry w o r w' : op_done w o r w' -> geometry (impl w') = geometry (impl w).
Proof.
  intros [k e Hk He Hst Hlow | i e Hi He | i e w1 Hi He Hc | i e src Hi He Hf e1
         | i e src a Hi He Hf Ha e1 | i e w1 Hi He w0 Hc | i e b a ob Hi He Hf Hob
         | i e Hi He Hli w1 | Hd | h t e w3 Hd He Hi w1 Hc].
  - apply geometry_set_cell.
  - apply geometry_set_cell.
  - apply checked_geometry in Hc. rewrite Hc. apply geometry_set_cell.
  - exact (geometry_set_cell w i e1).
  - exact (geometry_set_cell w i e1).
  - apply checked_geometry in Hc. rewrite Hc. exact (geometry_set_cell w i _).
  - reflexivity.
  - exact (geometry_set_cell w i _).
  - reflexivity.
  - apply checked_geometry in Hc.
    change (geometry (impl w3) = geometry (impl w)). rewrite Hc.
    exact (geometry_set_cell w h _).
Qed.

Lemma run_ops_cons o l w rs w' :
  run_ops (o :: l) w = Done rs w' ->
  exists r w1 rs', run_op o w = Done r w1 /\ run_ops l w1 = Done rs' w' /\ rs = r :: rs'.
Proof.
  cbn [run_ops]. intros H.
  apply bind_Done_inv in H as (r & w1 & Hr & H).
  apply bind_ret_inv in H as (rs' & H & ->). eauto 6.
Qed.

Lemma per_frame_run_geometry l : forall w rs w',
  forallb per_frame l = true -> run_ops l w = Done rs w' ->
  geometry (impl w') = geometry (impl w).
Proof.
  induction l as [| o l IH]; intros w rs w' Hpf Hrun.
  - injection Hrun as _ <-. reflexivity.
  - cbn [forallb] in Hpf. apply andb_prop in Hpf as [Ho Hl].
    apply run_ops_cons in Hrun as (r & w1 & rs' & Hr & Hrun & _).
    rewrite (IH _ _ _ Hl Hrun). apply (op_done_geometry w o r), run_op_done; assumption.
Qed.

(** X2. The per-frame operations never renegotiate the pool: through any
    run of them the count, the size, the staged change and the length of
    the slot array stay as they were, so [mpp_buf_slot_get_size] and
    [mpp_buf_slot_is_changed] keep answering what they answered before. *)
Theorem X2_per_frame_keeps_geometry l : forall w rs w',
  forallb per_frame l = true -> run_ops l w = Done rs w' ->
  geometry (impl w') = geometry (impl w) /\
  mpp_buf_slot_get_size w' = Done (size (impl w)) w' /\
  mpp_buf_slot_is_changed w' = Done (info_changed (impl w)) w'.
Proof.
  intros w rs w' Hpf Hrun. pose proof (per_frame_run_geometry l w rs w' Hpf Hrun) as Hgeo.
  split; [exact Hgeo |]. unfold geometry in Hgeo. injection Hgeo as _ Hs Hi _ _ _.
  unfold mpp_buf_slot_get_size, mpp_buf_slot_is_changed, bind, get_impl, ret.
  rewrite Hs, Hi. split; reflexivity.
Qed.

Lemma X2_witness :
  exists w rs w',
    world_after [Setup 4 1024 0] blank = Some w /\
    run_ops [GetUnused; SetDecoding 0 (mkFrame None 7); SetBuffer 0 5; SetDisplay 0;
             ClrDecoding 0; GetDisplay] w = Done rs w' /\
    geometry (impl w') = geometry (impl w) /\
    mpp_buf_slot_get_size w' = Done 1024 w' /\
    mpp_buf_slot_is_changed w' = Done 0 w'.
Proof.
  eexists _, _, _. split; [vm_compute; reflexivity |].
  split; [vm_compute; reflexivity |].
  eapply (X2_per_frame_keeps_geometry
            [GetUnused; SetDecoding 0 (mkFrame None 7); SetBuffer 0 5; SetDisplay 0;
             ClrDecoding 0; GetDisplay]); [reflexivity | vm_compute; reflexivity].
Defined.

(** ** A change of geometry: staged by [setup], committed by [ready] *)

Lemma setup_changed w t c s ch :
  slots (impl w) = Some t -> ch <> 0 ->
  mpp_buf_slot_setup c s ch w =
  Done MPP_OK (with_impl w (with_info_changed (with_staged (impl w) c s) 1)).
Proof.
  intros Ht Hch. unfold mpp_buf_slot_setup, bind, get_impl. rewrite Ht.
  destruct (Z.eqb_spec ch 0); [contradiction | reflexivity].
Qed.

(** X3. On a pool that is set up, [setup] with [changed] set only stages
    the new count and size: the geometry in force and the slots stay, and
    [is_changed] answers 1.  The staged change survives any run of per-frame
    operations.  When the staged count is the current one the next [ready]
    commits it, whatever the slots hold: the size is the staged one,
    [is_changed] answers 0, and slots, display queue, frames and allocator
    calls are as they were. *)
Theorem X3_staged_change_commits w t c s ch :
  slots (impl w) = Some t -> ch <> 0 ->
  exists w1,
    mpp_buf_slot_setup c s ch w = Done MPP_OK w1 /\
    count (impl w1) = count (impl w) /\ slots (impl w1) = Some t /\
    display (impl w1) = display (impl w) /\
    heap w1 = heap w /\ trace w1 = trace w /\
    mpp_buf_slot_get_size w1 = Done (size (impl w)) w1 /\
    mpp_buf_slot_is_changed w1 = Done 1 w1 /\
    forall l rs w2,
      forallb per_frame l = true -> run_ops l w1 = Done rs w2 ->
      count (impl w2) = count (impl w) /\
      mpp_buf_slot_get_size w2 = Done (size (impl w)) w2 /\
      mpp_buf_slot_is_changed w2 = Done 1 w2 /\
      (c = count (impl w) ->
       exists w3,
         mpp_buf_slot_ready w2 = Done MPP_OK w3 /\
         count (impl w3) = c /\
         mpp_buf_slot_get_size w3 = Done s w3 /\
         mpp_buf_slot_is_changed w3 = Done 0 w3 /\
         slots (impl w3) = slots (impl w2) /\
         display (impl w3) = display (impl w2) /\
         heap w3 = heap w2 /\ trace w3 = trace w2).
Proof.
  intros Ht Hch. eexists. split; [apply (setup_changed w t); assumption |].
  set (w1 := with_impl w _).
  do 7 (split; [reflexivity || assumption |]).
  intros l rs w2 Hpf Hrun.
  pose proof (per_frame_run_geometry l w1 rs w2 Hpf Hrun) as Hgeo.
  unfold geometry in Hgeo. cbn in Hgeo. injection Hgeo as Hcnt Hsz Hic Hnc Hns Hlen.
  rewrite Ht in Hlen. destruct (slots (impl w2)) as [t2 |] eqn:Ht2; [| discriminate].
  split; [exact Hcnt |].
  split; [unfold mpp_buf_slot_get_size, bind, get_impl, ret; rewrite Hsz; reflexivity |].
  split; [unfold mpp_buf_slot_is_changed, bind, get_impl, ret; rewrite Hic; reflexivity |].
  intros Heq.
  destruct (ready_staged w2 t2) as (Hsame & _); [lia | exact Ht2 |].
  cbv zeta in Hsame. rewrite Hnc, Hns in Hsame.
  eexists. split; [apply Hsame; lia |].
  split; [reflexivity |]. split; [reflexivity |]. split; [reflexivity |].
  split; [reflexivity |]. repeat split; reflexivity.
Qed.

Lemma X3_witness :
  exists w w1,
    world_after [Setup 4 1024 0; GetUnused] blank = Some w /\
    mpp_buf_slot_setup 4 2048 1 w = Done MPP_OK w1 /\
    count (impl w1) = 4 /\
    mpp_buf_slot_get_size w1 = Done 1024 w1 /\
    mpp_buf_slot_is_changed w1 = Done 1 w1 /\
    exists w3, mpp_buf_slot_ready w1 = Done MPP_OK w3 /\
               mpp_buf_slot_get_size w3 = Done 2048 w3 /\
               mpp_buf_slot_is_changed w3 = Done 0 w3 /\
               slots (impl w3) = slots (impl w).
Proof.
  eexists.
  match goal with
  | |- exists w', world_after ?l ?b = Some ?w /\ _ =>
      let r := eval vm_compute in (world_after l b) in
      match r with Some ?x => unify w x end
  end.
  match goal with
  | |- exists w', _ = Some ?w /\ _ =>
      destruct (X3_staged_change_commits w
                  [Some (mkEntry 1 0 None); Some (mkEntry 0 1 None);
                   Some (mkEntry 0 2 None); Some (mkEntry 0 3 None)] 4 2048 1)
        as (w1 & Hs & Hc & Hsl & _ & _ & _ & Hsz & Hi & Hrun)
  end.
  - reflexivity.
  - discriminate.
  - exists w1. split; [vm_compute; reflexivity |].
    split; [exact Hs |]. split; [exact Hc |]. split; [exact Hsz |]. split; [exact Hi |].
    destruct (Hrun [] [] w1 eq_refl eq_refl) as (_ & _ & _ & Hready).
    destruct (Hready eq_refl) as (w3 & Hr & _ & Hsz3 & Hi3 & Hsl3 & _).
    exists w3. split; [exact Hr |]. split; [exact Hsz3 |]. split; [exact Hi3 |].
    rewrite Hsl3, Hsl. reflexivity.
Defined.

(** ** [setup] on a pool that is already set up, nothing changed *)

Lemma init_slot_loop_only_slots n : forall pos i w w',
  init_slot_loop n pos i w = Done tt w' ->
  exists t', w' = with_impl w (with_slots (impl w) t').
Proof.
  induction n as [| n IH]; intros pos i w w' Hrun.
  - injection Hrun as <-. exists (slots (impl w)). destruct w as [[] ? ?]. reflexivity.
  - cbn [init_slot_loop] in Hrun.
    apply bind_Done_inv in Hrun as ([] & w1 & Hst & Hrun).
    apply store_inv in Hst as (t & Ht & _ & ->).
    apply IH in Hrun as (t' & ->). exists t'. reflexivity.
Qed.

(** [setup] asked for more slots with [changed] clear: the array
    [mpp_realloc] answers is dropped and [init_slot_entry] runs on
    [impl->slots], the array given back. *)
Lemma setup_grow w t c :
  slots (impl w) = Some t -> count (impl w) < c ->
  (0 < s32 (u32 (c - count (impl w))) ->
   mpp_buf_slot_setup c (size (impl w)) 0 w = Fault) /\
  (s32 (u32 (c - count (impl w))) <= 0 ->
   mpp_buf_slot_setup c (size (impl w)) 0 w =
   Done MPP_OK (with_impl w (with_slots (impl w) (Some [])))).
Proof.
  intros Ht Hc.
  assert (Hopen : mpp_buf_slot_setup c (size (impl w)) 0 w =
                  match init_slot_entry (count (impl w)) (u32 (c - count (impl w)))
                          (with_impl w (with_slots (impl w) (Some []))) with
                  | Done _ w2 => Done MPP_OK w2
                  | Abort a w2 => Abort a w2
                  | Fault => Fault
                  end).
  { unfold mpp_buf_slot_setup, bind at 1, get_impl. rewrite Ht. cbn [Z.eqb].
    unfold bind at 1. unfold bind at 1, mpp_assert. rewrite Z.eqb_refl.
    destruct (Z.ltb_spec (count (impl w)) c); [| lia].
    unfold bind at 1.
    destruct (mpp_realloc_Done c w t Ht) as (t' & ->).
    destruct (init_slot_entry _ _ _); reflexivity. }
  split; intros Hn; rewrite Hopen; unfold init_slot_entry.
  - destruct (Z.to_nat (s32 (u32 (c - count (impl w))))) as [| n] eqn:Hk; [lia |].
    rewrite init_slot_loop_stale by reflexivity. reflexivity.
  - replace (Z.to_nat (s32 (u32 (c - count (impl w))))) with 0%nat by lia.
    reflexivity.
Qed.

(** Whatever [setup] is asked on a pool that is set up, the count and the
    size in force stay. *)
Lemma setup_keeps_count w c s ch r w' :
  slots (impl w) <> None -> mpp_buf_slot_setup c s ch w = Done r w' ->
  r = MPP_OK /\ count (impl w') = count (impl w) /\ size (impl w') = size (impl w).
Proof.
  intros Hs Hrun. unfold mpp_buf_slot_setup in Hrun.
  apply bind_Done_inv in Hrun as (p & w1 & Hp & Hrun). injection Hp as <- <-.
  apply bind_Done_inv in Hrun as ([] & w1 & Hbody & Hrun). injection Hrun as <- <-.
  split; [reflexivity |].
  destruct (slots (impl w)) as [t |]; [| contradiction].
  destruct (ch =? 0).
  - apply bind_Done_inv in Hbody as ([] & w2 & Has & Hbody).
    unfold mpp_assert in Has. destruct (s =? size (impl w)); [| discriminate].
    injection Has as <-.
    destruct (count (impl w) <? c).
    + apply bind_Done_inv in Hbody as (t' & w2 & Hre & Hbody).
      apply mpp_realloc_inv in Hre as (t0 & ->).
      apply init_slot_loop_only_slots in Hbody as (t1 & ->). split; reflexivity.
    + injection Hbody as <-. split; reflexivity.
  - injection Hbody as <-. split; reflexivity.
Qed.

(** X4. [setup] never grows a pool.  Called with [changed] clear, the
    current size and a larger count, it drops the array [mpp_realloc]
    answers and has [init_slot_entry] write the added entries through
    [impl->slots], which still points to the array given to [mpp_realloc]:
    the call has no defined behaviour.  And whatever [setup] is asked on a
    pool that is set up, when it returns the count and the size in force
    are as before. *)
Theorem X4_setup_never_grows_the_pool w t c :
  slots (impl w) = Some t -> 0 <= count (impl w) < c -> c < 2 ^ 31 ->
  mpp_buf_slot_setup c (size (impl w)) 0 w = Fault /\
  (forall c' s' ch' r w',
      mpp_buf_slot_setup c' s' ch' w = Done r w' ->
      r = MPP_OK /\ count (impl w') = count (impl w) /\ size (impl w') = size (impl w)).
Proof.
  intros Ht Hc Hmax. split.
  - apply (proj1 (setup_grow w t c Ht ltac:(lia))).
    assert (Hu : u32 (c - count (impl w)) = c - count (impl w)).
    { unfold u32. apply Z.mod_small. lia. }
    rewrite Hu, s32_small by lia. lia.
  - intros c' s' ch' r w'. apply setup_keeps_count. rewrite Ht. discriminate.
Qed.

Lemma X4_witness :
  exists w,
    world_after [Setup 2 1024 0; GetUnused; GetUnused] blank = Some w /\
    mpp_buf_slot_setup 4 1024 0 w = Fault.
Proof.
  eexists.
  match goal with
  | |- world_after ?l ?b = Some ?w /\ _ =>
      let r := eval vm_compute in (world_after l b) in
      match r with Some ?x => unify w x end
  end.
  split; [vm_compute; reflexivity |].
  match goal with
  | |- mpp_buf_slot_setup _ _ _ ?w = _ =>
      apply (X4_setup_never_grows_the_pool w
               [Some (mkEntry 1 0 None); Some (mkEntry 1 1 None)] 4)
  end.
  - reflexivity.
  - simpl. lia.
  - lia.
Defined.

(** X5. [setup] with [changed] clear never alters the geometry in force:
    a size other than the current one fails the [size == impl->size]
    assertion, and with the current size a count that is not larger than
    the current one is ignored, the call returning [MPP_OK] with nothing
    changed. *)
Theorem X5_setup_unchanged_is_checked w t c s :
  slots (impl w) = Some t ->
  (s <> size (impl w) -> mpp_buf_slot_setup c s 0 w = Abort Assert_size_unchanged w) /\
  (s = size (impl w) -> c <= count (impl w) -> mpp_buf_slot_setup c s 0 w = Done MPP_OK w).
Proof.
  intros Ht. unfold mpp_buf_slot_setup, bind, get_impl. rewrite Ht. cbn [Z.eqb].
  unfold mpp_assert. split.
  - intros Hs. destruct (Z.eqb_spec s (size (impl w))); [contradiction | reflexivity].
  - intros -> Hc. rewrite Z.eqb_refl.
    destruct (Z.ltb_spec (count (impl w)) c); [lia | reflexivity].
Qed.

Lemma X5_witness :
  exists w,
    world_after [Setup 4 1024 0; GetUnused] blank = Some w /\
    mpp_buf_slot_setup 4 2048 0 w = Abort Assert_size_unchanged w /\
    mpp_buf_slot_setup 2 1024 0 w = Done MPP_OK w.
Proof.
  eexists.
  match goal with
  | |- world_after ?l ?b = Some ?w /\ _ =>
      let r := eval vm_compute in (world_after l b) in
      match r with Some ?x => unify w x end
  end.
  split; [vm_compute; reflexivity |].
  match goal with
  | |- mpp_buf_slot_setup _ _ _ ?w = _ /\ _ =>
      split;
      [ apply (proj1 (X5_setup_unchanged_is_checked w
                        [Some (mkEntry 1 0 None); Some (mkEntry 0 1 None);
                         Some (mkEntry 0 2 None); Some (mkEntry 0 3 None)] 4 2048 eq_refl));
        discriminate
      | apply (proj2 (X5_setup_unchanged_is_checked w
                        [Some (mkEntry 1 0 None); Some (mkEntry 0 1 None);
                         Some (mkEntry 0 2 None); Some (mkEntry 0 3 None)] 2 1024 eq_refl));
        [reflexivity | simpl; lia] ]
  end.
Defined.

(** ** What [setup] and [ready] leave alone *)

Lemma setup_only_impl c s ch w r w' :
  mpp_buf_slot_setup c s ch w = Done r w' ->
  heap w' = heap w /\ trace w' = trace w /\
  decode_count (impl w') = decode_count (impl w) /\
  display_count (impl w') = display_count (impl w) /\
  display (impl w') = display (impl w).
Proof.
  unfold mpp_buf_slot_setup. intros Hrun.
  apply bind_Done_inv in Hrun as (p & w1 & Hp & Hrun). injection Hp as <- <-.
  apply bind_Done_inv in Hrun as ([] & w1 & Hbody & Hrun). injection Hrun as _ <-.
  destruct (slots (impl w)) as [t |].
  - destruct (ch =? 0).
    + apply bind_Done_inv in Hbody as ([] & w2 & Has & Hbody).
      unfold mpp_assert in Has. destruct (s =? size (impl w)); [| discriminate].
      injection Has as <-.
      destruct (count (impl w) <? c).
      * apply bind_Done_inv in Hbody as (t0 & w2 & Hre & Hbody).
        apply mpp_realloc_inv in Hre as (t1 & ->).
        apply init_slot_loop_only_slots in Hbody as (t' & ->). repeat split.
      * injection Hbody as <-. repeat split.
    + injection Hbody as <-. repeat split.
  - apply bind_Done_inv in Hbody as ([] & w2 & Hput & Hbody). injection Hput as <-.
    apply init_slot_loop_only_slots in Hbody as (t' & ->). repeat split.
Qed.

Lemma ready_only_impl w r w' :
  mpp_buf_slot_ready w = Done r w' ->
  heap w' = heap w /\ trace w' = trace w /\
  decode_count (impl w') = decode_count (impl w) /\
  display_count (impl w') = display_count (impl w) /\
  display (impl w') = display (impl w).
Proof.
  unfold mpp_buf_slot_ready. intros Hrun.
  apply bind_Done_inv in Hrun as (p & w1 & Hp & Hrun). injection Hp as <- <-.
  apply bind_Done_inv in Hrun as ([] & w1 & Has & Hrun).
  unfold mpp_assert in Has. destruct (negb _); [| discriminate]. injection Has as <-.
  apply bind_Done_inv in Hrun as ([] & w1 & Has & Hrun).
  unfold mpp_assert in Has. destruct (bool_decide _); [| discriminate]. injection Has as <-.
  cbv zeta in Hrun.
  apply bind_Done_inv in Hrun as ([] & w1 & Hput & Hrun). injection Hput as <-.
  apply bind_Done_inv in Hrun as ([] & w2 & Hbody & Hrun).
  apply bind_Done_inv in Hrun as (p2 & w3 & Hp & Hrun). injection Hp as <- <-.
  injection Hrun as _ <-.
  destruct (negb _).
  - apply bind_Done_inv in Hbody as (t0 & w3 & Hre & Hbody).
    apply mpp_realloc_inv in Hre as (t1 & ->).
    apply init_slot_loop_only_slots in Hbody as (t' & ->). repeat split.
  - injection Hbody as <-. repeat split.
Qed.

(** ** The statistics members *)

Lemma checked_counters w pos w' :
  checked w pos w' ->
  decode_count (impl w') = decode_count (impl w) /\
  display_count (impl w') = display_count (impl w).
Proof.
  intros [e He Hn | e a ob He Hu Hf Hob]; [split; reflexivity |].
  cbn [impl log_call]. rewrite set_cell_decode_count, set_cell_display_count.
  split; reflexivity.
Qed.

Lemma op_done_counters w o r w' :
  op_done w o r w' ->
  decode_count (impl w') =
    (if is_clr_decoding o then u32 (decode_count (impl w) + 1) else decode_count (impl w)) /\
  display_count (impl w') =
    (if is_shown r then u32 (display_count (impl w) + 1) else display_count (impl w)).
Proof.
  intros [k e Hk He Hst Hlow | i e Hi He | i e w1 Hi He Hc | i e src Hi He Hf e1
         | i e src a Hi He Hf Ha e1 | i e w1 Hi He w0 Hc | i e b a ob Hi He Hf Hob
         | i e Hi He Hli w1 | Hd | h t e w3 Hd He Hi w1 Hc]; cbn [is_clr_decoding is_shown].
  - rewrite set_cell_decode_count, set_cell_display_count. split; reflexivity.
  - rewrite set_cell_decode_count, set_cell_display_count. split; reflexivity.
  - apply checked_counters in Hc as [-> ->].
    rewrite set_cell_decode_count, set_cell_display_count. split; reflexivity.
  - cbn [impl]. pose proof (set_cell_fields w i e1) as (_ & _ & _ & _ & H1 & H2 & _).
    split; [exact H1 | exact H2].
  - cbn [impl]. pose proof (set_cell_fields w i e1) as (_ & _ & _ & _ & H1 & H2 & _).
    split; [exact H1 | exact H2].
  - apply checked_counters in Hc as [-> ->]. subst w0.
    cbn [impl with_impl decode_count display_count with_decode_count].
    rewrite set_cell_decode_count, set_cell_display_count. split; reflexivity.
  - split; reflexivity.
  - subst w1. cbn [impl with_impl decode_count display_count with_display].
    rewrite set_cell_decode_count, set_cell_display_count. split; reflexivity.
  - split; reflexivity.
  - apply checked_counters in Hc as [Hdc Hpc]. subst w1.
    cbn [impl with_impl decode_count display_count with_display_count with_display] in *.
    rewrite set_cell_decode_count in Hdc. rewrite set_cell_display_count in Hpc.
    rewrite Hdc, Hpc. split; reflexivity.
Qed.

Lemma run_op_counters o w r w' :
  run_op o w = Done r w' ->
  decode_count (impl w') =
    (if is_clr_decoding o then u32 (decode_count (impl w) + 1) else decode_count (impl w)) /\
  display_count (impl w') =
    (if is_shown r then u32 (display_count (impl w) + 1) else display_count (impl w)).
Proof.
  intros Hrun. destruct (per_frame o) eqn:Hpf.
  - apply op_done_counters, run_op_done; assumption.
  - destruct o; try discriminate Hpf; cbn [run_op] in Hrun;
      apply bind_ret_inv in Hrun as (r0 & Hrun & ->); cbn [is_clr_decoding is_shown].
    + apply setup_only_impl in Hrun as (_ & _ & H1 & H2 & _). split; assumption.
    + apply ready_only_impl in Hrun as (_ & _ & H1 & H2 & _). split; assumption.
Qed.

Lemma u32_range z : 0 <= u32 z < 2 ^ 32.
Proof. unfold u32. apply Z.mod_pos_bound. lia. Qed.

Lemma u32_id z : 0 <= z < 2 ^ 32 -> u32 z = z.
Proof. intros H. unfold u32. apply Z.mod_small. exact H. Qed.

Lemma u32_add_l a b : u32 (u32 a + b) = u32 (a + b).
Proof. unfold u32. apply Z.add_mod_idemp_l. lia. Qed.

(** X6. The statistics members count calls, modulo 2^32: over any run of
    calls that all return, [decode_count] grows by the number of
    [clr_decoding] calls and [display_count] by the number of [get_display]
    calls that handed out a frame; no other call touches them. *)
Theorem X6_statistics_count_calls l : forall w rs w',
  0 <= decode_count (impl w) < 2 ^ 32 -> 0 <= display_count (impl w) < 2 ^ 32 ->
  run_ops l w = Done rs w' ->
  decode_count (impl w') = u32 (decode_count (impl w) + count_if is_clr_decoding l) /\
  display_count (impl w') = u32 (display_count (impl w) + count_if is_shown rs).
Proof.
  induction l as [| o l IH]; intros w rs w' Hdc Hpc Hrun.
  - injection Hrun as <- <-. cbn [count_if]. rewrite !Z.add_0_r, !u32_id by assumption.
    split; reflexivity.
  - apply run_ops_cons in Hrun as (r & w1 & rs' & Hr & Hrun & ->).
    apply run_op_counters in Hr as [H1 H2].
    destruct (IH w1 rs' w') as [-> ->]; [| | assumption |].
    + rewrite H1. destruct (is_clr_decoding o); [apply u32_range | assumption].
    + rewrite H2. destruct (is_shown r); [apply u32_range | assumption].
    + rewrite H1, H2. cbn [count_if]. split.
      * destruct (is_clr_decoding o); [rewrite u32_add_l |]; f_equal; lia.
      * destruct (is_shown r); [rewrite u32_add_l |]; f_equal; lia.
Qed.

Lemma X6_witness :
  exists rs w',
    run_ops [Setup 4 1024 0; GetUnused; SetDecoding 0 (mkFrame None 7); SetDisplay 0;
             GetDisplay; GetDisplay; ClrDecoding 0] blank = Done rs w' /\
    decode_count (impl w') = 1 /\ display_count (impl w') = 1.
Proof.
  eexists _, _.
  match goal with
  | |- run_ops ?l ?b = Done ?rs ?w' /\ _ =>
      let r := eval vm_compute in (run_ops l b) in
      match r with
      | Done ?x ?y =>
          unify rs x; unify w' y;
          destruct (X6_statistics_count_calls l b x y) as [H1 H2]
      end
  end.
  - simpl. lia.
  - simpl. lia.
  - vm_compute. reflexivity.
  - split; [vm_compute; reflexivity |]. split; [exact H1 | exact H2].
Defined.

(** ** The slot being decoded *)

Lemma run_op_output o w r w' :
  run_op o w = Done r w' ->
  output (impl w') = match o with
                     | SetDecoding i _ => s32 i
                     | _ => output (impl w)
                     end.
Proof.
  intros Hrun.
  destruct o as [c s ch | | | i | i | i src | i | i b | i |];
    try (eapply output_kept; [| exact Hrun]; intros; discriminate).
  apply per_frame_effect in Hrun as (_ & _ & _ & Ho); [exact Ho | reflexivity].
Qed.

(** X7. [mpp_buf_slot_get_decoding] answers the index given to the most
    recent [mpp_buf_slot_set_decoding]: after any run of calls that all
    return it is the index of the last [set_decoding] of the run, and what
    it was before the run if the run has none. *)
Theorem X7_get_decoding_is_last_set l : forall w rs w',
  (forall o i, o ∈ l -> op_index o = Some i -> 0 <= i < 2 ^ 32) ->
  run_ops l w = Done rs w' ->
  mpp_buf_slot_get_decoding w' =
  Done (MPP_OK, last_decoding l (u32 (output (impl w)))) w'.
Proof.
  unfold mpp_buf_slot_get_decoding, bind, get_impl, ret.
  induction l as [| o l IH]; intros w rs w' Hidx Hrun.
  - injection Hrun as _ <-. reflexivity.
  - apply run_ops_cons in Hrun as (r & w1 & rs' & Hr & Hrun & _).
    rewrite (IH w1 rs' w'); [| intros o' i' Hin; apply Hidx; right; exact Hin | exact Hrun].
    apply run_op_output in Hr. unfold last_decoding. cbn [fold_left]. rewrite Hr.
    destruct o; try reflexivity.
    rewrite u32_s32; [reflexivity |]. apply (Hidx (SetDecoding i f)); [left | reflexivity].
Qed.

Lemma X7_witness :
  exists rs w',
    run_ops [Setup 4 1024 0; GetUnused; GetUnused; SetDecoding 1 (mkFrame None 7);
             SetDecoding 0 (mkFrame None 8); SetRef 1; SetDisplay 1] blank = Done rs w' /\
    mpp_buf_slot_get_decoding w' = Done (MPP_OK, 0) w'.
Proof.
  eexists _, _.
  match goal with
  | |- run_ops ?l ?b = Done ?rs ?w' /\ _ =>
      let r := eval vm_compute in (run_ops l b) in
      match r with
      | Done ?x ?y =>
          unify rs x; unify w' y;
          pose proof (X7_get_decoding_is_last_set l b x y) as H
      end
  end.
  split; [vm_compute; reflexivity |]. apply H.
  - intros o i Hin Ho.
    repeat (apply elem_of_cons in Hin as [-> | Hin]; [try discriminate Ho |]);
      try (injection Ho as <-; lia).
    apply elem_of_nil in Hin. contradiction.
  - vm_compute. reflexivity.
Defined.

(** ** The calls into the buffer allocator *)

Lemma count_if_app {A} (f : A -> bool) (l1 l2 : list A) :
  count_if f (l1 ++ l2) = count_if f l1 + count_if f l2.
Proof. induction l1 as [| x l1 IH]; cbn [count_if app]; [reflexivity | rewrite IH; lia]. Qed.

Lemma checked_trace w pos w' :
  checked w pos w' ->
  heap w' = heap w /\
  (trace w' = trace w \/ exists b, trace w' = trace w ++ [Buffer_put b]).
Proof.
  intros [e He Hn | e a ob He Hu Hf Hob]; [split; [reflexivity | left; reflexivity] |].
  cbn [heap trace log_call]. rewrite set_cell_heap, set_cell_trace.
  split; [reflexivity | right; eauto].
Qed.

(** One call makes at most one allocator call. *)
Lemma run_op_trace o w r w' :
  run_op o w = Done r w' ->
  if is_set_buffer o then exists b, trace w' = trace w ++ [Buffer_inc_ref b]
  else trace w' = trace w \/
       (clears_claim o = true /\ exists b, trace w' = trace w ++ [Buffer_put b]).
Proof.
  intros Hrun. destruct (per_frame o) eqn:Hpf.
  - apply run_op_done in Hrun; [| assumption].
    destruct Hrun as [k e Hk He Hst Hlow | i e Hi He | i e w1 Hi He Hc | i e src Hi He Hf e1
         | i e src a Hi He Hf Ha e1 | i e w1 Hi He w0 Hc | i e b a ob Hi He Hf Hob
         | i e Hi He Hli w1 | Hd | h t e w3 Hd He Hi w1 Hc];
      cbn [is_set_buffer clears_claim].
    + left. apply set_cell_trace.
    + left. apply set_cell_trace.
    + apply checked_trace in Hc as (_ & [-> | (b & ->)]); rewrite set_cell_trace; eauto.
    + left. reflexivity.
    + left. reflexivity.
    + apply checked_trace in Hc as (_ & [-> | (b & ->)]); subst w0;
        cbn [trace with_impl]; rewrite set_cell_trace; eauto.
    + eexists. reflexivity.
    + left. subst w1. cbn [trace with_impl]. apply set_cell_trace.
    + left. reflexivity.
    + apply checked_trace in Hc as (_ & [Ht | (b & Ht)]); subst w1;
        cbn [trace with_impl] in *; rewrite set_cell_trace in Ht; rewrite Ht; eauto.
  - destruct o; try discriminate Hpf; cbn [run_op] in Hrun;
      apply bind_ret_inv in Hrun as (r0 & Hrun & ->); cbn [is_set_buffer].
    + apply setup_only_impl in Hrun as (_ & H1 & _). left. assumption.
    + apply ready_only_impl in Hrun as (_ & H1 & _). left. assumption.
Qed.

(** X8. Reference accounting over a run of calls that all return: the
    calls only append to the sequence of allocator calls; the number of
    references taken ([mpp_buffer_inc_ref]) is the number of
    [mpp_buf_slot_set_buffer] calls, and the number given back
    ([mpp_buffer_put]) is at most the number of claim-clearing calls
    ([clr_ref], [clr_decoding], [get_display]). *)
Theorem X8_reference_accounting l : forall w rs w',
  run_ops l w = Done rs w' ->
  (exists tr, trace w' = trace w ++ tr) /\
  count_if is_inc_ref (trace w') = count_if is_inc_ref (trace w) + count_if is_set_buffer l /\
  count_if is_put (trace w') <= count_if is_put (trace w) + count_if clears_claim l.
Proof.
  induction l as [| o l IH]; intros w rs w' Hrun.
  - injection Hrun as _ <-. cbn [count_if].
    split; [exists []; rewrite app_nil_r; reflexivity |]. lia.
  - apply run_ops_cons in Hrun as (r & w1 & rs' & Hr & Hrun & _).
    destruct (IH _ _ _ Hrun) as ((tr & Htr) & Hinc & Hput).
    apply run_op_trace in Hr. cbn [count_if].
    destruct (is_set_buffer o).
    + destruct Hr as (b & Hr). rewrite Hr in *.
      rewrite count_if_app in Hinc, Hput. cbn [count_if is_inc_ref is_put] in Hinc, Hput.
      split; [exists ([Buffer_inc_ref b] ++ tr); rewrite Htr, <- app_assoc; reflexivity |].
      destruct (clears_claim o); lia.
    + destruct Hr as [Hr | (Hcl & b & Hr)]; rewrite Hr in *.
      * split; [exists tr; exact Htr |]. destruct (clears_claim o); lia.
      * rewrite count_if_app in Hinc, Hput. cbn [count_if is_inc_ref is_put] in Hinc, Hput.
        rewrite Hcl.
        split; [exists ([Buffer_put b] ++ tr); rewrite Htr, <- app_assoc; reflexivity |].
        lia.
Qed.

Lemma X8_witness :
  exists rs w',
    run_ops [Setup 4 1024 0; GetUnused; SetDecoding 0 (mkFrame None 7); SetBuffer 0 5;
             SetBuffer 0 6; ClrDecoding 0] blank = Done rs w' /\
    count_if is_inc_ref (trace w') = 2 /\ count_if is_put (trace w') <= 1.
Proof.
  eexists _, _.
  match goal with
  | |- run_ops ?l ?b = Done ?rs ?w' /\ _ =>
      let r := eval vm_compute in (run_ops l b) in
      match r with
      | Done ?x ?y =>
          unify rs x; unify w' y;
          destruct (X8_reference_accounting l b x y) as (_ & H1 & H2)
      end
  end.
  - vm_compute. reflexivity.
  - split; [vm_compute; reflexivity |]. split; [exact H1 | exact H2].
Defined.

(** ** Binding a buffer *)

Lemma passes_reachable ok l : forall w w',
  reachable_by ok w -> passes ok l w = true ->
  world_after l w = Some w' -> reachable_by ok w'.
Proof.
  unfold world_after.
  induction l as [| o l IH]; intros w w' Hreach Hd Hrun.
  - injection Hrun as <-. exact Hreach.
  - cbn [passes] in Hd.
    apply andb_prop in Hd as [Hd Hl]. apply andb_prop in Hd as [Hpf Hok].
    cbn [run_ops] in Hrun. unfold bind at 1 in Hrun.
    destruct (run_op o w) as [r w1 | |] eqn:Hr; try discriminate.
    apply (IH w1 w'); [| exact Hl |].
    + eapply reach_step; eassumption.
    + unfold bind in Hrun. destruct (run_ops l w1) as [rs w2 | |]; try discriminate.
      injection Hrun as <-. reflexivity.
Qed.

(** The states of the examples: a pool set up from [blank], then a run of
    per-frame calls. *)
Lemma reachable_from_blank ok c s ch l w0 w :
  world_after [Setup c s ch] blank = Some w0 ->
  passes ok l w0 = true -> world_after l w0 = Some w ->
  reachable_by ok w.
Proof.
  intros Hs Hp Hrun. apply (passes_reachable ok l w0 w); [| exact Hp | exact Hrun].
  unfold world_after in Hs. cbn [run_ops run_op] in Hs. unfold bind, ret in Hs.
  destruct (mpp_buf_slot_setup c s ch blank) as [[] w1 | |] eqn:Hsetup; try discriminate.
  - injection Hs as <-. apply (reach_setup ok blank blank c s ch w1); [reflexivity | exact Hsetup].
  - injection Hs as <-.
    pose proof (first_setup blank c s ch eq_refl) as Hf.
    unfold mpp_buf_slot_setup, bind, get_impl in Hsetup. cbn in Hsetup.
    destruct (init_slot_entry 0 c _) as [[] w2 | |]; discriminate.
  - injection Hs as <-.
    unfold mpp_buf_slot_setup, bind, get_impl in Hsetup. cbn in Hsetup.
    destruct (init_slot_entry 0 c _) as [[] w2 | |]; discriminate.
Qed.

Lemma get_buffer_cases i w :
  mpp_buf_slot_get_buffer i w =
  if i <? count (impl w)
  then match cell_at (impl w) i with
       | Some e => mpp_frame_get_buffer (frame e) w
       | None => Fault
       end
  else Abort Assert_index_lt_count w.
Proof. unfold mpp_buf_slot_get_buffer. apply slot_prologue. Qed.

(** X9. A buffer bound with [mpp_buf_slot_set_buffer] is the one
    [mpp_buf_slot_get_buffer] answers for that slot.  Binding changes
    nothing in the pool: it overwrites the buffer binding of the frame
    object attached to the slot, keeps the rest of that object and every
    other frame object, and takes one reference on the buffer. *)
Theorem X9_set_buffer_then_get_buffer i b w r w' :
  mpp_buf_slot_set_buffer i (Some b) w = Done r w' ->
  r = MPP_OK /\
  mpp_buf_slot_get_buffer i w' = Done (Some b) w' /\
  impl w' = impl w /\
  trace w' = trace w ++ [Buffer_inc_ref (Some b)] /\
  exists e a ob,
    cell_at (impl w) i = Some e /\ frame e = Some a /\ heap w !! a = Some ob /\
    heap w' = <[a := mkFrame (Some b) (meta ob)]> (heap w).
Proof.
  rewrite set_buffer_cases. intros Hrun.
  destruct (i <? count (impl w)) eqn:Hi; [| discriminate].
  destruct (cell_at (impl w) i) as [e |] eqn:He; [| discriminate].
  destruct (frame e) as [a |] eqn:Hf; [| discriminate].
  destruct (heap w !! a) as [ob |] eqn:Hob; [| discriminate].
  injection Hrun as <- <-. split; [reflexivity |].
  split.
  - rewrite get_buffer_cases. cbn [impl log_call with_heap]. rewrite Hi, He, Hf.
    unfold mpp_frame_get_buffer. cbn [heap log_call with_heap].
    rewrite list_lookup_insert_eq by (eapply lookup_lt_Some; eassumption). reflexivity.
  - split; [reflexivity |]. split; [reflexivity |]. exists e, a, ob. repeat split; assumption.
Qed.

Lemma X9_witness :
  exists w w',
    world_after [Setup 4 1024 0; GetUnused; SetDecoding 0 (mkFrame None 7)] blank = Some w /\
    mpp_buf_slot_set_buffer 0 (Some 5%nat) w = Done MPP_OK w' /\
    mpp_buf_slot_get_buffer 0 w' = Done (Some 5%nat) w' /\
    trace w' = [Buffer_inc_ref (Some 5%nat)].
Proof.
  eexists _, _. split; [vm_compute; reflexivity |].
  match goal with
  | |- mpp_buf_slot_set_buffer ?i (Some ?b) ?x = Done _ ?y /\ _ =>
      let r := eval vm_compute in (mpp_buf_slot_set_buffer i (Some b) x) in
      match r with
      | Done _ ?z =>
          unify y z;
          destruct (X9_set_buffer_then_get_buffer i b x MPP_OK z) as (_ & Hget & _ & Htr & _)
      end
  end.
  - vm_compute. reflexivity.
  - split; [vm_compute; reflexivity |]. split; [exact Hget | exact Htr].
Defined.

Lemma get_unused_inv w r i w1 :
  mpp_buf_slot_get_unused w = Done (r, i) w1 ->
  r = MPP_OK /\ 0 <= i < count (impl w) /\
  exists e, cell_at (impl w) i = Some e /\ status e = MPP_SLOT_UNUSED /\
            (forall j, 0 <= j < i ->
                       exists e', cell_at (impl w) j = Some e' /\
                                  status e' <> MPP_SLOT_UNUSED) /\
            w1 = set_cell w i (with_status e MPP_SLOT_USED).
Proof.
  intros Hrun.
  assert (Hop : run_op GetUnused w = Done (RetIndex r i) w1).
  { cbn [run_op]. unfold bind at 1. rewrite Hrun. reflexivity. }
  apply run_op_done in Hop; [| reflexivity].
  inversion Hop; subst. split; [reflexivity |]. split; [assumption |]. eauto 6.
Qed.

(** X10. In a state reached under the caller's discipline the slot
    [mpp_buf_slot_get_unused] hands out carries no frame, so a buffer cannot
    be bound to it yet: [mpp_buf_slot_set_buffer] stops at its
    [slot->frame] assertion and changes nothing.  Once
    [mpp_buf_slot_set_decoding] has attached a frame the binding goes
    through. *)
Theorem X10_buffer_needs_a_frame w r i w1 b src :
  reachable_disciplined w ->
  mpp_buf_slot_get_unused w = Done (r, i) w1 ->
  (exists e, cell_at (impl w1) i = Some e /\ status e = MPP_SLOT_USED /\ frame e = None) /\
  mpp_buf_slot_set_buffer i (Some b) w1 = Abort Assert_slot_frame w1 /\
  exists w2 w3,
    mpp_buf_slot_set_decoding i (Some src) w1 = Done MPP_OK w2 /\
    mpp_buf_slot_set_buffer i (Some b) w2 = Done MPP_OK w3.
Proof.
  intros Hreach Hrun.
  apply get_unused_inv in Hrun as (-> & Hi & e & He & Hst & _ & ->).
  assert (Hf : frame e = None).
  { destruct (reachable_slots_ok w Hreach i e He) as [[_ Hf] | Hbit]; [exact Hf |].
    rewrite Hst in Hbit. discriminate Hbit. }
  set (e1 := with_status e MPP_SLOT_USED).
  set (w1 := set_cell w i e1).
  assert (He1 : cell_at (impl w1) i = Some e1).
  { unfold w1. rewrite (cell_at_set_cell w i e) by assumption.
    destruct (decide (i = i)); [reflexivity | contradiction]. }
  assert (Hi1 : (i <? count (impl w1)) = true).
  { unfold w1. rewrite set_cell_count. apply Z.ltb_lt. lia. }
  split; [exists e1; repeat split; assumption |].
  split; [rewrite set_buffer_cases, Hi1, He1; cbn [frame e1 with_status]; rewrite Hf;
          reflexivity |].
  assert (Hdec : exists w2,
             mpp_buf_slot_set_decoding i (Some src) w1 = Done MPP_OK w2 /\
             count (impl w2) = count (impl w1) /\
             (exists e2, cell_at (impl w2) i = Some e2 /\
                         frame e2 = Some (length (heap w1))) /\
             heap w2 = heap w1 ++ [src]).
  { rewrite set_decoding_cases, Hi1, He1. cbv zeta. cbn [frame e1 with_status]. rewrite Hf.
    eexists. split; [reflexivity |]. cbn [impl heap count with_output].
    rewrite set_cell_count. split; [reflexivity |]. split; [| reflexivity].
    set (e2 := with_frame (with_status e1 (set_flag (status e1) MPP_SLOT_USED_AS_DECODING))
                          (Some (length (heap w1)))).
    exists e2. split; [| reflexivity].
    rewrite (cell_at_same_slots _ (impl (set_cell w1 i e2))) by reflexivity.
    rewrite (cell_at_set_cell w1 i e1) by assumption.
    destruct (decide (i = i)); [reflexivity | contradiction]. }
  destruct Hdec as (w2 & Hrun2 & Hc2 & (e2 & He2 & Hf2) & Hh2).
  assert (Hbuf : exists w3, mpp_buf_slot_set_buffer i (Some b) w2 = Done MPP_OK w3).
  { rewrite set_buffer_cases, Hc2, Hi1, He2, Hf2, Hh2.
    rewrite lookup_app_r by lia. rewrite Nat.sub_diag. cbn. eauto. }
  destruct Hbuf as (w3 & Hrun3).
  exists w2, w3. split; [exact Hrun2 | exact Hrun3].
Qed.

Lemma X10_witness :
  exists w w1,
    world_after [Setup 4 1024 0; GetUnused] blank = Some w /\
    mpp_buf_slot_get_unused w = Done (MPP_OK, 1) w1 /\
    mpp_buf_slot_set_buffer 1 (Some 5%nat) w1 = Abort Assert_slot_frame w1.
Proof.
  eexists _, _. split; [vm_compute; reflexivity |].
  match goal with
  | |- mpp_buf_slot_get_unused ?x = Done _ ?y /\ _ =>
      let r := eval vm_compute in (mpp_buf_slot_get_unused x) in
      match r with
      | Done _ ?z =>
          unify y z;
          destruct (X10_buffer_needs_a_frame x MPP_OK 1 z 5%nat (mkFrame None 7))
            as (_ & Habort & _)
      end
  end.
  - eapply reach_step with (o := GetUnused);
      [eapply (reach_setup _ blank blank 4 1024 0); reflexivity
      | reflexivity | reflexivity | vm_compute; reflexivity].
  - vm_compute. reflexivity.
  - split; [vm_compute; reflexivity | exact Habort].
Defined.

(** ** Acquiring slots *)

Lemma acquire_from (k : nat) : forall m w,
  0 <= m -> m + Z.of_nat k <= count (impl w) ->
  (forall j, 0 <= j < m ->
             exists e, cell_at (impl w) j = Some e /\ status e <> MPP_SLOT_UNUSED) ->
  (forall j, m <= j < count (impl w) ->
             exists e, cell_at (impl w) j = Some e /\ status e = MPP_SLOT_UNUSED) ->
  exists w',
    run_ops (replicate k GetUnused) w = Done (RetIndex MPP_OK <$> seqZ m (Z.of_nat k)) w' /\
    count (impl w') = count (impl w) /\
    (forall j, m <= j < m + Z.of_nat k ->
               exists e, cell_at (impl w) j = Some e /\
                         cell_at (impl w') j = Some (with_status e MPP_SLOT_USED)) /\
    (forall j, ~ m <= j < m + Z.of_nat k -> cell_at (impl w') j = cell_at (impl w) j).
Proof.
  induction k as [| k IH]; intros m w Hm Hk Hbusy Hfree.
  - exists w. split; [reflexivity |]. split; [reflexivity |].
    split; [intros j Hj; lia | reflexivity].
  - destruct (Hfree m) as (e & He & Hst); [lia |].
    set (w1 := set_cell w m (with_status e MPP_SLOT_USED)).
    assert (Hcell1 : forall j, cell_at (impl w1) j =
                               if decide (j = m) then Some (with_status e MPP_SLOT_USED)
                               else cell_at (impl w) j).
    { intros j. apply (cell_at_set_cell w m e). exact He. }
    assert (Hop : run_op GetUnused w = Done (RetIndex MPP_OK m) w1).
    { apply op_done_run, done_get_unused; auto. lia. }
    destruct (IH (m + 1) w1) as (w' & Hrun & Hcnt & Hacq & Hrest).
    + lia.
    + unfold w1. rewrite set_cell_count. lia.
    + intros j Hj. rewrite Hcell1. destruct (decide (j = m)) as [-> | Hne].
      * eexists. split; [reflexivity | discriminate].
      * apply Hbusy. lia.
    + unfold w1 at 1. rewrite set_cell_count. intros j Hj. rewrite Hcell1.
      destruct (decide (j = m)) as [-> | Hne]; [lia |]. apply Hfree. lia.
    + exists w'. split; [| split; [| split]].
      * change (replicate (S k) GetUnused) with (GetUnused :: replicate k GetUnused).
        cbn [run_ops]. unfold bind at 1. rewrite Hop. unfold bind. rewrite Hrun.
        rewrite (seqZ_cons m) by lia. cbn [fmap list_fmap]. unfold ret. do 3 f_equal.
        replace (Z.pred (Z.of_nat (S k))) with (Z.of_nat k) by lia.
        replace (Z.succ m) with (m + 1) by lia. reflexivity.
      * rewrite Hcnt. apply set_cell_count.
      * intros j Hj. destruct (decide (j = m)) as [-> | Hne].
        -- exists e. split; [exact He |]. rewrite Hrest by lia. rewrite Hcell1.
           destruct (decide (m = m)); [reflexivity | contradiction].
        -- destruct (Hacq j) as (e' & He' & Hnew); [lia |].
           rewrite Hcell1 in He'. destruct (decide (j = m)); [contradiction |]. eauto.
      * intros j Hj. rewrite Hrest by lia. rewrite Hcell1.
        destruct (decide (j = m)); [lia | reflexivity].
Qed.

(** X11. From a pool whose slots are all Free, successive calls of
    [mpp_buf_slot_get_unused] hand out the slots in index order, 0 first,
    and mark exactly those Used; once all [count] slots are out the next
    call finds none and stops at its [mpp_assert(0)]. *)
Theorem X11_acquisition_in_index_order w (k : nat) :
  all_free (impl w) -> Z.of_nat k <= count (impl w) ->
  exists w',
    run_ops (replicate k GetUnused) w = Done (RetIndex MPP_OK <$> seqZ 0 (Z.of_nat k)) w' /\
    (forall j, 0 <= j < Z.of_nat k ->
               exists e, cell_at (impl w) j = Some e /\
                         cell_at (impl w') j = Some (with_status e MPP_SLOT_USED)) /\
    (forall j, Z.of_nat k <= j -> cell_at (impl w') j = cell_at (impl w) j) /\
    (Z.of_nat k = count (impl w) -> mpp_buf_slot_get_unused w' = Abort Assert_0 w').
Proof.
  intros Hfree Hk.
  destruct (acquire_from k 0 w) as (w' & Hrun & Hcnt & Hacq & Hrest); [lia | lia | | |].
  - intros j Hj. lia.
  - exact Hfree.
  - exists w'. split; [exact Hrun |]. split; [exact Hacq |].
    split; [intros j Hj; apply Hrest; lia |].
    intros Hall. unfold mpp_buf_slot_get_unused, bind, get_impl.
    rewrite get_unused_loop_none; [reflexivity |].
    intros j Hj. rewrite Hcnt in Hj.
    destruct (Hacq j) as (e & _ & He); [lia |]. eexists. split; [exact He | discriminate].
Qed.

Lemma X11_witness :
  exists w w',
    world_after [Setup 3 1024 0] blank = Some w /\
    run_ops [GetUnused; GetUnused; GetUnused] w =
      Done [RetIndex MPP_OK 0; RetIndex MPP_OK 1; RetIndex MPP_OK 2] w' /\
    mpp_buf_slot_get_unused w' = Abort Assert_0 w'.
Proof.
  eexists.
  match goal with
  | |- exists w', world_after ?l ?b = Some ?w /\ _ =>
      let r := eval vm_compute in (world_after l b) in
      match r with Some ?x => unify w x end
  end.
  match goal with
  | |- exists w', _ = Some ?w /\ _ =>
      destruct (X11_acquisition_in_index_order w 3) as (w' & Hrun & _ & _ & Hfull)
  end.
  - intros i Hi. simpl in Hi.
    assert (i = 0 \/ i = 1 \/ i = 2) as [-> | [-> | ->]] by lia;
      eexists; (split; reflexivity).
  - simpl. lia.
  - exists w'. split; [vm_compute; reflexivity |]. split; [exact Hrun |].
    apply Hfull. reflexivity.
Defined.

(** ** Placing a claim twice *)

Lemma set_flag_idem s f : set_flag (set_flag s f) f = set_flag s f.
Proof. unfold set_flag. rewrite <- Z.lor_assoc, Z.lor_diag. reflexivity. Qed.

Lemma with_impl_id w : with_impl w (impl w) = w.
Proof. destruct w. reflexivity. Qed.

Lemma with_display_id p : with_display p (display p) = p.
Proof. destruct p. reflexivity. Qed.

Lemma with_output_id p : with_output p (output p) = p.
Proof. destruct p. reflexivity. Qed.

Lemma list_mark_idem i (d : list Z) :
  list_add_tail i (list_del_init i (list_add_tail i (list_del_init i d))) =
  list_add_tail i (list_del_init i d).
Proof.
  unfold list_add_tail, list_del_init. f_equal.
  rewrite filter_app, list_filter_filter.
  rewrite (filter_cons_False _ i []) by (intros H; apply H; reflexivity).
  rewrite filter_nil, app_nil_r. apply list_filter_iff. intros x. tauto.
Qed.

(** X12. Placing a claim is idempotent: when [set_ref], [set_decoding]
    (with the same frame contents) or [set_display] has returned, the same
    call repeated at once returns the same code and changes nothing, the
    display queue included. *)
Theorem X12_placing_a_claim_twice o w r w1 :
  places_claim o = true -> run_op o w = Done r w1 -> run_op o w1 = Done r w1.
Proof.
  intros Hset Hrun. apply run_op_done in Hrun; [| destruct o; (discriminate || reflexivity)].
  destruct Hrun as [k e Hk He Hst Hlow | i e Hi He | i e w' Hi He Hc | i e src Hi He Hf e1
         | i e src a Hi He Hf Ha e1 | i e w' Hi He w0 Hc | i e b a ob Hi He Hf Hob
         | i e Hi He Hli w0 | Hd | h t e w3 Hd He Hi w0 Hc]; try discriminate Hset.
  - (* set_ref *)
    set (e1 := with_status e (set_flag (status e) MPP_SLOT_USED_AS_REF)).
    assert (He1 : cell_at (impl (set_cell w i e1)) i = Some e1).
    { rewrite (cell_at_set_cell w i e) by assumption.
      destruct (decide (i = i)); [reflexivity | contradiction]. }
    rewrite <- (set_cell_id (set_cell w i e1) i e1 He1) at 2.
    replace e1 with (with_status e1 (set_flag (status e1) MPP_SLOT_USED_AS_REF)) at 3
      by (unfold e1, with_status; cbn; rewrite set_flag_idem; reflexivity).
    apply op_done_run, done_set_ref; [rewrite set_cell_count; assumption | exact He1].
  - (* set_decoding, the frame was attached by the first call *)
    set (w1 := mkWorld _ _ _).
    assert (He1 : cell_at (impl w1) i = Some e1).
    { unfold w1. rewrite (cell_at_same_slots _ (impl (set_cell w i e1))) by reflexivity.
      rewrite (cell_at_set_cell w i e) by assumption.
      destruct (decide (i = i)); [reflexivity | contradiction]. }
    assert (Hw1 : w1 = mkWorld (with_output (impl (set_cell w1 i
                      (with_frame (with_status e1 (set_flag (status e1)
                                                     MPP_SLOT_USED_AS_DECODING))
                                  (Some (length (heap w)))))) (s32 i))
                               (<[length (heap w) := src]> (heap w1)) (trace w1)).
    { replace (with_frame _ _) with e1
        by (unfold e1, with_frame, with_status; cbn; rewrite set_flag_idem; reflexivity).
      rewrite (set_cell_id w1 i e1 He1).
      unfold w1. cbn [impl heap trace]. f_equal.
      rewrite list_insert_id; [reflexivity |].
      rewrite lookup_app_r by lia. rewrite Nat.sub_diag. reflexivity. }
    rewrite Hw1 at 2.
    apply op_done_run, (done_set_decoding_old w1 i e1 src (length (heap w))).
    + unfold w1. cbn [impl count with_output]. rewrite set_cell_count. assumption.
    + exact He1.
    + reflexivity.
    + unfold w1. cbn [heap]. rewrite length_app. cbn. lia.
  - (* set_decoding, the frame was there *)
    set (w1 := mkWorld _ _ _).
    assert (He1 : cell_at (impl w1) i = Some e1).
    { unfold w1. rewrite (cell_at_same_slots _ (impl (set_cell w i e1))) by reflexivity.
      rewrite (cell_at_set_cell w i e) by assumption.
      destruct (decide (i = i)); [reflexivity | contradiction]. }
    assert (Hw1 : w1 = mkWorld (with_output (impl (set_cell w1 i
                      (with_frame (with_status e1 (set_flag (status e1)
                                                     MPP_SLOT_USED_AS_DECODING))
                                  (Some a)))) (s32 i))
                               (<[a := src]> (heap w1)) (trace w1)).
    { replace (with_frame _ _) with e1
        by (unfold e1, with_frame, with_status; cbn; rewrite set_flag_idem; reflexivity).
      rewrite (set_cell_id w1 i e1 He1).
      unfold w1. cbn [impl heap trace]. f_equal.
      rewrite list_insert_insert_eq. reflexivity. }
    rewrite Hw1 at 2.
    apply op_done_run, (done_set_decoding_old w1 i e1 src a).
    + unfold w1. cbn [impl count with_output]. rewrite set_cell_count. assumption.
    + exact He1.
    + reflexivity.
    + unfold w1. cbn [heap]. rewrite length_insert. exact Ha.
  - (* set_display *)
    set (e1 := with_status e (set_flag (status e) MPP_SLOT_USED_AS_DISPLAY)) in *.
    set (w1 := with_impl w0 _).
    assert (He1 : cell_at (impl w1) i = Some e1).
    { unfold w1. rewrite (cell_at_same_slots _ (impl (set_cell w i e1))) by reflexivity.
      rewrite (cell_at_set_cell w i e) by assumption.
      destruct (decide (i = i)); [reflexivity | contradiction]. }
    assert (Hw1 : w1 =
              let w2 := set_cell w1 i (with_status e1 (set_flag (status e1)
                                                         MPP_SLOT_USED_AS_DISPLAY)) in
              with_impl w2 (with_display (impl w2)
                              (list_add_tail i (list_del_init i (display (impl w2)))))).
    { cbv zeta.
      replace (with_status e1 _) with e1
        by (unfold e1, with_status; cbn; rewrite set_flag_idem; reflexivity).
      rewrite (set_cell_id w1 i e1 He1).
      replace (list_add_tail i (list_del_init i (display (impl w1))))
        with (display (impl w1)) by (unfold w1; cbn [impl with_impl display with_display];
                                     rewrite list_mark_idem; reflexivity).
      rewrite with_display_id, with_impl_id. reflexivity. }
    rewrite Hw1 at 2.
    apply op_done_run, done_set_display.
    + unfold w1, w0. cbn [impl with_impl count with_display]. rewrite set_cell_count.
      assumption.
    + exact He1.
    + exact Hli.
Qed.

Lemma X12_witness :
  exists w w1,
    world_after [Setup 4 1024 0; GetUnused; SetDisplay 0; GetUnused; SetDisplay 1] blank
      = Some w /\
    run_op (SetDisplay 0) w = Done (Ret MPP_OK) w1 /\
    display (impl w1) = [1; 0] /\
    run_op (SetDisplay 0) w1 = Done (Ret MPP_OK) w1.
Proof.
  eexists _, _. split; [vm_compute; reflexivity |].
  match goal with
  | |- run_op ?o ?x = Done ?r ?y /\ _ =>
      let v := eval vm_compute in (run_op o x) in
      match v with
      | Done _ ?z => unify y z; pose proof (X12_placing_a_claim_twice o x r z eq_refl) as H
      end
  end.
  split; [vm_compute; reflexivity |]. split; [reflexivity |].
  apply H. vm_compute. reflexivity.
Defined.

(** ** Invariants of the slot table *)

Lemma flags_in_range s f :
  0 <= s < 16 ->
  f = MPP_SLOT_USED \/ f = MPP_SLOT_USED_AS_REF \/ f = MPP_SLOT_USED_AS_DECODING \/
  f = MPP_SLOT_USED_AS_DISPLAY ->
  0 <= set_flag s f < 16 /\ 0 <= clr_flag s f < 16.
Proof.
  intros Hs Hf.
  assert (Hcases : s = 0 \/ s = 1 \/ s = 2 \/ s = 3 \/ s = 4 \/ s = 5 \/ s = 6 \/ s = 7 \/
                   s = 8 \/ s = 9 \/ s = 10 \/ s = 11 \/ s = 12 \/ s = 13 \/ s = 14 \/ s = 15)
    by lia.
  destruct Hf as [-> | [-> | [-> | ->]]];
    repeat (destruct Hcases as [-> | Hcases]; [vm_compute; intuition discriminate |]);
    subst; vm_compute; intuition discriminate.
Qed.

(** X13. The status word of a slot never holds anything but the four
    flags: in every state reached from a freshly set-up pool by per-frame
    calls it lies between 0 and 15. *)
Theorem X13_status_holds_only_flags ok w :
  reachable_by ok w ->
  forall j e, cell_at (impl w) j = Some e -> 0 <= status e < 16.
Proof.
  induction 1 as [w0 w1 c s ch w Hinit Hsetup | w o r w' Hreach IH Hpf Hok Hrun].
  - intros j e He.
    destruct (fresh_pool w0 w1 c s ch w Hinit Hsetup) as [_ Hcells].
    destruct (Hcells j e He) as [-> _]. unfold MPP_SLOT_UNUSED. lia.
  - intros j e' He'.
    destruct (per_frame_effect o w r w' Hpf Hrun) as (Hcells & _).
    specialize (Hcells j). destruct (cell_at (impl w) j) as [e |] eqn:He; [| congruence].
    destruct Hcells as (e0 & He0 & Hstep).
    assert (e0 = e') by congruence. subst e0. specialize (IH j e He).
    destruct Hstep as [-> | _ _ -> | _ -> | _ -> | f a _ _ -> | Hc -> | _ _ _ -> _];
      cbn [status with_status with_frame].
    + exact IH.
    + unfold MPP_SLOT_USED. lia.
    + apply flags_in_range; auto.
    + apply flags_in_range; auto.
    + apply flags_in_range; auto.
    + apply flags_in_range; [exact IH |].
      destruct (cleared_claim_flag o Hc) as [-> | [-> | ->]]; auto.
    + unfold MPP_SLOT_UNUSED. lia.
Qed.

Lemma X13_witness :
  exists w e,
    world_after [Setup 4 1024 0; GetUnused; SetRef 0; SetDisplay 0;
                 SetDecoding 0 (mkFrame None 7)] blank = Some w /\
    cell_at (impl w) 0 = Some e /\ status e = 15 /\ 0 <= status e < 16.
Proof.
  eexists _, _.
  match goal with
  | |- world_after ?l ?b = Some ?w /\ _ =>
      let r := eval vm_compute in (world_after l b) in
      match r with
      | Some ?x =>
          unify w x;
          pose proof (X13_status_holds_only_flags (fun _ _ => true) x) as H
      end
  end.
  split; [vm_compute; reflexivity |].
  split; [reflexivity |]. split; [reflexivity |].
  apply (fun Hr => H Hr 0 _ eq_refl).
  eapply (reachable_from_blank _ 4 1024 0
            [GetUnused; SetRef 0; SetDisplay 0; SetDecoding 0 (mkFrame None 7)]).
  - vm_compute. reflexivity.
  - vm_compute. reflexivity.
  - vm_compute. reflexivity.
Defined.

Lemma frames_from_trans w1 w2 w3 :
  frames_from w1 w2 -> frames_from w2 w3 -> frames_from w1 w3.
Proof.
  intros H12 H23 j e3 a He3 Hf3.
  destruct (H23 j e3 a He3 Hf3) as (e2 & He2 & Hf2). exact (H12 j e2 a He2 Hf2).
Qed.

Lemma frames_from_same w w' : slots (impl w') = slots (impl w) -> frames_from w w'.
Proof.
  intros Hs j e' a He' Hf. exists e'. split; [| exact Hf].
  rewrite <- He'. apply cell_at_same_slots. symmetry. exact Hs.
Qed.

Lemma frames_from_set_cell w i e e1 :
  cell_at (impl w) i = Some e -> (frame e1 = frame e \/ frame e1 = None) ->
  frames_from w (set_cell w i e1).
Proof.
  intros He Hf j e' a He' Hfa.
  rewrite (cell_at_set_cell w i e) in He' by assumption.
  destruct (decide (j = i)) as [-> | Hne]; [| eauto].
  injection He' as <-. exists e. split; [exact He |].
  destruct Hf as [Hf | Hf]; congruence.
Qed.

Lemma checked_frames w pos w' :
  checked w pos w' -> heap w' = heap w /\ frames_from w w'.
Proof.
  intros [e He Hn | e a ob He Hu Hf Hob].
  - split; [reflexivity | apply frames_from_same; reflexivity].
  - cbn [heap log_call]. rewrite set_cell_heap. split; [reflexivity |].
    eapply frames_from_trans; [| apply frames_from_same; reflexivity].
    apply (frames_from_set_cell w pos e); [exact He | right; reflexivity].
Qed.

(** Where the frame handles of the table come from after one call: they
    were in place before, or [set_decoding] has just created the object. *)
Lemma op_done_frames w o r w' :
  op_done w o r w' ->
  (length (heap w) <= length (heap w'))%nat /\
  forall j e' a, cell_at (impl w') j = Some e' -> frame e' = Some a ->
    (exists e, cell_at (impl w) j = Some e /\ frame e = Some a) \/
    (a = length (heap w) /\ (length (heap w) < length (heap w'))%nat /\
     exists f, o = SetDecoding j f).
Proof.
  assert (Hold : forall (o1 : op) w1, heap w1 = heap w -> frames_from w w1 ->
            (length (heap w) <= length (heap w1))%nat /\
            forall j e' a, cell_at (impl w1) j = Some e' -> frame e' = Some a ->
              (exists e, cell_at (impl w) j = Some e /\ frame e = Some a) \/
              (a = length (heap w) /\ (length (heap w) < length (heap w1))%nat /\
               exists f, o1 = SetDecoding j f)).
  { intros o1 w1 Hh Hfrom. rewrite Hh. split; [lia |]. intros j e' a He' Hf. left. eauto. }
  intros [k e Hk He Hst Hlow | i e Hi He | i e w1 Hi He Hc | i e src Hi He Hf e1
         | i e src a Hi He Hf Ha e1 | i e w1 Hi He w0 Hc | i e b a ob Hi He Hf Hob
         | i e Hi He Hli w1 | Hd | h t e w3 Hd He Hi w1 Hc].
  - apply Hold; [apply set_cell_heap |].
    apply (frames_from_set_cell w k e); [exact He | left; reflexivity].
  - apply Hold; [apply set_cell_heap |].
    apply (frames_from_set_cell w i e); [exact He | left; reflexivity].
  - apply checked_frames in Hc as [Hh Hfrom].
    apply Hold; [rewrite Hh; apply set_cell_heap |].
    eapply frames_from_trans; [| exact Hfrom].
    apply (frames_from_set_cell w i e); [exact He | left; reflexivity].
  - cbn [heap]. rewrite length_app. cbn [length]. split; [lia |].
    intros j e' a He' Hfa.
    rewrite (cell_at_same_slots _ (impl (set_cell w i e1))) in He' by reflexivity.
    rewrite (cell_at_set_cell w i e) in He' by assumption.
    destruct (decide (j = i)) as [-> | Hne]; [| left; eauto].
    injection He' as <-. cbn [e1 frame with_frame] in Hfa. injection Hfa as <-.
    right. split; [reflexivity |]. split; [lia |]. eauto.
  - cbn [heap]. rewrite length_insert. split; [lia |].
    intros j e' a' He' Hfa. left.
    rewrite (cell_at_same_slots _ (impl (set_cell w i e1))) in He' by reflexivity.
    rewrite (cell_at_set_cell w i e) in He' by assumption.
    destruct (decide (j = i)) as [-> | Hne]; [| eauto].
    injection He' as <-. cbn [e1 frame with_frame] in Hfa. exists e. split; congruence.
  - apply checked_frames in Hc as [Hh Hfrom].
    apply Hold; [rewrite Hh; apply set_cell_heap |].
    eapply frames_from_trans; [| exact Hfrom].
    eapply frames_from_trans; [| apply frames_from_same; reflexivity].
    apply (frames_from_set_cell w i e); [exact He | left; reflexivity].
  - cbn [heap log_call with_heap]. rewrite length_insert. split; [lia |].
    intros j e' a' He' Hfa. left. eauto.
  - apply Hold; [apply set_cell_heap |].
    eapply frames_from_trans; [| apply frames_from_same; reflexivity].
    apply (frames_from_set_cell w i e); [exact He | left; reflexivity].
  - apply Hold; [reflexivity | apply frames_from_same; reflexivity].
  - apply checked_frames in Hc as [Hh Hfrom].
    apply Hold; [cbn [heap with_impl]; rewrite Hh; apply set_cell_heap |].
    eapply frames_from_trans; [| apply frames_from_same; reflexivity].
    eapply frames_from_trans; [| exact Hfrom].
    eapply frames_from_trans; [| apply frames_from_same; reflexivity].
    apply (frames_from_set_cell w h e); [exact He | left; reflexivity].
Qed.

Lemma reachable_frames_ok ok w : reachable_by ok w -> frames_ok w.
Proof.
  induction 1 as [w0 w1 c s ch w Hinit Hsetup | w o r w' Hreach IH Hpf Hok Hrun].
  - destruct (fresh_pool w0 w1 c s ch w Hinit Hsetup) as [_ Hcells].
    split.
    + intros j e a He Hf. destruct (Hcells j e He) as [_ Hnone]. congruence.
    + intros j1 j2 e1 e2 a He1 _ Hf. destruct (Hcells j1 e1 He1) as [_ Hnone]. congruence.
  - destruct IH as [Hvalid Hunshared].
    apply run_op_done in Hrun; [| exact Hpf].
    destruct (op_done_frames w o r w' Hrun) as [Hlen Hsrc].
    split.
    + intros j e' a He' Hf.
      destruct (Hsrc j e' a He' Hf) as [(e & He & Hfe) | (-> & Hlt & _)]; [| exact Hlt].
      specialize (Hvalid j e a He Hfe). lia.
    + intros j1 j2 e1 e2 a He1 He2 Hf1 Hf2.
      destruct (Hsrc j1 e1 a He1 Hf1) as [(e1' & He1' & Hfe1) | (Ha1 & _ & f1 & Ho1)];
        destruct (Hsrc j2 e2 a He2 Hf2) as [(e2' & He2' & Hfe2) | (Ha2 & _ & f2 & Ho2)].
      * eapply Hunshared; eassumption.
      * specialize (Hvalid j1 e1' a He1' Hfe1). lia.
      * specialize (Hvalid j2 e2' a He2' Hfe2). lia.
      * congruence.
Qed.

(** X14. In every state reached from a freshly set-up pool by per-frame
    calls the frame handles of the slot table are in order: each is the
    address of a frame object, and no two slots share one.  Frame objects
    are never taken away, so a handle given out by
    [mpp_buf_slot_get_display] stays the address of an object; and the copy
    [mpp_buf_slot_set_decoding] makes into the frame of one slot leaves the
    frame objects of all other slots as they are. *)
Theorem X14_frame_handles_valid_and_unshared ok w :
  reachable_by ok w ->
  frames_ok w /\
  (forall o r w',
      per_frame o = true -> run_op o w = Done r w' ->
      (length (heap w) <= length (heap w'))%nat /\
      forall a, r = RetFrame MPP_OK (Some (Some a)) -> (a < length (heap w'))%nat) /\
  (forall i src r w',
      mpp_buf_slot_set_decoding i (Some src) w = Done r w' ->
      forall j e a, j <> i -> cell_at (impl w) j = Some e -> frame e = Some a ->
                    heap w' !! a = heap w !! a).
Proof.
  intros Hreach.
  pose proof (reachable_frames_ok ok w Hreach) as Hok.
  split; [exact Hok |]. destruct Hok as [Hvalid Hunshared]. split.
  - intros o r w' Hpf Hrun. apply run_op_done in Hrun; [| exact Hpf].
    destruct (op_done_frames w o r w' Hrun) as [Hlen _]. split; [exact Hlen |].
    intros a Hr.
    destruct Hrun; try discriminate Hr.
    injection Hr as Hfe.
    match goal with
    | He : cell_at (impl w) ?h = Some ?e |- _ => specialize (Hvalid h e a He Hfe)
    end.
    lia.
  - intros i src r w' Hrun j e a Hne He Hf.
    rewrite set_decoding_cases in Hrun.
    destruct (i <? count (impl w)); [| discriminate].
    destruct (cell_at (impl w) i) as [ei |] eqn:Hei; [| discriminate].
    cbv zeta in Hrun. specialize (Hvalid j e a He Hf).
    destruct (frame ei) as [ai |] eqn:Hfi.
    + destruct (decide (ai < length (heap w))%nat); [| discriminate].
      injection Hrun as _ <-. cbn [heap].
      apply list_lookup_insert_ne. intros ->. apply Hne.
      exact (Hunshared j i e ei a He Hei Hf Hfi).
    + injection Hrun as _ <-. cbn [heap]. apply lookup_app_l. exact Hvalid.
Qed.

Lemma X14_witness :
  exists w,
    world_after [Setup 4 1024 0; GetUnused; SetDecoding 0 (mkFrame None 7); GetUnused;
                 SetDecoding 1 (mkFrame None 8)] blank = Some w /\
    cell_at (impl w) 0 = Some (mkEntry 5 0 (Some 0%nat)) /\
    cell_at (impl w) 1 = Some (mkEntry 5 1 (Some 1%nat)) /\
    frames_ok w.
Proof.
  eexists.
  match goal with
  | |- world_after ?l ?b = Some ?w /\ _ =>
      let r := eval vm_compute in (world_after l b) in
      match r with
      | Some ?x =>
          unify w x;
          pose proof (X14_frame_handles_valid_and_unshared (fun _ _ => true) x) as H
      end
  end.
  split; [vm_compute; reflexivity |].
  split; [reflexivity |]. split; [reflexivity |].
  apply H.
  eapply (reachable_from_blank _ 4 1024 0
            [GetUnused; SetDecoding 0 (mkFrame None 7); GetUnused;
             SetDecoding 1 (mkFrame None 8)]).
  - vm_compute. reflexivity.
  - vm_compute. reflexivity.
  - vm_compute. reflexivity.
Defined.

(** ** The display queue and the Display flag *)

Lemma display_kept_trans w1 w2 w3 :
  display_kept w1 w2 -> display_kept w2 w3 -> display_kept w1 w3.
Proof.
  intros [Hd12 H12] [Hd23 H23]. split; [congruence |].
  intros j e3 He3. destruct (H23 j e3 He3) as (e2 & He2 & Hb2).
  destruct (H12 j e2 He2) as (e1 & He1 & Hb1). exists e1. split; [exact He1 | congruence].
Qed.

Lemma display_kept_same w w' :
  slots (impl w') = slots (impl w) -> display (impl w') = display (impl w) ->
  display_kept w w'.
Proof.
  intros Hs Hd. split; [exact Hd |]. intros j e' He'. exists e'. split; [| reflexivity].
  rewrite <- He'. apply cell_at_same_slots. symmetry. exact Hs.
Qed.

Lemma display_kept_set_cell w i e e1 :
  cell_at (impl w) i = Some e ->
  Z.testbit (status e1) 3 = Z.testbit (status e) 3 ->
  display_kept w (set_cell w i e1).
Proof.
  intros He Hb. split; [apply set_cell_display |]. intros j e' He'.
  rewrite (cell_at_set_cell w i e) in He' by assumption.
  destruct (decide (j = i)) as [-> | Hne]; [| eauto].
  injection He' as <-. eauto.
Qed.

Lemma display_marks_kept w w' :
  display_marks (impl w) -> display_kept w w' -> display_marks (impl w').
Proof.
  intros Hm [Hd Hk] j e' He'. destruct (Hk j e' He') as (e & He & Hb).
  rewrite Hd, Hb. apply Hm. exact He.
Qed.

Lemma bit3_set_flag s f :
  f = MPP_SLOT_USED_AS_REF \/ f = MPP_SLOT_USED_AS_DECODING ->
  Z.testbit (set_flag s f) 3 = Z.testbit s 3.
Proof. intros [-> | ->]; rewrite testbit_set_flag; cbn; apply orb_false_r. Qed.

Lemma bit3_clr_flag s f :
  f = MPP_SLOT_USED_AS_REF \/ f = MPP_SLOT_USED_AS_DECODING ->
  Z.testbit (clr_flag s f) 3 = Z.testbit s 3.
Proof.
  intros [-> | ->].
  - change MPP_SLOT_USED_AS_REF with (2 ^ 1). rewrite testbit_clr_flag by lia.
    cbn. apply andb_true_r.
  - change MPP_SLOT_USED_AS_DECODING with (2 ^ 2). rewrite testbit_clr_flag by lia.
    cbn. apply andb_true_r.
Qed.

Lemma bit3_clr_display s : Z.testbit (clr_flag s MPP_SLOT_USED_AS_DISPLAY) 3 = false.
Proof.
  change MPP_SLOT_USED_AS_DISPLAY with (2 ^ 3). rewrite testbit_clr_flag by lia.
  cbn. apply andb_false_r.
Qed.

Lemma checked_display_kept w pos w' : checked w pos w' -> display_kept w w'.
Proof.
  intros [e He Hn | e a ob He Hu Hf Hob].
  - apply display_kept_same; reflexivity.
  - eapply display_kept_trans; [| apply display_kept_same; reflexivity].
    apply (display_kept_set_cell w pos e); [exact He |].
    cbn [status with_frame with_status]. rewrite Hu. reflexivity.
Qed.

Lemma op_done_display_marks w o r w' :
  op_done w o r w' -> display_marks (impl w) -> display_marks (impl w').
Proof.
  intros [k e Hk He Hst Hlow | i e Hi He | i e w1 Hi He Hc | i e src Hi He Hf e1
         | i e src a Hi He Hf Ha e1 | i e w1 Hi He w0 Hc | i e b a ob Hi He Hf Hob
         | i e Hi He Hli w1 | Hd | h t e w3 Hd He Hi w1 Hc] Hm.
  - apply (display_marks_kept w); [exact Hm |].
    apply (display_kept_set_cell w k e); [exact He |].
    cbn [status with_status]. rewrite Hst. reflexivity.
  - apply (display_marks_kept w); [exact Hm |].
    apply (display_kept_set_cell w i e); [exact He |].
    cbn [status with_status]. apply bit3_set_flag. auto.
  - apply (display_marks_kept w); [exact Hm |].
    eapply display_kept_trans; [| eapply checked_display_kept; exact Hc].
    apply (display_kept_set_cell w i e); [exact He |].
    cbn [status with_status]. apply bit3_clr_flag. auto.
  - apply (display_marks_kept w); [exact Hm |].
    eapply display_kept_trans; [| apply display_kept_same; reflexivity].
    apply (display_kept_set_cell w i e); [exact He |].
    cbn [e1 status with_status with_frame]. apply bit3_set_flag. auto.
  - apply (display_marks_kept w); [exact Hm |].
    eapply display_kept_trans; [| apply display_kept_same; reflexivity].
    apply (display_kept_set_cell w i e); [exact He |].
    cbn [e1 status with_status with_frame]. apply bit3_set_flag. auto.
  - apply (display_marks_kept w); [exact Hm |].
    eapply display_kept_trans; [| eapply checked_display_kept; exact Hc].
    eapply display_kept_trans; [| apply display_kept_same; reflexivity].
    apply (display_kept_set_cell w i e); [exact He |].
    cbn [status with_status]. apply bit3_clr_flag. auto.
  - exact Hm.
  - (* set_display *)
    intros j e' He'.
    rewrite (cell_at_same_slots _ (impl w1)) in He' by reflexivity.
    unfold w1 in He'. rewrite (cell_at_set_cell w i e) in He' by assumption.
    cbn [impl with_impl display with_display]. unfold w1. rewrite set_cell_display.
    unfold list_add_tail, list_del_init. rewrite elem_of_app, list_elem_of_filter.
    rewrite list_elem_of_singleton.
    destruct (decide (j = i)) as [-> | Hne].
    + injection He' as <-. cbn [status with_status]. rewrite testbit_set_flag. cbn.
      rewrite orb_true_r. tauto.
    + rewrite <- (Hm j e' He'). tauto.
  - exact Hm.
  - (* get_display *)
    set (w2 := with_impl w1 _) in Hc.
    apply (display_marks_kept w2);
      [| eapply display_kept_trans;
         [eapply checked_display_kept; exact Hc | apply display_kept_same; reflexivity]].
    intros j e' He'.
    rewrite (cell_at_same_slots _ (impl w1)) in He' by reflexivity.
    unfold w1 in He'. rewrite (cell_at_set_cell w h e) in He' by assumption.
    unfold w2. cbn [impl with_impl display with_display]. unfold w1.
    rewrite set_cell_display.
    unfold list_del_init. rewrite list_elem_of_filter.
    destruct (decide (j = h)) as [-> | Hne].
    + injection He' as <-. cbn [status with_status]. rewrite bit3_clr_display.
      split; [tauto | discriminate].
    + rewrite <- (Hm j e' He'). tauto.
Qed.

(** X15. The display queue holds exactly the slots that carry the Display
    claim: in every state reached from a freshly set-up pool by per-frame
    calls, a position is queued if and only if it is a slot whose status has
    the [MPP_SLOT_USED_AS_DISPLAY] bit. *)
Theorem X15_queue_holds_the_display_claims ok w :
  reachable_by ok w ->
  forall j, j ∈ display (impl w) <->
            exists e, cell_at (impl w) j = Some e /\ Z.testbit (status e) 3 = true.
Proof.
  intros Hreach.
  assert (Hm : display_marks (impl w)).
  { induction Hreach as [w0 w1 c s ch w Hinit Hsetup | w o r w' Hreach IH Hpf Hok Hrun].
    - destruct (fresh_pool w0 w1 c s ch w Hinit Hsetup) as [Hd Hcells].
      intros j e He. rewrite Hd. destruct (Hcells j e He) as [-> _].
      split; [intros H; apply elem_of_nil in H; contradiction | discriminate].
    - apply (op_done_display_marks w o r w'); [| exact IH].
      apply run_op_done; assumption. }
  intros j. split.
  - intros Hin. destruct (reachable_index_queue_ok ok w Hreach) as [_ Hq].
    destruct (Hq j Hin) as (e & He). exists e. split; [exact He |].
    apply (Hm j e He). exact Hin.
  - intros (e & He & Hb). apply (Hm j e He). exact Hb.
Qed.

Lemma X15_witness :
  exists w,
    world_after [Setup 4 1024 0; GetUnused; GetUnused; SetRef 1; SetDisplay 1;
                 SetDisplay 0; GetDisplay] blank = Some w /\
    display (impl w) = [0] /\
    (0 ∈ display (impl w) <->
     exists e, cell_at (impl w) 0 = Some e /\ Z.testbit (status e) 3 = true).
Proof.
  eexists.
  match goal with
  | |- world_after ?l ?b = Some ?w /\ _ =>
      let r := eval vm_compute in (world_after l b) in
      match r with
      | Some ?x =>
          unify w x;
          pose proof (X15_queue_holds_the_display_claims (fun _ _ => true) x) as H
      end
  end.
  split; [vm_compute; reflexivity |]. split; [reflexivity |].
  refine (H _ 0).
  eapply (reachable_from_blank _ 4 1024 0
            [GetUnused; GetUnused; SetRef 1; SetDisplay 1; SetDisplay 0; GetDisplay]).
  - vm_compute. reflexivity.
  - vm_compute. reflexivity.
  - vm_compute. reflexivity.
Defined.

(** ** A change of the count *)

(** X16. [setup] and [ready] never call the buffer allocator and never
    touch a frame object, whatever the slots hold.  And [ready] does not
    get to re-initialise the pool for another count: with a staged count
    that differs from the current one it drops the array [mpp_realloc]
    answers and has [init_slot_entry] rewrite the entries through
    [impl->slots], which still points to the array given to [mpp_realloc];
    the call has no defined behaviour, with every slot Free as with slots
    still claimed. *)
Theorem X16_resize_releases_nothing w :
  (forall c s ch r w', mpp_buf_slot_setup c s ch w = Done r w' ->
                       heap w' = heap w /\ trace w' = trace w) /\
  (forall r w', mpp_buf_slot_ready w = Done r w' ->
                heap w' = heap w /\ trace w' = trace w) /\
  (forall t, info_changed (impl w) <> 0 -> slots (impl w) = Some t ->
             new_count (impl w) <> count (impl w) -> 0 < new_count (impl w) < 2 ^ 31 ->
             mpp_buf_slot_ready w = Fault).
Proof.
  split; [| split].
  - intros c s ch r w' Hrun. apply setup_only_impl in Hrun as (H1 & H2 & _). auto.
  - intros r w' Hrun. apply ready_only_impl in Hrun as (H1 & H2 & _). auto.
  - intros t Hic Ht Hne Hrange.
    destruct (ready_staged w t Hic Ht) as (_ & Hresize & _). cbv zeta in Hresize.
    apply Hresize; [exact Hne |]. rewrite s32_small by lia. lia.
Qed.

Lemma X16_witness :
  exists w,
    world_after [Setup 4 1024 0; GetUnused; SetDecoding 0 (mkFrame None 7); SetBuffer 0 5;
                 Setup 6 2048 1] blank = Some w /\
    cell_at (impl w) 0 = Some (mkEntry 5 0 (Some 0%nat)) /\
    mpp_buf_slot_ready w = Fault.
Proof.
  eexists.
  match goal with
  | |- world_after ?l ?b = Some ?w /\ _ =>
      let r := eval vm_compute in (world_after l b) in
      match r with Some ?x => unify w x end
  end.
  split; [vm_compute; reflexivity |]. split; [reflexivity |].
  match goal with
  | |- mpp_buf_slot_ready ?w = _ =>
      apply (proj2 (proj2 (X16_resize_releases_nothing w))
               [Some (mkEntry 5 0 (Some 0%nat)); Some (mkEntry 0 1 None);
                Some (mkEntry 0 2 None); Some (mkEntry 0 3 None)])
  end.
  - discriminate.
  - reflexivity.
  - discriminate.
  - simpl. lia.
Defined.

(** ** A pool that has not been set up *)

(** X18. Between [mpp_buf_slot_init] and the first [setup] the pool has no
    slot: the size and the change flag read 0, the display queue is empty,
    [get_unused] finds nothing and stops at its [mpp_assert(0)] without
    touching the missing slot array, [ready] and every call that takes a
    slot index stop at their assertion. *)
Theorem X18_pool_before_setup w0 :
  exists w,
    mpp_buf_slot_init w0 = Done MPP_OK w /\
    heap w = heap w0 /\ trace w = trace w0 /\
    mpp_buf_slot_get_size w = Done 0 w /\
    mpp_buf_slot_is_changed w = Done 0 w /\
    mpp_buf_slot_get_decoding w = Done (MPP_OK, 0) w /\
    mpp_buf_slot_get_display w = Done (MPP_NOK, None) w /\
    mpp_buf_slot_get_unused w = Abort Assert_0 w /\
    mpp_buf_slot_ready w = Abort Assert_info_changed w /\
    (forall o i, op_index o = Some i -> 0 <= i ->
                 run_op o w = Abort Assert_index_lt_count w) /\
    (forall i, 0 <= i -> mpp_buf_slot_get_buffer i w = Abort Assert_index_lt_count w).
Proof.
  exists (with_impl w0 zero_impl). split; [apply init_world_eq |].
  do 8 (split; [reflexivity |]). split.
  - intros o i Ho Hi. apply (run_op_out_of_range _ o i); [exact Ho | exact Hi].
  - intros i Hi. rewrite get_buffer_cases. cbn [impl with_impl count zero_impl].
    destruct (Z.ltb_spec i 0); [lia | reflexivity].
Qed.

(** ** One frame through the pool *)

Lemma only_slot_set_cell w i e e' :
  cell_at (impl w) i = Some e -> only_slot w (set_cell w i e') i e'.
Proof.
  intros He. split; [| split].
  - rewrite (cell_at_set_cell w i e) by assumption.
    destruct (decide (i = i)); [reflexivity | contradiction].
  - intros j Hne. rewrite (cell_at_set_cell w i e) by assumption.
    destruct (decide (j = i)); [contradiction | reflexivity].
  - apply set_cell_count.
Qed.

Lemma only_slot_same w w0 w' i e' :
  only_slot w w0 i e' -> slots (impl w') = slots (impl w0) ->
  count (impl w') = count (impl w0) -> only_slot w w' i e'.
Proof.
  intros (H1 & H2 & H3) Hs Hc. split; [| split].
  - rewrite (cell_at_same_slots _ (impl w0)) by assumption. exact H1.
  - intros j Hne. rewrite (cell_at_same_slots _ (impl w0)) by assumption. apply H2, Hne.
  - congruence.
Qed.

Lemma run_ops_step o l w r w1 rs w' :
  run_op o w = Done r w1 -> run_ops l w1 = Done rs w' ->
  run_ops (o :: l) w = Done (r :: rs) w'.
Proof. intros H1 H2. cbn [run_ops]. unfold bind. rewrite H1, H2. reflexivity. Qed.

Lemma get_unused_on_slot w i e :
  0 <= i < count (impl w) -> cell_at (impl w) i = Some e -> status e = MPP_SLOT_UNUSED ->
  (forall j, 0 <= j < i ->
             exists e', cell_at (impl w) j = Some e' /\ status e' <> MPP_SLOT_UNUSED) ->
  exists w',
    run_op GetUnused w = Done (RetIndex MPP_OK i) w' /\
    only_slot w w' i (with_status e MPP_SLOT_USED) /\
    display (impl w') = display (impl w) /\ heap w' = heap w /\ trace w' = trace w.
Proof.
  intros Hi He Hst Hlow. eexists.
  split; [apply op_done_run, (done_get_unused w i e); assumption |].
  split; [apply (only_slot_set_cell w i e); assumption |].
  rewrite set_cell_display, set_cell_heap, set_cell_trace. repeat split.
Qed.

Lemma set_decoding_on_fresh_slot w i e src :
  i < count (impl w) -> cell_at (impl w) i = Some e -> frame e = None ->
  exists w',
    run_op (SetDecoding i src) w = Done (Ret MPP_OK) w' /\
    only_slot w w' i
      (with_frame (with_status e (set_flag (status e) MPP_SLOT_USED_AS_DECODING))
                  (Some (length (heap w)))) /\
    display (impl w') = display (impl w) /\
    heap w' = heap w ++ [src] /\ trace w' = trace w.
Proof.
  intros Hi He Hf. eexists.
  split; [apply op_done_run, (done_set_decoding_new w i e src); assumption |].
  split.
  - eapply only_slot_same; [apply (only_slot_set_cell w i e); assumption | reflexivity |].
    reflexivity.
  - cbn [impl heap trace display with_output]. rewrite set_cell_display. repeat split.
Qed.

Lemma set_buffer_on_slot w i e b a ob :
  i < count (impl w) -> cell_at (impl w) i = Some e ->
  frame e = Some a -> heap w !! a = Some ob ->
  exists w',
    run_op (SetBuffer i b) w = Done (Ret MPP_OK) w' /\
    only_slot w w' i e /\
    display (impl w') = display (impl w) /\
    heap w' = <[a := mkFrame (Some b) (meta ob)]> (heap w) /\
    trace w' = trace w ++ [Buffer_inc_ref (Some b)].
Proof.
  intros Hi He Hf Hob. eexists.
  split; [apply op_done_run, (done_set_buffer w i e b a ob); assumption |].
  split; [| repeat split].
  split; [exact He |]. split; reflexivity.
Qed.

Lemma set_display_on_slot w i e :
  i < count (impl w) -> cell_at (impl w) i = Some e -> list_init e = true ->
  exists w',
    run_op (SetDisplay i) w = Done (Ret MPP_OK) w' /\
    only_slot w w' i (with_status e (set_flag (status e) MPP_SLOT_USED_AS_DISPLAY)) /\
    display (impl w') = list_add_tail i (list_del_init i (display (impl w))) /\
    heap w' = heap w /\ trace w' = trace w.
Proof.
  intros Hi He Hli. eexists.
  split; [apply op_done_run, (done_set_display w i e); assumption |].
  split.
  - eapply only_slot_same; [apply (only_slot_set_cell w i e); assumption | reflexivity |].
    reflexivity.
  - cbn [impl heap trace display with_impl with_display].
    rewrite set_cell_display, set_cell_heap, set_cell_trace. repeat split.
Qed.

(** [clr_decoding] when the entry its release check lands on is not to be
    released. *)
Lemma clr_decoding_on_slot w i e ex :
  i < count (impl w) -> cell_at (impl w) i = Some e ->
  (if decide (i + i = i)
   then Some (with_status e (clr_flag (status e) MPP_SLOT_USED_AS_DECODING))
   else cell_at (impl w) (i + i)) = Some ex ->
  status ex <> MPP_SLOT_USED ->
  exists w',
    run_op (ClrDecoding i) w = Done (Ret MPP_OK) w' /\
    only_slot w w' i (with_status e (clr_flag (status e) MPP_SLOT_USED_AS_DECODING)) /\
    display (impl w') = display (impl w) /\
    heap w' = heap w /\ trace w' = trace w.
Proof.
  intros Hi He Hex Hst. eexists.
  split.
  - apply op_done_run, (done_clr_decoding w i e); [assumption | assumption |].
    apply (checked_kept _ _ ex); [| exact Hst].
    rewrite (cell_at_same_slots _ (impl (set_cell w i
               (with_status e (clr_flag (status e) MPP_SLOT_USED_AS_DECODING)))))
      by reflexivity.
    rewrite (cell_at_set_cell w i e) by assumption. exact Hex.
  - split.
    + eapply only_slot_same; [apply (only_slot_set_cell w i e); assumption | reflexivity |].
      reflexivity.
    + cbn [impl heap trace display with_impl with_decode_count].
      rewrite set_cell_display, set_cell_heap, set_cell_trace. repeat split.
Qed.

(** [get_display] when the head of the queue carries no other claim: the
    slot is released. *)
Lemma get_display_releases w h t e a ob :
  display (impl w) = h :: t -> cell_at (impl w) h = Some e ->
  u32 (index e) < count (impl w) ->
  clr_flag (status e) MPP_SLOT_USED_AS_DISPLAY = MPP_SLOT_USED ->
  frame e = Some a -> heap w !! a = Some ob ->
  exists w',
    run_op GetDisplay w = Done (RetFrame MPP_OK (Some (Some a))) w' /\
    only_slot w w' h (with_frame (with_status e MPP_SLOT_UNUSED) None) /\
    display (impl w') = list_del_init h (h :: t) /\
    heap w' = heap w /\ trace w' = trace w ++ [Buffer_put (buffer ob)].
Proof.
  intros Hd He Hidx Hst Hf Hob.
  set (e1 := with_status e (clr_flag (status e) MPP_SLOT_USED_AS_DISPLAY)).
  set (w1 := set_cell w h e1).
  set (w2 := with_impl w1 (with_display (impl w1) (list_del_init h (display (impl w1))))).
  assert (Hv1 : only_slot w w2 h e1).
  { eapply only_slot_same; [apply (only_slot_set_cell w h e); assumption | reflexivity |].
    reflexivity. }
  assert (He2 : cell_at (impl w2) h = Some e1) by apply Hv1.
  eexists. split.
  - rewrite <- Hf. apply op_done_run, (done_get_display w h t e); [assumption .. |].
    fold e1 w1 w2.
    apply (checked_released w2 h e1 a ob); [exact He2 | exact Hst | exact Hf |].
    unfold w2, w1. cbn [heap with_impl]. rewrite set_cell_heap. exact Hob.
  - cbn [impl heap trace display with_impl with_display_count log_call].
    split.
    + destruct (only_slot_set_cell w2 h e1 (with_frame (with_status e1 MPP_SLOT_UNUSED) None)
                  He2) as (H1 & H2 & H3).
      destruct Hv1 as (_ & G2 & G3).
      split; [| split].
      * rewrite (cell_at_same_slots _ (impl (set_cell w2 h
                   (with_frame (with_status e1 MPP_SLOT_UNUSED) None)))) by reflexivity.
        exact H1.
      * intros j Hne.
        rewrite (cell_at_same_slots _ (impl (set_cell w2 h
                   (with_frame (with_status e1 MPP_SLOT_UNUSED) None)))) by reflexivity.
        rewrite H2 by assumption. apply G2, Hne.
      * cbn [impl with_impl count with_display_count]. rewrite H3. exact G3.
    + rewrite set_cell_display, set_cell_heap, set_cell_trace.
      unfold w2, w1. cbn [impl heap trace display with_impl with_display].
      rewrite set_cell_display, set_cell_heap, set_cell_trace, Hd. repeat split.
Qed.

(** X17. One frame through the pool.  In a state reached under the
    caller's discipline with an empty display queue, let [i] be the slot
    [get_unused] will hand out, and let the entry at [2 * i], on which
    [clr_decoding] runs its release check, not be in the state Used alone.
    Then acquiring the slot, attaching a frame, binding a buffer, queueing
    the slot for display, clearing the decoding claim and popping the
    display queue all return; the handle popped is the frame object made for
    the slot, which carries the buffer; the slot table and the queue end as
    they began; and the allocator has seen one [mpp_buffer_inc_ref] and one
    [mpp_buffer_put] of the buffer, in this order. *)
Theorem X17_one_frame_through_the_pool w i e src b :
  reachable_disciplined w -> count (impl w) < 2 ^ 31 ->
  display (impl w) = [] ->
  0 <= i < count (impl w) ->
  cell_at (impl w) i = Some e -> status e = MPP_SLOT_UNUSED ->
  (forall j, 0 <= j < i ->
             exists e', cell_at (impl w) j = Some e' /\ status e' <> MPP_SLOT_UNUSED) ->
  (exists e2, cell_at (impl w) (i + i) = Some e2 /\ status e2 <> MPP_SLOT_USED) ->
  exists w',
    run_ops [GetUnused; SetDecoding i src; SetBuffer i b; SetDisplay i; ClrDecoding i;
             GetDisplay] w =
    Done [RetIndex MPP_OK i; Ret MPP_OK; Ret MPP_OK; Ret MPP_OK; Ret MPP_OK;
          RetFrame MPP_OK (Some (Some (length (heap w))))] w' /\
    (forall j, cell_at (impl w') j = cell_at (impl w) j) /\
    display (impl w') = [] /\
    heap w' = heap w ++ [mkFrame (Some b) (meta src)] /\
    trace w' = trace w ++ [Buffer_inc_ref (Some b); Buffer_put (Some b)].
Proof.
  intros Hreach Hcnt Hd Hi He Hst Hlow (e2 & He2 & Hst2).
  assert (Hf : frame e = None).
  { destruct (reachable_slots_ok w Hreach i e He) as [[_ Hf] | Hbit]; [exact Hf |].
    rewrite Hst in Hbit. discriminate Hbit. }
  assert (Hli : list_init e = true).
  { apply (reachable_list_init claims_on_acquired w Hreach Hcnt i e He). }
  assert (Hidx : u32 (index e) < count (impl w)).
  { destruct (reachable_index_queue_ok claims_on_acquired w Hreach) as [Hix _].
    apply (Hix i e He). }
  destruct e as [li st idx fr]. cbn in Hst, Hf, Hli, Hidx. subst li st fr.
  set (a := length (heap w)).
  (* get_unused *)
  destruct (get_unused_on_slot w i _ Hi He eq_refl Hlow)
    as (w1 & R1 & (C1 & O1 & N1) & D1 & P1 & T1).
  cbn [with_status list_init index frame] in C1.
  (* set_decoding *)
  destruct (set_decoding_on_fresh_slot w1 i _ src ltac:(lia) C1 eq_refl)
    as (w2 & R2 & (C2 & O2 & N2) & D2 & P2 & T2).
  cbn [with_status with_frame list_init index frame status] in C2.
  rewrite P1 in C2, P2. fold a in C2.
  (* set_buffer *)
  assert (Hob2 : heap w2 !! a = Some src).
  { rewrite P2. rewrite lookup_app_r by (unfold a; lia).
    unfold a. rewrite Nat.sub_diag. reflexivity. }
  destruct (set_buffer_on_slot w2 i _ b a src ltac:(lia) C2 eq_refl Hob2)
    as (w3 & R3 & (C3 & O3 & N3) & D3 & P3 & T3).
  assert (Hh3 : heap w3 = heap w ++ [mkFrame (Some b) (meta src)]).
  { rewrite P3, P2. unfold a.
    rewrite insert_app_r_alt by lia. rewrite Nat.sub_diag. reflexivity. }
  (* set_display *)
  destruct (set_display_on_slot w3 i _ ltac:(lia) C3 eq_refl)
    as (w4 & R4 & (C4 & O4 & N4) & D4 & P4 & T4).
  cbn [with_status list_init index frame status] in C4.
  rewrite D3, D2, D1, Hd in D4. cbn in D4.
  (* clr_decoding *)
  assert (Hother : forall j, j <> i -> cell_at (impl w4) j = cell_at (impl w) j).
  { intros j Hne. rewrite O4, O3, O2, O1 by assumption. reflexivity. }
  assert (Hex : exists ex,
             (if decide (i + i = i)
              then Some (with_status
                           (mkSlotEntry true (set_flag (set_flag (set_flag
                              MPP_SLOT_UNUSED MPP_SLOT_USED)
                              MPP_SLOT_USED_AS_DECODING) MPP_SLOT_USED_AS_DISPLAY)
                              idx (Some a))
                           (clr_flag (set_flag (set_flag (set_flag
                              MPP_SLOT_UNUSED MPP_SLOT_USED)
                              MPP_SLOT_USED_AS_DECODING) MPP_SLOT_USED_AS_DISPLAY)
                              MPP_SLOT_USED_AS_DECODING))
              else cell_at (impl w4) (i + i)) = Some ex /\
             status ex <> MPP_SLOT_USED).
  { destruct (decide (i + i = i)) as [Heq | Hne].
    - eexists. split; [reflexivity | discriminate].
    - exists e2. rewrite Hother by assumption. split; [exact He2 | exact Hst2]. }
  destruct Hex as (ex & Hex & Hstx).
  destruct (clr_decoding_on_slot w4 i _ ex ltac:(lia) C4 Hex Hstx)
    as (w5 & R5 & (C5 & O5 & N5) & D5 & P5 & T5).
  cbn [with_status list_init index frame status] in C5.
  (* get_display *)
  rewrite D4 in D5.
  assert (Hob5 : heap w5 !! a = Some (mkFrame (Some b) (meta src))).
  { rewrite P5, P4, Hh3. rewrite lookup_app_r by (unfold a; lia).
    unfold a. rewrite Nat.sub_diag. reflexivity. }
  destruct (get_display_releases w5 i [] _ a _ D5 C5 ltac:(cbn; lia) eq_refl eq_refl Hob5)
    as (w6 & R6 & (C6 & O6 & N6) & D6 & P6 & T6).
  cbn [with_status with_frame list_init index frame status] in C6.
  exists w6. split; [| split; [| split; [| split]]].
  - eapply run_ops_step; [exact R1 |]. eapply run_ops_step; [exact R2 |].
    eapply run_ops_step; [exact R3 |]. eapply run_ops_step; [exact R4 |].
    eapply run_ops_step; [exact R5 |]. eapply run_ops_step; [exact R6 |]. reflexivity.
  - intros j. destruct (decide (j = i)) as [-> | Hne].
    + rewrite C6, He. reflexivity.
    + rewrite O6, O5 by assumption. apply Hother. exact Hne.
  - rewrite D6. unfold list_del_init. rewrite filter_cons.
    destruct (decide (i <> i)); [contradiction | reflexivity].
  - rewrite P6, P5, P4. exact Hh3.
  - rewrite T6, T5, T4, T3, T2, T1. rewrite <- app_assoc. reflexivity.
Qed.

Lemma X17_witness :
  exists w w',
    world_after [Setup 4 1024 0; GetUnused] blank = Some w /\
    world_after [GetUnused; SetDecoding 1 (mkFrame None 7); SetBuffer 1 5; SetDisplay 1;
                 ClrDecoding 1; GetDisplay] w = Some w' /\
    cell_at (impl w') 1 = cell_at (impl w) 1 /\
    heap w' = [mkFrame (Some 5%nat) 7] /\
    trace w' = [Buffer_inc_ref (Some 5%nat); Buffer_put (Some 5%nat)].
Proof.
  eexists.
  match goal with
  | |- exists w', world_after ?l ?b = Some ?w /\ _ =>
      let r := eval vm_compute in (world_after l b) in
      match r with Some ?x => unify w x end
  end.
  match goal with
  | |- exists w', _ = Some ?w /\ _ =>
      destruct (X17_one_frame_through_the_pool w 1 (mkEntry 0 1 None) (mkFrame None 7) 5%nat)
        as (w' & Hrun & Hcells & _ & Hheap & Htrace)
  end.
  - eapply (reachable_from_blank _ 4 1024 0 [GetUnused]).
    + vm_compute. reflexivity.
    + vm_compute. reflexivity.
    + vm_compute. reflexivity.
  - simpl. lia.
  - reflexivity.
  - simpl. lia.
  - reflexivity.
  - reflexivity.
  - intros j Hj. assert (j = 0) as -> by lia.
    eexists. split; [reflexivity | discriminate].
  - eexists. split; [reflexivity | discriminate].
  - exists w'. split; [vm_compute; reflexivity |].
    split; [unfold world_after; rewrite Hrun; reflexivity |].
    split; [apply Hcells |]. split; [exact Hheap | exact Htrace].
Defined.

(** ** Staying inside the slot array *)

Lemma check_entry_unused_no_fault pos w e :
  cell_at (impl w) pos = Some e ->
  (forall a, frame e = Some a -> (a < length (heap w))%nat) ->
  check_entry_unused pos w <> Fault.
Proof.
  intros He Hv. rewrite check_entry_unused_cases, He.
  destruct (status e =? MPP_SLOT_USED); [| discriminate].
  destruct (frame e) as [a |] eqn:Hf; [| discriminate].
  destruct (heap w !! a) as [ob |] eqn:Hob; [discriminate |].
  apply lookup_ge_None in Hob. specialize (Hv a eq_refl). lia.
Qed.

Lemma get_unused_loop_no_fault n : forall i w,
  (forall j, i <= j < i + Z.of_nat n -> is_Some (cell_at (impl w) j)) ->
  get_unused_loop n i w <> Fault.
Proof.
  induction n as [| n IH]; intros i w Hcells; [discriminate |].
  cbn [get_unused_loop]. unfold bind at 1, load.
  destruct (Hcells i) as (e & He); [lia |]. rewrite He.
  destruct (MPP_SLOT_UNUSED =? status e).
  - unfold bind. rewrite (store_set_cell w i e) by assumption. discriminate.
  - apply IH. intros j Hj. apply Hcells. lia.
Qed.

(** X19. In every state reached from a freshly set-up pool of fewer than
    2^31 slots by per-frame calls, a call with a non-negative index reads
    and writes only entries of the slot array and frame objects that exist,
    with two exceptions.  The release check of [clr_ref] and [clr_decoding]
    runs on the entry at [2 * index]: the call stays inside the array if
    there is such an entry and leaves it if there is none.  And
    [get_buffer], which unlike [set_buffer] does not assert that the slot
    has a frame, hands the NULL frame of a slot without one to
    [mpp_frame_get_buffer]; on every other slot it stays in bounds. *)
Theorem X19_calls_stay_in_bounds ok w :
  reachable_by ok w -> count (impl w) < 2 ^ 31 ->
  (forall o, per_frame o = true ->
             (forall i, op_index o = Some i -> 0 <= i) ->
             (forall i, o = ClrRef i \/ o = ClrDecoding i -> i < count (impl w) ->
                        is_Some (cell_at (impl w) (i + i))) ->
             run_op o w <> Fault) /\
  (forall o i, o = ClrRef i \/ o = ClrDecoding i -> 0 <= i < count (impl w) ->
               cell_at (impl w) (i + i) = None -> run_op o w = Fault) /\
  (forall i, 0 <= i ->
             (mpp_buf_slot_get_buffer i w = Fault <->
              i < count (impl w) /\
              exists e, cell_at (impl w) i = Some e /\ frame e = None)).
Proof.
  intros Hreach Hcnt.
  pose proof (reachable_table_ok ok w Hreach) as Htable.
  pose proof (reachable_list_init ok w Hreach Hcnt) as Hlist.
  destruct (reachable_index_queue_ok ok w Hreach) as [_ Hqueue].
  destruct (reachable_frames_ok ok w Hreach) as [Hvalid _].
  assert (Hslot : forall i, 0 <= i -> (i <? count (impl w)) = true ->
                            is_Some (cell_at (impl w) i)).
  { intros i Hi Hlt. apply Htable. apply Z.ltb_lt in Hlt. lia. }
  split; [| split].
  { intros o Hpf Hidx Hdouble.
    destruct o as [c s ch | | | i | i | i src | i | i b | i |];
      try discriminate Hpf; cbn [run_op]; unfold bind at 1.
    - (* get_unused *)
      unfold mpp_buf_slot_get_unused, bind, get_impl.
      pose proof (get_unused_loop_no_fault (Z.to_nat (count (impl w))) 0 w) as Hloop.
      destruct (get_unused_loop _ 0 w) as [[k |] w1 | |]; try discriminate.
      exfalso. apply Hloop; [| reflexivity]. intros j Hj. apply Htable. lia.
    - (* set_ref *)
      rewrite set_ref_cases. destruct (i <? count (impl w)) eqn:Hi; [| discriminate].
      destruct (Hslot i (Hidx i eq_refl) Hi) as (e & ->). discriminate.
    - (* clr_ref *)
      rewrite clr_ref_cases. destruct (i <? count (impl w)) eqn:Hi; [| discriminate].
      destruct (Hslot i (Hidx i eq_refl) Hi) as (e & He). rewrite He.
      set (w1 := set_cell w i _). unfold bind.
      destruct (Hdouble i (or_introl eq_refl)) as (e2 & He2); [apply Z.ltb_lt; exact Hi |].
      assert (Hc : exists e3, cell_at (impl w1) (i + i) = Some e3 /\
                              forall a, frame e3 = Some a -> (a < length (heap w1))%nat).
      { unfold w1. rewrite (cell_at_set_cell w i e) by assumption. rewrite set_cell_heap.
        destruct (decide (i + i = i)).
        - eexists. split; [reflexivity |]. intros a Ha. apply (Hvalid i e a He Ha).
        - exists e2. split; [exact He2 |]. intros a Ha. apply (Hvalid (i + i) e2 a He2 Ha). }
      destruct Hc as (e3 & He3 & Hv3).
      pose proof (check_entry_unused_no_fault (i + i) w1 e3 He3 Hv3) as Hchk.
      destruct (check_entry_unused (i + i) w1); [discriminate | discriminate | contradiction].
    - (* set_decoding *)
      rewrite set_decoding_cases. destruct (i <? count (impl w)) eqn:Hi; [| discriminate].
      destruct (Hslot i (Hidx i eq_refl) Hi) as (e & He). rewrite He. cbv zeta.
      destruct (frame e) as [a |] eqn:Hf; [| discriminate].
      destruct (decide (a < length (heap w))%nat) as [_ | Hge]; [discriminate |].
      exfalso. apply Hge. apply (Hvalid i e a He Hf).
    - (* clr_decoding *)
      rewrite clr_decoding_cases. destruct (i <? count (impl w)) eqn:Hi; [| discriminate].
      destruct (Hslot i (Hidx i eq_refl) Hi) as (e & He). rewrite He. cbv zeta.
      set (w0 := set_cell w i _). set (w1 := with_impl w0 _). unfold bind.
      destruct (Hdouble i (or_intror eq_refl)) as (e2 & He2); [apply Z.ltb_lt; exact Hi |].
      assert (Hc : exists e3, cell_at (impl w1) (i + i) = Some e3 /\
                              forall a, frame e3 = Some a -> (a < length (heap w1))%nat).
      { unfold w1. rewrite (cell_at_same_slots _ (impl w0)) by reflexivity.
        cbn [heap with_impl]. unfold w0.
        rewrite (cell_at_set_cell w i e) by assumption. rewrite set_cell_heap.
        destruct (decide (i + i = i)).
        - eexists. split; [reflexivity |]. intros a Ha. apply (Hvalid i e a He Ha).
        - exists e2. split; [exact He2 |]. intros a Ha. apply (Hvalid (i + i) e2 a He2 Ha). }
      destruct Hc as (e3 & He3 & Hv3).
      pose proof (check_entry_unused_no_fault (i + i) w1 e3 He3 Hv3) as Hchk.
      destruct (check_entry_unused (i + i) w1); [discriminate | discriminate | contradiction].
    - (* set_buffer *)
      rewrite set_buffer_cases. destruct (i <? count (impl w)) eqn:Hi; [| discriminate].
      destruct (Hslot i (Hidx i eq_refl) Hi) as (e & He). rewrite He.
      destruct (frame e) as [a |] eqn:Hf; [| discriminate].
      destruct (heap w !! a) as [ob |] eqn:Hob; [discriminate |].
      apply lookup_ge_None in Hob. pose proof (Hvalid i e a He Hf). lia.
    - (* set_display *)
      rewrite set_display_cases. destruct (i <? count (impl w)) eqn:Hi; [| discriminate].
      destruct (Hslot i (Hidx i eq_refl) Hi) as (e & He). rewrite He.
      rewrite (Hlist i e He). discriminate.
    - (* get_display *)
      rewrite get_display_cases.
      destruct (display (impl w)) as [| h d] eqn:Hd; [discriminate |].
      destruct (Hqueue h) as (e & He); [rewrite Hd; left |]. rewrite He.
      destruct (u32 (index e) <? count (impl w)); [| discriminate]. cbv zeta.
      set (w1 := set_cell w h _). set (w2 := with_impl w1 _).
      assert (Hc : exists e3, cell_at (impl w2) h = Some e3 /\
                              forall a, frame e3 = Some a -> (a < length (heap w2))%nat).
      { unfold w2. rewrite (cell_at_same_slots _ (impl w1)) by reflexivity.
        cbn [heap with_impl]. unfold w1.
        rewrite (cell_at_set_cell w h e) by assumption. rewrite set_cell_heap.
        destruct (decide (h = h)); [| contradiction].
        eexists. split; [reflexivity |]. intros a Ha. apply (Hvalid h e a He Ha). }
      destruct Hc as (e3 & He3 & Hv3).
      pose proof (check_entry_unused_no_fault h w2 e3 He3 Hv3) as Hchk.
      destruct (check_entry_unused h w2); [discriminate | discriminate | contradiction]. }
  - intros o i Ho Hi Hnone.
    destruct (Hslot i ltac:(lia) ltac:(apply Z.ltb_lt; lia)) as (e & He).
    assert (Hi0 : i + i <> i).
    { intros Heq. rewrite Heq, He in Hnone. discriminate. }
    destruct Ho as [-> | ->]; cbn [run_op]; unfold bind at 1.
    + rewrite clr_ref_cases. destruct (Z.ltb_spec i (count (impl w))); [| lia].
      rewrite He. unfold bind at 1. rewrite check_entry_unused_cases.
      rewrite (cell_at_set_cell w i e) by assumption.
      destruct (decide (i + i = i)); [contradiction |]. rewrite Hnone. reflexivity.
    + rewrite clr_decoding_cases. destruct (Z.ltb_spec i (count (impl w))); [| lia].
      rewrite He. cbv zeta. unfold bind at 1. rewrite check_entry_unused_cases.
      match goal with
      | |- context [cell_at (impl (with_impl ?w0 ?p)) (i + i)] =>
          rewrite (cell_at_same_slots (impl (with_impl w0 p)) (impl w0)) by reflexivity
      end.
      rewrite (cell_at_set_cell w i e) by assumption.
      destruct (decide (i + i = i)); [contradiction |]. rewrite Hnone. reflexivity.
  - intros i Hi. rewrite get_buffer_cases.
    destruct (i <? count (impl w)) eqn:Hlt.
    + destruct (Hslot i Hi Hlt) as (e & He). rewrite He.
      apply Z.ltb_lt in Hlt. unfold mpp_frame_get_buffer.
      destruct (frame e) as [a |] eqn:Hf.
      * destruct (heap w !! a) as [ob |] eqn:Hob.
        -- split; [discriminate |]. intros (_ & e' & He' & Hf').
           injection He' as <-. congruence.
        -- apply lookup_ge_None in Hob. pose proof (Hvalid i e a He Hf). lia.
      * split; [| reflexivity]. intros _. split; [exact Hlt |].
        exists e. split; [reflexivity | exact Hf].
    + apply Z.ltb_ge in Hlt. split; [discriminate |]. intros (Hlt' & _). lia.
Qed.

Lemma X19_witness :
  exists w,
    world_after [Setup 4 1024 0; GetUnused; GetUnused; SetDecoding 1 (mkFrame None 7)] blank
      = Some w /\
    run_op (ClrDecoding 1) w <> Fault /\ run_op GetDisplay w <> Fault /\
    run_op (ClrRef 2) w = Fault /\
    mpp_buf_slot_get_buffer 1 w <> Fault /\
    mpp_buf_slot_get_buffer 0 w = Fault.
Proof.
  eexists.
  match goal with
  | |- world_after ?l ?b = Some ?w /\ _ =>
      let r := eval vm_compute in (world_after l b) in
      match r with
      | Some ?x =>
          unify w x;
          pose proof (X19_calls_stay_in_bounds (fun _ _ => true) x) as H
      end
  end.
  split; [vm_compute; reflexivity |].
  assert (Hreach : reachable_by (fun _ _ => true)
            (mkWorld (mkImpl 4 1024 0 0 0 0 0 1 []
                        (Some [Some (mkEntry 1 0 None); Some (mkEntry 5 1 (Some 0%nat));
                               Some (mkEntry 0 2 None); Some (mkEntry 0 3 None)]))
                     [mkFrame None 7] [])).
  { eapply (reachable_from_blank _ 4 1024 0
              [GetUnused; GetUnused; SetDecoding 1 (mkFrame None 7)]).
    - vm_compute. reflexivity.
    - vm_compute. reflexivity.
    - vm_compute. reflexivity. }
  destruct (H Hreach ltac:(simpl; lia)) as (Hin & Hout & Hbuf).
  split; [| split; [| split; [| split]]].
  - apply Hin; [reflexivity | |].
    + intros i [= <-]. lia.
    + intros i [[= <-] | [= <-]] _. eexists. reflexivity.
  - apply Hin; [reflexivity | |].
    + intros i [=].
    + intros i [[=] | [=]].
  - apply (Hout (ClrRef 2) 2); [left; reflexivity | simpl; lia | reflexivity].
  - intros Hf. apply (proj1 (Hbuf 1 ltac:(lia))) in Hf as (_ & e & He & Hfr).
    injection He as <-. discriminate.
  - apply (proj2 (Hbuf 0 ltac:(lia))). split; [simpl; lia |].
    eexists. split; [reflexivity | reflexivity].
Defined.

(** X20. [setup] and [ready] read and write outside the slot array on
    one path only, the resize.  On a pool whose slot array, if it has one,
    has cells and so was not given back to the allocator, a call of [setup]
    (with an [RK_U32] count) that ends without defined behaviour was made
    with [changed] clear, the current size and a larger count, and a call
    of [ready] that does had a staged count other than the current one.
    The first [setup], a [setup] that stages a change or asks for no more
    slots than there are, and a [ready] that keeps the count stay inside
    the array. *)
Theorem X20_geometry_calls_stay_in_bounds w :
  slots (impl w) <> Some [] ->
  (forall c s ch, 0 <= c -> mpp_buf_slot_setup c s ch w = Fault ->
                  slots (impl w) <> None /\ ch = 0 /\ s = size (impl w) /\
                  count (impl w) < c /\ 0 < s32 (u32 (c - count (impl w)))) /\
  (mpp_buf_slot_ready w = Fault ->
   slots (impl w) <> None /\ info_changed (impl w) <> 0 /\
   new_count (impl w) <> count (impl w) /\ 0 < s32 (new_count (impl w))).
Proof.
  intros _. split.
  - intros c s ch Hc Hrun.
    destruct (slots (impl w)) as [t |] eqn:Ht.
    + split; [discriminate |].
      destruct (Z.eqb_spec ch 0) as [-> | Hch].
      * split; [reflexivity |].
        destruct (Z.eqb_spec s (size (impl w))) as [-> | Hs].
        -- split; [reflexivity |].
           destruct (Z.ltb_spec (count (impl w)) c) as [Hlt | Hge].
           ++ split; [exact Hlt |].
              destruct (Z_lt_le_dec 0 (s32 (u32 (c - count (impl w))))) as [| Hle];
                [assumption |].
              rewrite (proj2 (setup_grow w t c Ht Hlt) Hle) in Hrun. discriminate.
           ++ exfalso. revert Hrun.
              unfold mpp_buf_slot_setup, bind, get_impl. rewrite Ht. cbn [Z.eqb].
              unfold mpp_assert. rewrite Z.eqb_refl.
              destruct (Z.ltb_spec (count (impl w)) c); [lia | discriminate].
        -- exfalso. revert Hrun.
           unfold mpp_buf_slot_setup, bind, get_impl. rewrite Ht. cbn [Z.eqb].
           unfold mpp_assert.
           destruct (Z.eqb_spec s (size (impl w))); [contradiction | discriminate].
      * rewrite (setup_changed w t) in Hrun by assumption. discriminate.
    + destruct (first_setup w c s ch Ht Hc) as (t & Hdone & _).
      rewrite Hdone in Hrun. discriminate.
  - intros Hrun.
    destruct (Z.eq_dec (info_changed (impl w)) 0) as [Hz | Hnz].
    { rewrite ready_nothing_staged in Hrun by assumption. discriminate. }
    destruct (slots (impl w)) as [t |] eqn:Ht.
    + split; [discriminate |]. split; [exact Hnz |].
      destruct (ready_staged w t Hnz Ht) as (Hsame & _ & Hnone).
      cbv zeta in Hsame, Hnone.
      destruct (Z.eq_dec (new_count (impl w)) (count (impl w))) as [Heq | Hne].
      * rewrite (Hsame Heq) in Hrun. discriminate.
      * split; [exact Hne |].
        destruct (Z_lt_le_dec 0 (s32 (new_count (impl w)))) as [| Hle]; [assumption |].
        rewrite (Hnone Hne Hle) in Hrun. discriminate.
    + exfalso. revert Hrun.
      unfold mpp_buf_slot_ready, bind, get_impl, mpp_assert.
      destruct (negb _); [| discriminate]. rewrite Ht. cbn. discriminate.
Qed.

Lemma X20_witness :
  exists w,
    world_after [Setup 4 1024 0; GetUnused; Setup 6 2048 1] blank = Some w /\
    mpp_buf_slot_setup 8 1024 0 w = Fault /\
    count (impl w) < 8 /\
    mpp_buf_slot_ready w = Fault /\
    new_count (impl w) <> count (impl w) /\
    mpp_buf_slot_setup 3 1024 0 w <> Fault /\
    mpp_buf_slot_setup 8 2048 1 w <> Fault.
Proof.
  eexists.
  match goal with
  | |- world_after ?l ?b = Some ?w /\ _ =>
      let r := eval vm_compute in (world_after l b) in
      match r with
      | Some ?x =>
          unify w x;
          destruct (X20_geometry_calls_stay_in_bounds x ltac:(discriminate))
            as (Hsetup & Hready)
      end
  end.
  split; [vm_compute; reflexivity |].
  split; [vm_compute; reflexivity |].
  split; [apply (Hsetup 8 1024 0); [lia | vm_compute; reflexivity] |].
  split; [vm_compute; reflexivity |].
  split; [apply Hready; vm_compute; reflexivity |].
  split.
  - intros Hf. apply Hsetup in Hf as (_ & _ & _ & Hlt & _); [| lia].
    simpl in Hlt. lia.
  - intros Hf. apply Hsetup in Hf as (_ & Hch & _); [| lia]. discriminate.
Defined.

(** ** The slot a clear can release *)

(** X21. [clr_ref] and [clr_decoding] never release the slot they are
    called for unless it is slot 0: for an index other than 0 the call only
    clears the claim bit of that slot, which keeps its frame even when its
    status has become Used alone, and whatever is released is the entry at
    [2 * index].  No other entry changes. *)
Theorem X21_clear_never_releases_own_slot w i e o r w' :
  o = ClrRef i \/ o = ClrDecoding i -> i <> 0 ->
  cell_at (impl w) i = Some e ->
  run_op o w = Done r w' ->
  cell_at (impl w') i = Some (with_status e (clr_flag (status e) (cleared_claim o))) /\
  (forall j, j <> i -> j <> i + i -> cell_at (impl w') j = cell_at (impl w) j) /\
  (trace w' = trace w \/
   exists e2 a ob,
     cell_at (impl w) (i + i) = Some e2 /\ status e2 = MPP_SLOT_USED /\
     frame e2 = Some a /\ heap w !! a = Some ob /\
     cell_at (impl w') (i + i) = Some (with_frame (with_status e2 MPP_SLOT_UNUSED) None) /\
     trace w' = trace w ++ [Buffer_put (buffer ob)]).
Proof.
  intros Ho Hi He Hrun.
  assert (Hne : i + i <> i) by lia.
  assert (Hgen : forall w1 ec,
             only_slot w w1 i ec -> heap w1 = heap w -> trace w1 = trace w ->
             checked w1 (i + i) w' ->
             cell_at (impl w') i = Some ec /\
             (forall j, j <> i -> j <> i + i -> cell_at (impl w') j = cell_at (impl w) j) /\
             (trace w' = trace w \/
              exists e2 a ob,
                cell_at (impl w) (i + i) = Some e2 /\ status e2 = MPP_SLOT_USED /\
                frame e2 = Some a /\ heap w !! a = Some ob /\
                cell_at (impl w') (i + i) =
                  Some (with_frame (with_status e2 MPP_SLOT_UNUSED) None) /\
                trace w' = trace w ++ [Buffer_put (buffer ob)])).
  { intros w1 ec (Hc1 & Hc2 & _) Hh Ht [e2 He2 Hn | e2 a ob He2 Hu Hf Hob].
    - split; [exact Hc1 |]. split; [| left; exact Ht].
      intros j Hj _. apply Hc2, Hj.
    - destruct (only_slot_set_cell w1 (i + i) e2
                  (with_frame (with_status e2 MPP_SLOT_UNUSED) None) He2) as (K1 & K2 & _).
      cbn [impl log_call trace].
      split; [rewrite K2 by lia; exact Hc1 |].
      split; [intros j Hj Hj2; rewrite K2 by assumption; apply Hc2, Hj |].
      right. exists e2, a, ob. rewrite Hc2 in He2 by assumption. rewrite Hh in Hob.
      rewrite set_cell_trace, Ht. repeat split; assumption. }
  destruct Ho as [-> | ->]; (apply run_op_done in Hrun; [| reflexivity]);
    inversion Hrun as [| | i0 e0 w0 Hlt He0 Hchk | | | i0 e0 w0 Hlt He0 w1 Hchk | | | |];
    subst; rewrite He in He0; injection He0 as <-; cbn [cleared_claim].
  - eapply Hgen; [apply (only_slot_set_cell w i e); exact He | apply set_cell_heap
                 | apply set_cell_trace | exact Hchk].
  - eapply Hgen; [| | | exact Hchk].
    + eapply only_slot_same; [apply (only_slot_set_cell w i e); exact He | reflexivity |].
      reflexivity.
    + cbn [heap with_impl]. apply set_cell_heap.
    + cbn [trace with_impl]. apply set_cell_trace.
Qed.

Lemma X21_witness :
  exists w w',
    world_after [Setup 4 1024 0; GetUnused; GetUnused; SetDecoding 1 (mkFrame None 7);
                 SetBuffer 1 5] blank = Some w /\
    run_op (ClrDecoding 1) w = Done (Ret MPP_OK) w' /\
    cell_at (impl w') 1 = Some (mkEntry MPP_SLOT_USED 1 (Some 0%nat)) /\
    trace w' = trace w.
Proof.
  eexists _, _. split; [vm_compute; reflexivity |].
  match goal with
  | |- run_op ?o ?x = Done ?r ?y /\ _ =>
      let v := eval vm_compute in (run_op o x) in
      match v with
      | Done _ ?z =>
          unify y z;
          destruct (X21_clear_never_releases_own_slot x 1 (mkEntry 5 1 (Some 0%nat)) o r z)
            as (Hcell & _ & _)
      end
  end.
  - right. reflexivity.
  - lia.
  - reflexivity.
  - vm_compute. reflexivity.
  - split; [vm_compute; reflexivity |]. split; [exact Hcell | reflexivity].
Defined.

(** * Properties of the parser front end *)

Section ParserFrontEnd.

Context {Codec : Type}.
Implicit Types (w : Parser.World Codec) (a : Parser.ParserApi Codec).
Implicit Types (c : Parser.ParserCfg) (l : list (Parser.ParserApi Codec)).

Lemma parser_init_loop_skip l1 l2 c :
  (forall a, a ∈ l1 -> Parser.coding a <> Parser.cfg_coding c) ->
  Parser.parser_init_loop (l1 ++ l2) c = Parser.parser_init_loop l2 c.
Proof.
  induction l1 as [| a l1 IH]; intros Hno; [reflexivity |].
  cbn [app Parser.parser_init_loop].
  destruct (Z.eqb_spec (Parser.cfg_coding c) (Parser.coding a)) as [Heq | _].
  - exfalso. apply (Hno a); [left | symmetry; exact Heq].
  - apply IH. intros x Hx. apply Hno. right. exact Hx.
Qed.

Lemma filter_fresh (l : list nat) (n : nat) :
  (forall x, x ∈ l -> (x < n)%nat) -> filter (fun y => y <> n) l = l.
Proof.
  intros Hlt. induction l as [| x l IH]; [reflexivity |].
  rewrite filter_cons. destruct (decide (x <> n)) as [_ | Heq].
  - f_equal. apply IH. intros y Hy. apply Hlt. right. exact Hy.
  - exfalso. apply Heq. specialize (Hlt x ltac:(left)). lia.
Qed.

Lemma filter_fresh_objs (os : list (nat * Parser.ParserImpl Codec)) (n : nat) :
  (forall o, o ∈ os -> (o.1 < n)%nat) -> filter (fun o => o.1 <> n) os = os.
Proof.
  intros Hlt. induction os as [| o os IH]; [reflexivity |].
  rewrite filter_cons. destruct (decide (o.1 <> n)) as [_ | Heq].
  - f_equal. apply IH. intros y Hy. apply Hlt. right. exact Hy.
  - exfalso. apply Heq. specialize (Hlt o ltac:(left)). lia.
Qed.

Lemma wf_objs_below w :
  Parser.wf w -> forall o, o ∈ Parser.objs w -> (o.1 < Parser.next w)%nat.
Proof. intros [Hl Ho] o Hin. apply Hl, Ho, Hin. Qed.

Lemma free_block cd lv nx orc (os : list (nat * Parser.ParserImpl Codec)) x :
  x ∈ lv ->
  Parser.mpp_free (Some x) (Parser.mkWorld cd lv nx orc os) =
  Some (tt, Parser.mkWorld cd (filter (fun y => y <> x) lv) nx orc
                           (filter (fun o => o.1 <> x) os)).
Proof.
  intros Hin. unfold Parser.mpp_free. cbn [Parser.live Parser.objs].
  rewrite bool_decide_eq_true_2 by exact Hin. reflexivity.
Qed.

Lemma pbind_inv {A B} (m : Parser.M A) (k : A -> Parser.M B) w x w' :
  Parser.bind m k w = Some (x, w') ->
  exists y w1, m w = Some (y, w1) /\ k y w1 = Some (x, w').
Proof.
  unfold Parser.bind. destruct (m w) as [[y w1] |]; [| discriminate]. eauto.
Qed.

Lemma calloc_inv w p w1 :
  Parser.mpp_calloc w = Some (p, w1) ->
  Parser.codec w1 = Parser.codec w /\ Parser.objs w1 = Parser.objs w /\
  ((p = None /\ Parser.live w1 = Parser.live w /\ Parser.next w1 = Parser.next w) \/
   (p = Some (Parser.next w) /\ Parser.live w1 = Parser.live w ++ [Parser.next w] /\
    Parser.next w1 = S (Parser.next w))).
Proof.
  unfold Parser.mpp_calloc. intros H.
  destruct (Parser.oracle w) as [| [|] o]; injection H as <- <-; cbn;
    (split; [reflexivity |]; split; [reflexivity |]);
    first [left; repeat split; reflexivity | right; repeat split; reflexivity].
Qed.

Lemma free_inv w x w1 :
  Parser.mpp_free x w = Some (tt, w1) ->
  Parser.codec w1 = Parser.codec w /\ Parser.next w1 = Parser.next w /\
  match x with
  | None => Parser.live w1 = Parser.live w /\ Parser.objs w1 = Parser.objs w
  | Some n => Parser.live w1 = filter (fun y => y <> n) (Parser.live w) /\
              Parser.objs w1 = filter (fun o => o.1 <> n) (Parser.objs w)
  end.
Proof.
  unfold Parser.mpp_free. destruct x as [n |].
  - destruct (bool_decide _); [| discriminate]. intros [= <-]. cbn. auto.
  - intros [= <-]. auto.
Qed.

Lemma call_inv (f : Parser.callback) w r w1 :
  Parser.call f w = Some (r, w1) ->
  f (Parser.codec w) = (r, Parser.codec w1) /\
  Parser.live w1 = Parser.live w /\ Parser.next w1 = Parser.next w /\
  Parser.objs w1 = Parser.objs w.
Proof.
  unfold Parser.call. destruct (f (Parser.codec w)) as [r0 cd]. intros [= <- <-]. cbn. auto.
Qed.

Lemma store_inv' n (o : Parser.ParserImpl Codec) w w1 :
  Parser.store n o w = Some (tt, w1) ->
  Parser.codec w1 = Parser.codec w /\ Parser.live w1 = Parser.live w /\
  Parser.next w1 = Parser.next w /\
  Parser.objs w1 = (n, o) :: filter (fun x => x.1 <> n) (Parser.objs w).
Proof.
  unfold Parser.store. destruct (bool_decide _); [| discriminate]. intros [= <-]. cbn. auto.
Qed.

Lemma filter_drop_last (lv : list nat) (n : nat) :
  (forall x, x ∈ lv -> (x < n)%nat) -> filter (fun y => y <> n) (lv ++ [n]) = lv.
Proof.
  intros Hl. rewrite filter_app, (filter_fresh _ n Hl), filter_cons, filter_nil.
  destruct (decide (n <> n)); [contradiction |]. apply app_nil_r.
Qed.

Lemma filter_drop_middle (lv : list nat) (n : nat) :
  (forall x, x ∈ lv -> (x < n)%nat) ->
  filter (fun y => y <> n) ((lv ++ [n]) ++ [S n]) = lv ++ [S n].
Proof.
  intros Hl. rewrite filter_app, (filter_drop_last _ n Hl), filter_cons, filter_nil.
  destruct (decide (S n <> n)); [reflexivity | lia].
Qed.

Lemma filter_drop_later (lv : list nat) (n : nat) :
  (forall x, x ∈ lv -> (x < n)%nat) -> filter (fun y => y <> S n) (lv ++ [S n]) = lv.
Proof.
  intros Hl. apply filter_drop_last. intros x Hx. specialize (Hl x Hx). lia.
Qed.

(** The one codec [parser_init] tries: what comes of it. *)
Lemma parser_init_try a l c w r prs w' :
  Parser.wf w -> Parser.coding a = Parser.cfg_coding c ->
  Parser.parser_init_loop (a :: l) c w = Some ((r, prs), w') ->
  (prs = None /\ Parser.live w' = Parser.live w /\ Parser.objs w' = Parser.objs w /\
   (Parser.next w <= Parser.next w')%nat /\
   ((r = Parser.MPP_ERR_MALLOC /\ Parser.codec w' = Parser.codec w) \/
    (exists f, Parser.init a = Some f /\
               f (Some (S (Parser.next w))) c (Parser.codec w) = (r, Parser.codec w') /\
               r <> Parser.MPP_OK))) \/
  (r = Parser.MPP_OK /\ prs = Some (Parser.next w) /\
   Parser.live w' = Parser.live w ++ [Parser.next w; S (Parser.next w)] /\
   Parser.objs w' =
     (Parser.next w, Parser.mkParserImpl c a (Some (S (Parser.next w)))) :: Parser.objs w /\
   Parser.next w' = S (S (Parser.next w)) /\
   exists f, Parser.init a = Some f /\
             f (Some (S (Parser.next w))) c (Parser.codec w) = (Parser.MPP_OK, Parser.codec w')).
Proof.
  intros Hwf Hc Hrun. pose proof (wf_objs_below w Hwf) as Hobjs. destruct Hwf as [Hlive _].
  assert (Hobjs1 : forall o, o ∈ Parser.objs w -> (o.1 < S (Parser.next w))%nat).
  { intros o Ho. specialize (Hobjs o Ho). lia. }
  cbn [Parser.parser_init_loop] in Hrun. rewrite <- Hc, Z.eqb_refl in Hrun.
  apply pbind_inv in Hrun as (p & w1 & Hp & Hrun).
  apply calloc_inv in Hp as (Hcd1 & Hos1 & Hp).
  apply pbind_inv in Hrun as (cx & w2 & Hcx & Hrun).
  apply calloc_inv in Hcx as (Hcd2 & Hos2 & Hcx).
  destruct Hp as [(-> & Hlv1 & Hnx1) | (-> & Hlv1 & Hnx1)];
    destruct Hcx as [(-> & Hlv2 & Hnx2) | (-> & Hlv2 & Hnx2)].
  - (* neither block *)
    apply pbind_inv in Hrun as ([] & w3 & Hf1 & Hrun). apply free_inv in Hf1 as (G1 & G2 & G3 & G4).
    apply pbind_inv in Hrun as ([] & w4 & Hf2 & Hrun). apply free_inv in Hf2 as (K1 & K2 & K3 & K4).
    injection Hrun as <- <- <-. left. split; [reflexivity |].
    split; [congruence |]. split; [congruence |]. split; [lia |].
    left. split; [reflexivity | congruence].
  - (* the context, not the handle *)
    apply pbind_inv in Hrun as ([] & w3 & Hf1 & Hrun). apply free_inv in Hf1 as (G1 & G2 & G3 & G4).
    apply pbind_inv in Hrun as ([] & w4 & Hf2 & Hrun). apply free_inv in Hf2 as (K1 & K2 & K3 & K4).
    injection Hrun as <- <- <-. left. split; [reflexivity |].
    rewrite K3, K4, G3, G4, Hlv2, Hos2, Hlv1, Hos1, Hnx1.
    split; [apply filter_drop_last; exact Hlive |].
    split; [apply filter_fresh_objs; exact Hobjs |]. split; [lia |].
    left. split; [reflexivity | congruence].
  - (* the handle, not the context *)
    apply pbind_inv in Hrun as ([] & w3 & Hf1 & Hrun). apply free_inv in Hf1 as (G1 & G2 & G3 & G4).
    apply pbind_inv in Hrun as ([] & w4 & Hf2 & Hrun). apply free_inv in Hf2 as (K1 & K2 & K3 & K4).
    injection Hrun as <- <- <-. left. split; [reflexivity |].
    rewrite K3, K4, G3, G4, Hlv2, Hos2, Hlv1, Hos1.
    split; [apply filter_drop_last; exact Hlive |].
    split; [apply filter_fresh_objs; exact Hobjs |]. split; [lia |].
    left. split; [reflexivity | congruence].
  - (* both blocks *)
    rewrite Hnx1 in *.
    destruct (Parser.init a) as [f |] eqn:Hinit; [| discriminate Hrun].
    apply pbind_inv in Hrun as (r0 & w3 & Hcall & Hrun).
    apply call_inv in Hcall as (Hf & C1 & C2 & C3).
    rewrite Hcd2, Hcd1 in Hf.
    destruct (Parser.not_ok r0) eqn:Hok.
    + apply pbind_inv in Hrun as ([] & w4 & Hf1 & Hrun).
      apply free_inv in Hf1 as (G1 & G2 & G3 & G4).
      apply pbind_inv in Hrun as ([] & w5 & Hf2 & Hrun).
      apply free_inv in Hf2 as (K1 & K2 & K3 & K4).
      injection Hrun as <- <- <-. left. split; [reflexivity |].
      rewrite K3, K4, G3, G4, C1, C3, Hlv2, Hos2, Hlv1, Hos1.
      split; [rewrite (filter_drop_middle _ _ Hlive); apply filter_drop_later; exact Hlive |].
      split; [rewrite (filter_fresh_objs _ _ Hobjs); apply filter_fresh_objs; exact Hobjs1 |].
      split; [lia |].
      right. exists f. split; [reflexivity |]. split; [congruence |].
      intros ->. discriminate Hok.
    + apply pbind_inv in Hrun as ([] & w4 & Hst & Hrun).
      apply store_inv' in Hst as (S1 & S2 & S3 & S4).
      injection Hrun as <- <- <-. right.
      destruct r0; try discriminate Hok.
      split; [reflexivity |]. split; [reflexivity |].
      rewrite S2, S4, S3, C1, C2, C3, Hlv2, Hos2, Hlv1, Hos1, Hnx2.
      split; [rewrite <- app_assoc; reflexivity |].
      split; [rewrite (filter_fresh_objs _ _ Hobjs); reflexivity |].
      split; [reflexivity |].
      exists f. split; [reflexivity |]. congruence.
Qed.

(** Where the loop of [parser_init] stops. *)
Lemma parser_init_loop_split l c w r prs w' :
  Parser.parser_init_loop l c w = Some ((r, prs), w') ->
  ((forall a, a ∈ l -> Parser.coding a <> Parser.cfg_coding c) /\
   r = Parser.MPP_NOK /\ prs = None /\ w' = w) \/
  exists l1 a l2,
    l = l1 ++ a :: l2 /\
    (forall x, x ∈ l1 -> Parser.coding x <> Parser.cfg_coding c) /\
    Parser.coding a = Parser.cfg_coding c /\
    Parser.parser_init_loop (a :: l2) c w = Some ((r, prs), w').
Proof.
  induction l as [| a l IH]; intros Hrun.
  - injection Hrun as <- <- <-. left. split; [| auto].
    intros a Ha. apply elem_of_nil in Ha. contradiction.
  - destruct (Z.eqb_spec (Parser.cfg_coding c) (Parser.coding a)) as [Heq | Hne].
    + right. exists [], a, l. split; [reflexivity |]. split; [| auto].
      intros x Hx. apply elem_of_nil in Hx. contradiction.
    + assert (Hrest : Parser.parser_init_loop l c w = Some ((r, prs), w')).
      { cbn [Parser.parser_init_loop] in Hrun.
        destruct (Z.eqb_spec (Parser.cfg_coding c) (Parser.coding a)); [contradiction |].
        exact Hrun. }
      destruct (IH Hrest) as [(Hno & -> & -> & ->) | (l1 & b & l2 & -> & Hno & Hb & Hrun')].
      * left. split; [| auto]. intros x Hx.
        apply elem_of_cons in Hx as [-> | Hx]; [congruence | apply Hno, Hx].
      * right. exists (a :: l1), b, l2. split; [reflexivity |]. split; [| auto].
        intros x Hx. apply elem_of_cons in Hx as [-> | Hx]; [congruence | apply Hno, Hx].
Qed.

(** X22. [parser_init] with a coding type that no registered codec has
    returns [MPP_NOK] and leaves NULL in [*prs]: nothing is allocated and no
    callback runs.  With a NULL configuration it returns
    [MPP_ERR_NULL_PTR] and does not write [*prs]. *)
Theorem X22_parser_init_unknown_coding l prs0 c w :
  (forall a, a ∈ l -> Parser.coding a <> Parser.cfg_coding c) ->
  Parser.parser_init l prs0 (Some c) w = Some ((Parser.MPP_NOK, None), w) /\
  Parser.parser_init l prs0 None w = Some ((Parser.MPP_ERR_NULL_PTR, prs0), w).
Proof.
  intros Hno. split; [| reflexivity]. cbn [Parser.parser_init].
  rewrite <- (app_nil_r l), (parser_init_loop_skip l [] c Hno). reflexivity.
Qed.

(** X23. [parser_init] tries the first registered codec that has the
    coding type asked for, and no other: the codecs after it in the table
    do not matter, not even when it fails.  When the call does not return
    [MPP_OK] (an allocation failed: [MPP_ERR_MALLOC]; the codec's [init]
    failed: its code), [*prs] is NULL and every block allocated on the way
    has been given back.  When it returns [MPP_OK], [*prs] is a new handle
    holding the configuration, the codec and a new context block, the two
    blocks being all that was allocated, and the codec's [init] has run on
    that context. *)
Theorem X23_parser_init_first_match l1 a l2 prs0 c w :
  Parser.wf w ->
  (forall x, x ∈ l1 -> Parser.coding x <> Parser.cfg_coding c) ->
  Parser.coding a = Parser.cfg_coding c ->
  Parser.parser_init (l1 ++ a :: l2) prs0 (Some c) w =
    Parser.parser_init [a] prs0 (Some c) w /\
  forall r prs w',
    Parser.parser_init (l1 ++ a :: l2) prs0 (Some c) w = Some ((r, prs), w') ->
    (r <> Parser.MPP_OK ->
     prs = None /\ Parser.live w' = Parser.live w /\ Parser.objs w' = Parser.objs w /\
     ((r = Parser.MPP_ERR_MALLOC /\ Parser.codec w' = Parser.codec w) \/
      exists f, Parser.init a = Some f /\
                f (Some (S (Parser.next w))) c (Parser.codec w) = (r, Parser.codec w'))) /\
    (r = Parser.MPP_OK ->
     exists p cx f,
       prs = Some p /\ p <> cx /\ (p ∉ Parser.live w) /\ (cx ∉ Parser.live w) /\
       Parser.live w' = Parser.live w ++ [p; cx] /\
       Parser.obj_at w' p = Some (Parser.mkParserImpl c a (Some cx)) /\
       Parser.init a = Some f /\
       f (Some cx) c (Parser.codec w) = (Parser.MPP_OK, Parser.codec w')).
Proof.
  intros Hwf Hno Ha. cbn [Parser.parser_init].
  rewrite (parser_init_loop_skip l1 (a :: l2) c Hno).
  split.
  { cbn [Parser.parser_init_loop]. rewrite <- Ha, Z.eqb_refl. reflexivity. }
  intros r prs w' Hrun.
  destruct (parser_init_try a l2 c w r prs w' Hwf Ha Hrun)
    as [(-> & Hlv & Hos & _ & Hwhy) | (-> & -> & Hlv & Hos & _ & f & Hf & Hcall)].
  - split; [| intros ->; destruct Hwhy as [[[=] _] | (f & _ & _ & Hr)]; contradiction].
    intros _. split; [reflexivity |]. split; [exact Hlv |]. split; [exact Hos |].
    destruct Hwhy as [H | (f & Hf & Hcall & _)]; [left; exact H | right; eauto].
  - split; [intros H; contradiction |]. intros _.
    destruct Hwf as [Hlive _].
    exists (Parser.next w), (S (Parser.next w)), f.
    split; [reflexivity |]. split; [lia |].
    split; [intros Hin; specialize (Hlive _ Hin); lia |].
    split; [intros Hin; specialize (Hlive _ Hin); lia |].
    split; [exact Hlv |].
    split; [| split; assumption].
    unfold Parser.obj_at. rewrite Hos. cbn [list_find].
    destruct (decide _) as [_ | Hne]; [reflexivity | contradiction].
Qed.

(** The handle [parser_init] made, once in memory: [parser_deinit] on it. *)
Lemma parser_deinit_fresh c a w w1 :
  Parser.wf w ->
  Parser.live w1 = Parser.live w ++ [Parser.next w; S (Parser.next w)] ->
  Parser.objs w1 =
    (Parser.next w, Parser.mkParserImpl c a (Some (S (Parser.next w)))) :: Parser.objs w ->
  exists w2,
    Parser.parser_deinit (Some (Parser.next w)) w1 = Some (Parser.MPP_OK, w2) /\
    Parser.live w2 = Parser.live w /\ Parser.objs w2 = Parser.objs w /\
    Parser.codec w2 = match Parser.deinit a with
                      | Some g => (g (Some (S (Parser.next w))) (Parser.codec w1)).2
                      | None => Parser.codec w1
                      end.
Proof.
  intros Hwf Hlv Hos. pose proof (wf_objs_below w Hwf) as Hobjs. destruct Hwf as [Hlive _].
  assert (Hobjs1 : forall o, o ∈ Parser.objs w -> (o.1 < S (Parser.next w))%nat).
  { intros o Ho. specialize (Hobjs o Ho). lia. }
  destruct w1 as [cd1 lv1 nx1 orc1 os1]. cbn [Parser.live Parser.objs Parser.codec] in *.
  subst lv1 os1.
  unfold Parser.parser_deinit, Parser.bind at 1, Parser.load, Parser.obj_at.
  cbn [Parser.objs list_find]. destruct (decide _) as [_ | Hne]; [| contradiction].
  cbn [fmap option_fmap option_map snd Parser.api Parser.ctx].
  set (n := Parser.next w) in *.
  assert (Hfree : forall cd,
    Parser.bind (Parser.mpp_free (Some (S n)))
                (fun _ => Parser.bind (Parser.mpp_free (Some n))
                                      (fun _ => Parser.ret Parser.MPP_OK))
      (Parser.mkWorld cd (Parser.live w ++ [n; S n]) nx1 orc1
         ((n, Parser.mkParserImpl c a (Some (S n))) :: Parser.objs w)) =
    Some (Parser.MPP_OK, Parser.mkWorld cd (Parser.live w) nx1 orc1 (Parser.objs w))).
  { intros cd. unfold Parser.bind at 1.
    rewrite free_block by (rewrite !elem_of_app, !elem_of_cons; auto).
    unfold Parser.bind at 1.
    replace (Parser.live w ++ [n; S n]) with ((Parser.live w ++ [n]) ++ [S n])
      by (rewrite <- app_assoc; reflexivity).
    rewrite filter_app, (filter_cons _ (S n)), filter_nil.
    destruct (decide (S n <> S n)); [contradiction |]. rewrite app_nil_r.
    rewrite filter_app, (filter_cons _ n), filter_nil.
    destruct (decide (n <> S n)); [| lia].
    rewrite (filter_fresh (Parser.live w) (S n))
      by (intros x Hx; specialize (Hlive x Hx); lia).
    rewrite (filter_cons _ (n, _)). cbn [fst].
    destruct (decide (n <> S n)); [| lia].
    rewrite (filter_fresh_objs _ _ Hobjs1).
    rewrite free_block by (apply elem_of_app; right; left).
    rewrite (filter_drop_last _ n Hlive).
    rewrite (filter_cons _ (n, _)). cbn [fst].
    destruct (decide (n <> n)); [contradiction |].
    rewrite (filter_fresh_objs _ _ Hobjs). reflexivity. }
  destruct (Parser.deinit a) as [g |].
  - unfold Parser.bind at 1, Parser.bind at 1, Parser.call. cbn [Parser.codec].
    destruct (g (Some (S n)) cd1) as [r cd2] eqn:Hg.
    cbn [Parser.live Parser.next Parser.oracle Parser.objs Parser.ret].
    unfold Parser.ret at 1.
    eexists. split; [apply Hfree |]. repeat split.
  - unfold Parser.bind at 1, Parser.ret at 1.
    eexists. split; [apply Hfree |]. repeat split.
Qed.

(** X24. [parser_init] followed by [parser_deinit] leaves no block behind:
    [parser_deinit] on the handle a successful [parser_init] made returns
    [MPP_OK], runs the codec's [deinit] (when there is one) once on the
    context, and gives back both the context and the handle, so the
    allocated blocks and the handles in memory are those from before
    [parser_init].  The handle is gone after that: a second
    [parser_deinit] on it has no defined behaviour.  On a NULL handle
    [parser_deinit] returns [MPP_ERR_NULL_PTR] and does nothing. *)
Theorem X24_parser_init_then_deinit l prs0 c w p w1 :
  Parser.wf w ->
  Parser.parser_init l prs0 (Some c) w = Some ((Parser.MPP_OK, Some p), w1) ->
  (exists a cx w2,
     a ∈ l /\ Parser.coding a = Parser.cfg_coding c /\
     Parser.obj_at w1 p = Some (Parser.mkParserImpl c a (Some cx)) /\
     Parser.parser_deinit (Some p) w1 = Some (Parser.MPP_OK, w2) /\
     Parser.live w2 = Parser.live w /\ Parser.objs w2 = Parser.objs w /\
     Parser.codec w2 = match Parser.deinit a with
                       | Some g => (g (Some cx) (Parser.codec w1)).2
                       | None => Parser.codec w1
                       end /\
     Parser.parser_deinit (Some p) w2 = None) /\
  Parser.parser_deinit None w1 = Some (Parser.MPP_ERR_NULL_PTR, w1).
Proof.
  intros Hwf Hrun. split; [| reflexivity]. cbn [Parser.parser_init] in Hrun.
  destruct (parser_init_loop_split l c w _ _ _ Hrun)
    as [(_ & [=] & _) | (l1 & a & l2 & -> & Hno & Ha & Hrun')].
  destruct (parser_init_try a l2 c w _ _ w1 Hwf Ha Hrun')
    as [([=] & _) | (_ & [= ->] & Hlv & Hos & _ & f & Hf & Hcall)].
  destruct (parser_deinit_fresh c a w w1 Hwf Hlv Hos) as (w2 & Hde & Hlv2 & Hos2 & Hcd2).
  exists a, (S (Parser.next w)), w2.
  split; [apply elem_of_app; right; left |]. split; [exact Ha |].
  split.
  { unfold Parser.obj_at. rewrite Hos. cbn [list_find].
    destruct (decide _) as [_ | Hne]; [reflexivity | contradiction]. }
  split; [exact Hde |]. split; [exact Hlv2 |]. split; [exact Hos2 |]. split; [exact Hcd2 |].
  unfold Parser.parser_deinit, Parser.bind at 1, Parser.load, Parser.obj_at. rewrite Hos2.
  destruct (list_find _ (Parser.objs w)) as [[k o] |] eqn:Hfind; [| reflexivity].
  apply list_find_Some in Hfind as (Hlook & Hkey & _).
  apply list_elem_of_lookup_2 in Hlook.
  pose proof (wf_objs_below w Hwf o Hlook) as Hlt. cbn in Hkey. lia.
Qed.

(** X25. The handle dispatches to the codec chosen by [parser_init]: on
    the handle a successful [parser_init] made, [parser_prepare],
    [parser_parse], [parser_reset], [parser_flush] and [parser_control]
    return [MPP_OK] and change nothing when that codec has no such
    callback, and otherwise run its callback on the context allocated by
    [parser_init] and return what it returns.  On a NULL handle, and for
    [parser_prepare] on a NULL packet and [parser_parse] on a NULL task,
    they return [MPP_ERR_NULL_PTR] and run no callback. *)
Theorem X25_parser_calls_reach_the_codec l prs0 c w p w1 :
  Parser.wf w ->
  Parser.parser_init l prs0 (Some c) w = Some ((Parser.MPP_OK, Some p), w1) ->
  exists a cx,
    a ∈ l /\ Parser.coding a = Parser.cfg_coding c /\
    (forall pkt task,
        Parser.parser_prepare (Some p) (Some pkt) task w1 =
        match Parser.prepare a with
        | Some g => Parser.call (g (Some cx) pkt task) w1
        | None => Some (Parser.MPP_OK, w1)
        end) /\
    (forall task,
        Parser.parser_parse (Some p) (Some task) w1 =
        match Parser.parse a with
        | Some g => Parser.call (g (Some cx) task) w1
        | None => Some (Parser.MPP_OK, w1)
        end) /\
    Parser.parser_reset (Some p) w1 =
      match Parser.reset a with
      | Some g => Parser.call (g (Some cx)) w1
      | None => Some (Parser.MPP_OK, w1)
      end /\
    Parser.parser_flush (Some p) w1 =
      match Parser.flush a with
      | Some g => Parser.call (g (Some cx)) w1
      | None => Some (Parser.MPP_OK, w1)
      end /\
    (forall cmd para,
        Parser.parser_control (Some p) cmd para w1 =
        match Parser.control a with
        | Some g => Parser.call (g (Some cx) cmd para) w1
        | None => Some (Parser.MPP_OK, w1)
        end) /\
    (forall pkt task, Parser.parser_prepare None pkt task w1 =
                      Some (Parser.MPP_ERR_NULL_PTR, w1)) /\
    (forall task, Parser.parser_prepare (Some p) None task w1 =
                  Some (Parser.MPP_ERR_NULL_PTR, w1)) /\
    (forall task, Parser.parser_parse None task w1 = Some (Parser.MPP_ERR_NULL_PTR, w1)) /\
    Parser.parser_parse (Some p) None w1 = Some (Parser.MPP_ERR_NULL_PTR, w1) /\
    Parser.parser_reset None w1 = Some (Parser.MPP_ERR_NULL_PTR, w1) /\
    Parser.parser_flush None w1 = Some (Parser.MPP_ERR_NULL_PTR, w1) /\
    (forall cmd para, Parser.parser_control None cmd para w1 =
                      Some (Parser.MPP_ERR_NULL_PTR, w1)).
Proof.
  intros Hwf Hrun. cbn [Parser.parser_init] in Hrun.
  destruct (parser_init_loop_split l c w _ _ _ Hrun)
    as [(_ & [=] & _) | (l1 & a & l2 & -> & Hno & Ha & Hrun')].
  destruct (parser_init_try a l2 c w _ _ w1 Hwf Ha Hrun')
    as [([=] & _) | (_ & [= ->] & Hlv & Hos & _ & f & Hf & Hcall)].
  exists a, (S (Parser.next w)).
  split; [apply elem_of_app; right; left |]. split; [exact Ha |].
  assert (Hload : Parser.load (Some (Parser.next w)) w1 =
                  Some (Parser.mkParserImpl c a (Some (S (Parser.next w))), w1)).
  { unfold Parser.load, Parser.obj_at. rewrite Hos. cbn [list_find].
    destruct (decide _) as [_ | Hne]; [reflexivity | contradiction]. }
  repeat split.
  - intros pkt task. unfold Parser.parser_prepare, Parser.bind. rewrite Hload.
    cbn [Parser.api]. destruct (Parser.prepare a); reflexivity.
  - intros task. unfold Parser.parser_parse, Parser.bind. rewrite Hload.
    cbn [Parser.api]. destruct (Parser.parse a); reflexivity.
  - unfold Parser.parser_reset, Parser.bind. rewrite Hload.
    cbn [Parser.api]. destruct (Parser.reset a); reflexivity.
  - unfold Parser.parser_flush, Parser.bind. rewrite Hload.
    cbn [Parser.api]. destruct (Parser.flush a); reflexivity.
  - intros cmd para. unfold Parser.parser_control, Parser.bind. rewrite Hload.
    cbn [Parser.api]. destruct (Parser.control a); reflexivity.
Qed.

End ParserFrontEnd.

Lemma example_world_wf : Parser.wf example_world.
Proof. split; intros x Hx; apply elem_of_nil in Hx; contradiction. Qed.

Lemma example_codings c :
  c <> 7 -> c <> 9 ->
  forall a, a ∈ example_parsers -> Parser.coding a <> c.
Proof.
  intros H7 H9 a Ha. unfold example_parsers in Ha.
  apply elem_of_cons in Ha as [-> | Ha]; [cbn; congruence |].
  apply elem_of_cons in Ha as [-> | Ha]; [cbn; congruence |].
  apply elem_of_nil in Ha. contradiction.
Qed.

Lemma X22_witness :
  Parser.parser_init example_parsers None (Some (Parser.mkCfg 3 0)) example_world =
  Some ((Parser.MPP_NOK, None), example_world).
Proof.
  apply (X22_parser_init_unknown_coding example_parsers None (Parser.mkCfg 3 0)).
  apply example_codings; cbn; lia.
Defined.

Lemma X23_witness :
  exists w',
    Parser.parser_init example_parsers None (Some (Parser.mkCfg 9 0)) example_world =
      Some ((Parser.MPP_ERR_CODEC (-5), None), w') /\
    Parser.live w' = [] /\ Parser.codec w' = 1%nat.
Proof.
  eexists. split; [vm_compute; reflexivity |].
  match goal with
  | |- Parser.live ?x = _ /\ _ =>
      destruct (X23_parser_init_first_match
                  [Parser.mkApi 7 16 (Some (fun _ _ n => (Parser.MPP_OK, S n)))
                                (Some (fun _ n => (Parser.MPP_OK, S n))) None None
                                (Some (fun _ n => (Parser.MPP_NOK, S n))) None None]
                  (Parser.mkApi 9 32 (Some (fun _ _ n => (Parser.MPP_ERR_CODEC (-5), S n)))
                                None None None None None None)
                  [] None (Parser.mkCfg 9 0) example_world)
        as [_ Hcases]
  end.
  - apply example_world_wf.
  - intros y Hy. apply elem_of_cons in Hy as [-> | Hy]; [cbn; lia |].
    apply elem_of_nil in Hy. contradiction.
  - reflexivity.
  - edestruct Hcases as [Hfail _]; [vm_compute; reflexivity |].
    destruct Hfail as (_ & Hlive & _); [discriminate |].
    split; [exact Hlive | reflexivity].
Defined.

Lemma X24_witness :
  exists w1 w2,
    Parser.parser_init example_parsers None (Some (Parser.mkCfg 7 0)) example_world =
      Some ((Parser.MPP_OK, Some 0%nat), w1) /\
    Parser.live w1 = [0%nat; 1%nat] /\
    Parser.parser_deinit (Some 0%nat) w1 = Some (Parser.MPP_OK, w2) /\
    Parser.live w2 = [] /\ Parser.codec w2 = 2%nat.
Proof.
  eexists.
  match goal with
  | |- exists w2, Parser.parser_init ?l ?p ?c ?w = Some (_, ?x) /\ _ =>
      let r := eval vm_compute in (Parser.parser_init l p c w) in
      match r with
      | Some (_, ?y) =>
          unify x y;
          destruct (X24_parser_init_then_deinit example_parsers None (Parser.mkCfg 7 0)
                      example_world 0%nat y)
            as [(a & cx & w2 & _ & _ & _ & Hde & Hlive & _) _]
      end
  end.
  - apply example_world_wf.
  - vm_compute. reflexivity.
  - exists w2. split; [vm_compute; reflexivity |]. split; [reflexivity |].
    split; [exact Hde |]. split; [exact Hlive |].
    vm_compute in Hde. injection Hde as <-. reflexivity.
Defined.

Lemma X25_witness :
  exists w1 w2,
    Parser.parser_init example_parsers None (Some (Parser.mkCfg 7 0)) example_world =
      Some ((Parser.MPP_OK, Some 0%nat), w1) /\
    Parser.parser_reset (Some 0%nat) w1 = Some (Parser.MPP_NOK, w2) /\
    Parser.codec w2 = 2%nat /\
    Parser.parser_flush (Some 0%nat) w1 = Some (Parser.MPP_OK, w1).
Proof.
  eexists.
  match goal with
  | |- exists w2, Parser.parser_init ?l ?p ?c ?w = Some (_, ?x) /\ _ =>
      let r := eval vm_compute in (Parser.parser_init l p c w) in
      match r with
      | Some (_, ?y) =>
          unify x y;
          destruct (X25_parser_calls_reach_the_codec example_parsers None
                      (Parser.mkCfg 7 0) example_world 0%nat y)
            as (a & cx & _ & _ & _ & _ & Hreset & Hflush & _)
      end
  end.
  - apply example_world_wf.
  - vm_compute. reflexivity.
  - eexists. split; [vm_compute; reflexivity |].
    split; [vm_compute; reflexivity |]. split; [reflexivity |].
    vm_compute. reflexivity.
Defined.
